(** * meteor-synced-cron: a shallow embedding and its verified properties

    The development follows the package's modules:

    - [JsDate]            the ECMAScript [Date] operations the package calls
    - [Gregorian]         the calendar as it is usually stated
    - [JsString]          the string primitives the parsers rely on
    - [CronParser]        cronParser.ts
    - [IntervalScheduler] intervalScheduler.ts
    - [Timers]            the host's [setTimeout] and [clearTimeout]
    - [Scheduler]         scheduler.ts
    - [TimerManager]      timerManager.ts
    - [JobExecutor]       jobExecutor.ts
    - [JobHistory], [JobConfig], [JobEntry], [JobStatus]   types.ts
    - [Mongo]             a collection with the unique index of the package
    - [SyncedCron]        SyncedCron.ts

    The definitions come first; the facts proved of them follow, module by
    module.

    Instants are integers: milliseconds since the epoch, as [Date] stores
    them.  The range limit of [Date] (8.64e15 ms either side of the epoch)
    and [NaN] time values are outside the model; the one place where the
    package can compute a [NaN], an aligned interval of [every = 0], is
    named by [Scheduler.yieldsInvalidDate] and excluded where it matters.
    Numbers that the package only ever uses as integers ([every], delays,
    counters) are integers here.

    The host's time zone is a [JsDate.Zone]: the offset of local time at each
    instant, and the offset by which a local time is taken back to an
    instant.  The local getters and setters of [Date] go through it, also
    where the package calls them in UTC mode.  [JsDate.fixed] is a zone
    without daylight saving and [JsDate.changing] one whose clocks change
    once; what is proved for [JsDate.fixed] hosts only says so in its
    statement.

    Asynchronous methods are modelled by how their promise ends.  A callback
    may throw wherever the code calls it: inside a [try] block the error is
    caught as the code catches it, outside one it leaves the function that
    made the call, and what leaves the callback of a timer is recorded as
    uncaught.  The host runs the callback of a timer when it is due or
    later, never earlier. *)

From Stdlib Require Import ZArith QArith List String Ascii Bool Lia Arith.
From Stdlib Require Import Sorting.Permutation Sorting.Sorted.
Import ListNotations.
Local Open Scope Z_scope.
Local Open Scope string_scope.
Local Open Scope list_scope.
Local Open Scope Z_scope.

(* ================================================================== *)
(** * ECMAScript [Date] *)
(* ================================================================== *)

Module JsDate.

Definition msPerSecond : Z := 1000.
Definition msPerMinute : Z := 60000.
Definition msPerHour : Z := 3600000.
Definition msPerDay : Z := 86400000.

(** Day number and time within the day (ECMA-262, 21.4.1.3). *)
Definition Day (t : Z) : Z := t / msPerDay.
Definition TimeWithinDay (t : Z) : Z := t mod msPerDay.

Definition HourFromTime (t : Z) : Z := (t / msPerHour) mod 24.
Definition MinFromTime (t : Z) : Z := (t / msPerMinute) mod 60.
Definition SecFromTime (t : Z) : Z := (t / msPerSecond) mod 60.
Definition msFromTime (t : Z) : Z := t mod msPerSecond.

(** 1 January 1970 was a Thursday. *)
Definition WeekDay (t : Z) : Z := (Day t + 4) mod 7.

(** The proleptic Gregorian calendar, by 400-year eras that start on
    1 March.  [doe] is the day of the era, [yoe] the year of the era, [doy]
    the day of the (March-based) year and [mp] the March-based month. *)
Definition daysPerEra : Z := 146097.
Definition epochShift : Z := 719468.

Definition yoe_of_doe (doe : Z) : Z :=
  (doe - doe / 1460 + doe / 36524 - doe / 146096) / 365.

Definition doy_of_doe (doe : Z) : Z :=
  let yoe := yoe_of_doe doe in
  doe - (365 * yoe + yoe / 4 - yoe / 100).

Definition mp_of_doy (doy : Z) : Z := (5 * doy + 2) / 153.

Definition month_of_mp (mp : Z) : Z := if mp <? 10 then mp + 3 else mp - 9.
Definition mp_of_month (m : Z) : Z := if 2 <? m then m - 3 else m + 9.

(** Year, month (1..12) and day of month (1..31) of a day number. *)
Definition civil_from_days (z : Z) : Z * Z * Z :=
  let z' := z + epochShift in
  let era := z' / daysPerEra in
  let doe := z' mod daysPerEra in
  let yoe := yoe_of_doe doe in
  let doy := doy_of_doe doe in
  let mp := mp_of_doy doy in
  let d := doy - (153 * mp + 2) / 5 + 1 in
  let m := month_of_mp mp in
  let y := yoe + era * 400 + (if m <=? 2 then 1 else 0) in
  (y, m, d).

(** Day number of a year, month (1..12) and day of month; the day of month
    may lie outside the month, as [MakeDay] allows. *)
Definition days_from_civil (y m d : Z) : Z :=
  let y' := if m <=? 2 then y - 1 else y in
  let era := y' / 400 in
  let yoe := y' mod 400 in
  let doy := (153 * mp_of_month m + 2) / 5 + d - 1 in
  let doe := yoe * 365 + yoe / 4 - yoe / 100 + doy in
  era * daysPerEra + doe - epochShift.

Definition YearFromTime (t : Z) : Z :=
  let '(y, _, _) := civil_from_days (Day t) in y.
(** Months are numbered from 0 (January). *)
Definition MonthFromTime (t : Z) : Z :=
  let '(_, m, _) := civil_from_days (Day t) in m - 1.
Definition DateFromTime (t : Z) : Z :=
  let '(_, _, d) := civil_from_days (Day t) in d.

Definition MakeTime (hour min sec ms : Z) : Z :=
  hour * msPerHour + min * msPerMinute + sec * msPerSecond + ms.

Definition MakeDay (year month date : Z) : Z :=
  let ym := year + month / 12 in
  let mn := month mod 12 in
  days_from_civil ym (mn + 1) 1 + date - 1.

Definition MakeDate (day time : Z) : Z := day * msPerDay + time.

(** The time zone of the host (ECMA-262, 21.4.1.25).  [LocalTZA zone t true]
    is the offset of local time from UTC, in milliseconds, at the instant
    [t]; [LocalTZA zone t false] is the offset by which the local time value
    [t] is taken back to an instant.  Where the offset changes, a local
    time that occurs twice is taken back to the earlier instant, and one
    that is skipped is read with the offset before the change. *)
Record Zone : Type := { LocalTZA : Z -> bool -> Z }.

Definition LocalTime (zone : Zone) (t : Z) : Z := t + LocalTZA zone t true.
Definition UTC (zone : Zone) (t : Z) : Z := t - LocalTZA zone t false.

(** A zone that keeps one offset, [minutes] east of UTC: no daylight
    saving. *)
Definition fixed (minutes : Z) : Zone :=
  {| LocalTZA := fun _ _ => minutes * msPerMinute |}.

(** A zone whose offset changes once, at the instant [change], from
    [before] to [after] minutes east of UTC.  When the offset drops (the
    clocks go back) the local times of the last [before - after] minutes
    before the change occur again after it; when it rises (the clocks go
    forward) the [after - before] minutes of local time that follow the
    change are skipped. *)
Definition changing (change before after : Z) : Zone :=
  {| LocalTZA := fun t isUTC =>
       if isUTC then
         (if t <? change then before else after) * msPerMinute
       else
         (if t <? change + Z.max before after * msPerMinute
          then before else after) * msPerMinute |}.

(** ** Getters *)

Definition getTime (t : Z) : Z := t.

Definition getMilliseconds (zone : Zone) (t : Z) : Z := msFromTime
    (LocalTime zone t).
Definition getSeconds (zone : Zone) (t : Z) : Z := SecFromTime
    (LocalTime zone t).
Definition getMinutes (zone : Zone) (t : Z) : Z := MinFromTime
    (LocalTime zone t).
Definition getHours (zone : Zone) (t : Z) : Z := HourFromTime
    (LocalTime zone t).
Definition getDate (zone : Zone) (t : Z) : Z := DateFromTime (LocalTime zone t).
Definition getMonth (zone : Zone) (t : Z) : Z := MonthFromTime
    (LocalTime zone t).
Definition getDay (zone : Zone) (t : Z) : Z := WeekDay (LocalTime zone t).
Definition getFullYear (zone : Zone) (t : Z) : Z := YearFromTime
    (LocalTime zone t).

Definition getUTCMilliseconds (t : Z) : Z := msFromTime t.
Definition getUTCSeconds (t : Z) : Z := SecFromTime t.
Definition getUTCMinutes (t : Z) : Z := MinFromTime t.
Definition getUTCHours (t : Z) : Z := HourFromTime t.
Definition getUTCDate (t : Z) : Z := DateFromTime t.
Definition getUTCMonth (t : Z) : Z := MonthFromTime t.
Definition getUTCDay (t : Z) : Z := WeekDay t.
Definition getUTCFullYear (t : Z) : Z := YearFromTime t.

(** ** Setters

    Each setter returns the new time value of the [Date] it is called on. *)

Definition setMilliseconds (zone : Zone) (t ms : Z) : Z :=
  let lt := LocalTime zone t in
  UTC zone (MakeDate (Day lt)
    (MakeTime (HourFromTime lt) (MinFromTime lt) (SecFromTime lt) ms)).

(** [setSeconds(sec, ms)] *)
Definition setSeconds2 (zone : Zone) (t sec ms : Z) : Z :=
  let lt := LocalTime zone t in
  UTC zone (MakeDate (Day lt)
    (MakeTime (HourFromTime lt) (MinFromTime lt) sec ms)).

(** [setSeconds(sec)] *)
Definition setSeconds (zone : Zone) (t sec : Z) : Z :=
  setSeconds2 zone t sec (getMilliseconds zone t).

(** [setMinutes(min)] *)
Definition setMinutes (zone : Zone) (t min : Z) : Z :=
  let lt := LocalTime zone t in
  UTC zone (MakeDate (Day lt)
    (MakeTime (HourFromTime lt) min (SecFromTime lt) (msFromTime lt))).

(** [setHours(hour)] *)
Definition setHours (zone : Zone) (t hour : Z) : Z :=
  let lt := LocalTime zone t in
  UTC zone (MakeDate (Day lt)
    (MakeTime hour (MinFromTime lt) (SecFromTime lt) (msFromTime lt))).

(** [setHours(hour, min, sec, ms)] *)
Definition setHours4 (zone : Zone) (t hour min sec ms : Z) : Z :=
  let lt := LocalTime zone t in
  UTC zone (MakeDate (Day lt) (MakeTime hour min sec ms)).

(** [setDate(date)] *)
Definition setDate (zone : Zone) (t date : Z) : Z :=
  let lt := LocalTime zone t in
  UTC zone (MakeDate (MakeDay (YearFromTime lt) (MonthFromTime lt) date)
                     (TimeWithinDay lt)).

Definition setUTCSeconds (t sec : Z) : Z := setSeconds (fixed 0) t sec.
Definition setUTCMinutes (t min : Z) : Z := setMinutes (fixed 0) t min.
Definition setUTCHours (t hour : Z) : Z := setHours (fixed 0) t hour.
Definition setUTCHours4 (t hour min sec ms : Z) : Z :=
  setHours4 (fixed 0) t hour min sec ms.
Definition setUTCDate (t date : Z) : Z := setDate (fixed 0) t date.

(** [Date.UTC(year, month, date, hours, minutes, seconds, ms)], with the
    month numbered from 0; used to write instants down. *)
Definition dateUTC (year month date hours minutes seconds ms : Z) : Z :=
  MakeDate (MakeDay year month date) (MakeTime hours minutes seconds ms).

(** [new Date(year, month, date)]: midnight of that day in the local zone,
    with the month numbered from 0; a year in 0..99 stands for
    1900 + year. *)
Definition dateLocal (zone : Zone) (year month date : Z) : Z :=
  let yr := if (0 <=? year) && (year <=? 99) then 1900 + year else year in
  UTC zone (MakeDate (MakeDay yr month date) (MakeTime 0 0 0 0)).

End JsDate.

(** The Gregorian calendar as it is usually stated, to compare the
    operations above with: leap years, and the number of days of a month
    (numbered from 1). *)
Module Gregorian.

Definition isLeapYear (y : Z) : bool :=
  ((y mod 4 =? 0) && negb (y mod 100 =? 0)) || (y mod 400 =? 0).

Definition daysIn (y m : Z) : Z :=
  if m =? 2 then (if isLeapYear y then 29 else 28)
  else if (m =? 4) || (m =? 6) || (m =? 9) || (m =? 11) then 30
  else 31.

End Gregorian.

(* ================================================================== *)
(** * Thrown values and results *)
(* ================================================================== *)

(** What a JavaScript [throw] can carry, as far as the package inspects it:
    whether it is an [Error] instance, its message (or [String(e)] for other
    values), and a numeric [code] property when it is an object with one. *)
Inductive Thrown : Type :=
| ThrownError (message : string) (code : option Z)
| ThrownObject (text : string) (code : option Z)
| ThrownPrimitive (text : string).

(** [new Error(msg)] *)
Definition newError (msg : string) : Thrown := ThrownError msg None.

(** [e instanceof Error ? e : new Error(String(e))] *)
Definition toError (e : Thrown) : Thrown :=
  match e with
  | ThrownError _ _ => e
  | ThrownObject text _ => newError text
  | ThrownPrimitive text => newError text
  end.

Definition message (e : Thrown) : string :=
  match e with
  | ThrownError m _ => m
  | ThrownObject t _ => t
  | ThrownPrimitive t => t
  end.

(** A computation that returns or throws. *)
Inductive result (A : Type) : Type :=
| Ok (a : A)
| Throw (e : Thrown).
Arguments Ok {A} a.
Arguments Throw {A} e.

Definition bind {A B : Type} (r : result A) (k : A -> result B) : result B :=
  match r with
  | Ok a => k a
  | Throw e => Throw e
  end.

Notation "'let*' x ':=' r 'in' k" := (bind r (fun x => k))
  (at level 10, x pattern, r at level 100, k at level 200).

Definition isOk {A : Type} (r : result A) : bool :=
  match r with Ok _ => true | Throw _ => false end.

(** An optional callback is given. *)
Definition given {A : Type} (callback : option A) : bool :=
  match callback with Some _ => true | None => false end.

(* ================================================================== *)
(** * String primitives *)
(* ================================================================== *)

(** Strings are ASCII text; the white space of [trim], [\s] and [parseInt]
    is tab, line feed, vertical tab, form feed, carriage return and space. *)
Module JsString.

Definition isWhiteSpace (c : ascii) : bool :=
  let n := nat_of_ascii c in
  ((9 <=? n) && (n <=? 13))%nat || (n =? 32)%nat.

Definition isDigit (c : ascii) : bool :=
  let n := nat_of_ascii c in ((48 <=? n) && (n <=? 57))%nat.

Definition digitValue (c : ascii) : Z := Z.of_nat (nat_of_ascii c) - 48.

Definition upperChar (c : ascii) : ascii :=
  let n := nat_of_ascii c in
  if ((97 <=? n) && (n <=? 122))%nat then ascii_of_nat (n - 32) else c.

Fixpoint toUpperCase (s : string) : string :=
  match s with
  | EmptyString => EmptyString
  | String c s' => String (upperChar c) (toUpperCase s')
  end.

Fixpoint trimStart (s : string) : string :=
  match s with
  | EmptyString => EmptyString
  | String c s' => if isWhiteSpace c then trimStart s' else s
  end.

(** Drops trailing white space: a character is kept when it is not white
    space or something after it is kept. *)
Fixpoint trimEnd (s : string) : string :=
  match s with
  | EmptyString => EmptyString
  | String c s' =>
      match trimEnd s' with
      | EmptyString => if isWhiteSpace c then EmptyString else String c EmptyString
      | rest => String c rest
      end
  end.

Definition trim (s : string) : string := trimEnd (trimStart s).

(** [s.split(sep)] for a one-character separator. *)
Fixpoint split (sep : ascii) (s : string) : list string :=
  match s with
  | EmptyString => [EmptyString]
  | String c s' =>
      if Ascii.eqb c sep then EmptyString :: split sep s'
      else match split sep s' with
           | [] => [String c EmptyString]
           | piece :: pieces => String c piece :: pieces
           end
  end.

(** [s.split(/\s+/)]: [inRun] tells that the previous character was white
    space, so that a run of white space separates once. *)
Fixpoint splitWhiteSpace (inRun : bool) (s : string) : list string :=
  match s with
  | EmptyString => [EmptyString]
  | String c s' =>
      if isWhiteSpace c then
        if inRun then splitWhiteSpace true s'
        else EmptyString :: splitWhiteSpace true s'
      else match splitWhiteSpace false s' with
           | [] => [String c EmptyString]
           | piece :: pieces => String c piece :: pieces
           end
  end.

Fixpoint includesChar (c : ascii) (s : string) : bool :=
  match s with
  | EmptyString => false
  | String c' s' => Ascii.eqb c c' || includesChar c s'
  end.

(** [s.indexOf(c)], [None] standing for -1. *)
Fixpoint indexOf (c : ascii) (s : string) : option nat :=
  match s with
  | EmptyString => None
  | String c' s' =>
      if Ascii.eqb c c' then Some O
      else match indexOf c s' with
           | Some i => Some (S i)
           | None => None
           end
  end.

Definition startsWithChar (c : ascii) (s : string) : bool :=
  match s with
  | String c' _ => Ascii.eqb c c'
  | EmptyString => false
  end.

(** [s.includes(sub)] *)
Fixpoint includes (sub s : string) : bool :=
  String.prefix sub s ||
  match s with
  | EmptyString => false
  | String _ s' => includes sub s'
  end.

(** The digits at the head of [s], accumulated in base 10; [seen] tells that
    one digit at least was read. *)
Fixpoint parseDigits (s : string) (acc : Z) (seen : bool) : option Z :=
  match s with
  | String c s' =>
      if isDigit c then parseDigits s' (10 * acc + digitValue c) true
      else if seen then Some acc else None
  | EmptyString => if seen then Some acc else None
  end.

(** [Number.parseInt(s, 10)], [None] standing for [NaN]. *)
Definition parseInt (s : string) : option Z :=
  match trimStart s with
  | String "-"%char s' => option_map Z.opp (parseDigits s' 0 false)
  | String "+"%char s' => parseDigits s' 0 false
  | s' => parseDigits s' 0 false
  end.

(** Decimal rendering of an integer, for messages. *)
Fixpoint digitsOf (fuel : nat) (n : Z) (acc : string) : string :=
  match fuel with
  | O => acc
  | S fuel' =>
      let acc' := String (ascii_of_nat (Z.to_nat (48 + n mod 10))) acc in
      if n <? 10 then acc' else digitsOf fuel' (n / 10) acc'
  end.

Definition ofZ (n : Z) : string :=
  if n <? 0
  then String "-"%char (digitsOf (S (Z.to_nat (Z.log2 (- n)))) (- n) EmptyString)
  else digitsOf (S (Z.to_nat (Z.log2 n))) n EmptyString.

Definition ofNat (n : nat) : string := ofZ (Z.of_nat n).

End JsString.

(* ================================================================== *)
(** * cronParser.ts *)
(* ================================================================== *)

Module CronParser.

Import JsDate JsString.

Record CronFields : Type := {
  minute : list Z;
  hour : list Z;
  dayOfMonth : list Z;
  month : list Z;
  dayOfWeek : list Z;
  isLastDayOfMonth : bool
}.

Definition NameMap : Type := list (string * Z).

Definition MONTH_NAMES : NameMap :=
  [("JAN", 1); ("FEB", 2); ("MAR", 3); ("APR", 4); ("MAY", 5); ("JUN", 6);
   ("JUL", 7); ("AUG", 8); ("SEP", 9); ("OCT", 10); ("NOV", 11);
   ("DEC", 12)]%string.

Definition WEEKDAY_NAMES : NameMap :=
  [("SUN", 0); ("MON", 1); ("TUE", 2); ("WED", 3); ("THU", 4); ("FRI", 5);
   ("SAT", 6)]%string.

(** [value in nameMap], then [nameMap[value]] *)
Fixpoint lookupName (nameMap : NameMap) (value : string) : option Z :=
  match nameMap with
  | [] => None
  | (k, v) :: rest => if String.eqb k value then Some v else lookupName rest value
  end.

Definition quoted (s : string) : string :=
  String (ascii_of_nat 34) (s ++ String (ascii_of_nat 34) EmptyString).

Definition expectedNumber (nameMap : option NameMap) : string :=
  ("Expected number" ++
   match nameMap with Some _ => " or named value" | None => "" end)%string.

(** Generate array of numbers from start to end (inclusive) *)
Definition range (start stop : Z) : list Z :=
  map (fun i => start + Z.of_nat i) (seq 0 (Z.to_nat (stop - start + 1))).

(** [Array.prototype.includes] on an array of integers *)
Definition includes (l : list Z) (x : Z) : bool := existsb (Z.eqb x) l.

(** [new Set(values)], in insertion order *)
Definition setAdd (values : list Z) (val : Z) : list Z :=
  if includes values val then values else values ++ [val].

Definition setFrom (l : list Z) : list Z := fold_left setAdd l [].

(** [values.sort((a, b) => a - b)] *)
Fixpoint insertAscending (x : Z) (l : list Z) : list Z :=
  match l with
  | [] => [x]
  | y :: l' => if x <=? y then x :: l else y :: insertAscending x l'
  end.

Definition sortAscending (l : list Z) : list Z :=
  fold_right insertAscending [] l.

(** [baseRange.filter((_, index) => index % step === 0)] *)
Fixpoint filterByStep (step index : Z) (l : list Z) : list Z :=
  match l with
  | [] => []
  | x :: l' =>
      if index mod step =? 0 then x :: filterByStep step (index + 1) l'
      else filterByStep step (index + 1) l'
  end.

Definition invalidValue (fieldName value : string) (nameMap : option NameMap)
    : Thrown :=
  newError ("Invalid value in " ++ fieldName ++ " field: " ++ quoted value
            ++ ". " ++ expectedNumber nameMap)%string.

Definition valueOutOfRange (fieldName : string) (num min max : Z) : Thrown :=
  newError ("Value out of range in " ++ fieldName ++ " field: " ++ ofZ num
            ++ ". Must be between " ++ ofZ min ++ " and " ++ ofZ max)%string.

(** Parse a single value (number or named value) *)
Definition parseValue (value : string) (min max : Z) (fieldName : string)
    (nameMap : option NameMap) : result Z :=
  match match nameMap with
        | Some m => lookupName m value
        | None => None
        end with
  | Some named => Ok named
  | None =>
      if startsWithChar "-" value then
        Throw (invalidValue fieldName value nameMap)
      else
        match parseInt value with
        | None => Throw (invalidValue fieldName value nameMap)
        | Some num =>
            if (num <? min) || (max <? num) then
              Throw (valueOutOfRange fieldName num min max)
            else Ok num
        end
  end.

Definition invalidRange (fieldName rangePart : string) : Thrown :=
  newError ("Invalid range in " ++ fieldName ++ " field: " ++ quoted rangePart
            ++ ". Expected format: start-end")%string.

(** Parse a range (e.g., "1-5" or "MON-FRI") *)
Definition parseRange (rangePart : string) (min max : Z) (fieldName : string)
    (nameMap : option NameMap) : result (list Z) :=
  match indexOf "-" rangePart with
  | None => Throw (invalidRange fieldName rangePart)
  | Some dashIndex =>
      if (dashIndex =? 0)%nat || (S dashIndex =? String.length rangePart)%nat
      then Throw (invalidRange fieldName rangePart)
      else
        let startStr := substring 0 dashIndex rangePart in
        let endStr :=
          substring (S dashIndex) (String.length rangePart - S dashIndex)
                    rangePart in
        if String.eqb startStr "" || String.eqb endStr ""
        then Throw (invalidRange fieldName rangePart)
        else
          let* start := parseValue (trim startStr) min max fieldName nameMap in
          let* stop := parseValue (trim endStr) min max fieldName nameMap in
          if stop <? start then
            Throw (newError ("Invalid range in " ++ fieldName ++ " field: "
                             ++ quoted rangePart ++ ". Start (" ++ ofZ start
                             ++ ") must be <= end (" ++ ofZ stop ++ ")")%string)
          else Ok (range start stop)
  end.

(** Parse a single part of a field (no commas) *)
Definition parseFieldPart (part : string) (min max : Z) (fieldName : string)
    (nameMap : option NameMap) : result (list Z) :=
  if includesChar "/" part then
    let pieces := split "/" part in
    let rangePart := nth 0 pieces EmptyString in
    let stepPart := nth 1 pieces EmptyString in
    match parseInt stepPart with
    | Some step =>
        if step <? 1 then
          Throw (newError ("Invalid step value in " ++ fieldName ++ " field: "
                           ++ quoted part
                           ++ ". Step must be a positive integer")%string)
        else
          let* baseRange :=
            if String.eqb rangePart "*" then Ok (range min max)
            else if includesChar "-" rangePart then
              parseRange rangePart min max fieldName nameMap
            else
              let* start := parseValue rangePart min max fieldName nameMap in
              Ok (range start max) in
          Ok (filterByStep step 0 baseRange)
    | None =>
        Throw (newError ("Invalid step value in " ++ fieldName ++ " field: "
                         ++ quoted part
                         ++ ". Step must be a positive integer")%string)
    end
  else if includesChar "-" part then
    parseRange part min max fieldName nameMap
  else
    let* value := parseValue part min max fieldName nameMap in
    Ok [value].

(** The loop over the parts of a comma-separated list, adding to [values]. *)
Fixpoint parseList (parts : list string) (values : list Z) (min max : Z)
    (fieldName : string) (nameMap : option NameMap) : result (list Z) :=
  match parts with
  | [] => Ok values
  | part :: rest =>
      let* parsed := parseFieldPart (trim part) min max fieldName nameMap in
      parseList rest (fold_left setAdd parsed values) min max fieldName nameMap
  end.

(** Parse a single cron field *)
Definition parseField (field : string) (min max : Z) (fieldName : string)
    (nameMap : option NameMap) : result (list Z) :=
  let upper := toUpperCase field in
  if String.eqb upper "*" then Ok (range min max)
  else if includesChar "," upper then
    let* values := parseList (split "," upper) [] min max fieldName nameMap in
    Ok (sortAscending values)
  else parseFieldPart upper min max fieldName nameMap.

(** Normalize weekday values (7 to 0 for Sunday) and deduplicate *)
Definition normalizeWeekdays (weekdays : list Z) : list Z :=
  sortAscending (setFrom (map (fun d => if d =? 7 then 0 else d) weekdays)).

(** Parse a cron expression into structured fields *)
Definition parseCronExpression (expression : string) : result CronFields :=
  let trimmed := trim expression in
  let parts := splitWhiteSpace false trimmed in
  match parts with
  | [minutePart; hourPart; dayPart; monthPart; weekdayPart] =>
      let isLast := String.eqb (toUpperCase dayPart) "L" in
      let* minute_ := parseField minutePart 0 59 "minute" None in
      let* hour_ := parseField hourPart 0 23 "hour" None in
      let* dayOfMonth_ :=
        if isLast then Ok [] else parseField dayPart 1 31 "day" None in
      let* month_ := parseField monthPart 1 12 "month" (Some MONTH_NAMES) in
      let* weekdays :=
        parseField weekdayPart 0 7 "weekday" (Some WEEKDAY_NAMES) in
      Ok {| minute := minute_; hour := hour_; dayOfMonth := dayOfMonth_;
            month := month_; dayOfWeek := normalizeWeekdays weekdays;
            isLastDayOfMonth := isLast |}
  | _ =>
      Throw (newError ("Invalid cron expression: " ++ quoted expression
                       ++ ". Expected 5 fields (minute hour day month weekday), got "
                       ++ ofNat (List.length parts))%string)
  end.

(** Check if date is the last day of its month (the source's function
    [isLastDayOfMonth]; the record field has the name here).  [setDate] and
    [getDate] are the local-zone operations in both modes. *)
Definition dateIsLastDayOfMonth (zone : JsDate.Zone) (date : Z) (useUTC : bool)
    : bool :=
  let nextDay := setDate zone date (getDate zone date + 1) in
  if useUTC then negb (getUTCMonth nextDay =? getUTCMonth date)
  else negb (getMonth zone nextDay =? getMonth zone date).

Definition dayIsSpecified (fields : CronFields) : bool :=
  isLastDayOfMonth fields ||
  ((0 <? List.length (dayOfMonth fields))%nat && (List.length (dayOfMonth fields) <? 31)%nat).

Definition weekdayIsSpecified (fields : CronFields) : bool :=
  (0 <? List.length (dayOfWeek fields))%nat && (List.length (dayOfWeek fields) <? 7)%nat.

Definition dayMatches (zone : JsDate.Zone) (date : Z) (fields : CronFields)
    (useUTC : bool)
    : bool :=
  let day := if useUTC then getUTCDate date else getDate zone date in
  if isLastDayOfMonth fields then dateIsLastDayOfMonth zone date useUTC
  else (List.length (dayOfMonth fields) =? 0)%nat || includes (dayOfMonth fields) day.

Definition weekdayMatches (zone : JsDate.Zone) (date : Z) (fields : CronFields)
    (useUTC : bool)
    : bool :=
  let weekday := if useUTC then getUTCDay date else getDay zone date in
  (List.length (dayOfWeek fields) =? 0)%nat || includes (dayOfWeek fields) weekday.

(** Check if a date matches cron fields *)
Definition matchesCronFields (zone : JsDate.Zone) (date : Z)
    (fields : CronFields)
    (useUTC : bool) : bool :=
  let minute_ := if useUTC then getUTCMinutes date else getMinutes zone date in
  let hour_ := if useUTC then getUTCHours date else getHours zone date in
  let month_ :=
    if useUTC then getUTCMonth date + 1 else getMonth zone date + 1 in
  if negb (includes (minute fields) minute_) then false
  else if negb (includes (hour fields) hour_) then false
  else if negb (includes (month fields) month_) then false
  else if dayIsSpecified fields && weekdayIsSpecified fields then
    dayMatches zone date fields useUTC || weekdayMatches zone date fields useUTC
  else
    dayMatches zone date fields useUTC && weekdayMatches zone date fields useUTC.

(** 4 years in minutes *)
Definition MAX_ITERATIONS : nat := Z.to_nat (4 * 365 * 24 * 60).

Definition impossibleSchedule : Thrown :=
  newError "Could not find next cron occurrence within 4 years. This likely indicates an impossible schedule.".

(** The [while (iterations < MAX_ITERATIONS)] loop; [remaining] is
    [MAX_ITERATIONS - iterations]. *)
Fixpoint cronLoop (remaining : nat) (zone : JsDate.Zone) (next : Z)
    (cronFields : CronFields)
    (useUTC : bool) : result Z :=
  match remaining with
  | O => Throw impossibleSchedule
  | S remaining' =>
      if matchesCronFields zone next cronFields useUTC then Ok next
      else cronLoop remaining'
             zone (setMinutes zone next (getMinutes zone next + 1))
             cronFields useUTC
  end.

(** [from] rounded up to the next whole minute, and the minutes after
    it. *)
Definition firstCandidate (from : Z) : Z :=
  from - from mod msPerMinute + msPerMinute.


(** Get the next occurrence of a cron schedule *)
Definition getNextCronOccurrence (zone : JsDate.Zone) (cronFields : CronFields)
    (from : Z) (useUTC : bool) : result Z :=
  let next := setSeconds2 zone from 0 0 in
  let next := setMinutes zone next (getMinutes zone next + 1) in
  cronLoop MAX_ITERATIONS zone next cronFields useUTC.



(** Get days in a month (handles leap years); [month] is numbered from 1. *)
Definition getDaysInMonth (zone : JsDate.Zone) (year month : Z) : Z :=
  getDate zone (dateLocal zone year month 0).

(** The names of a field stand for values of the field. *)
Definition namesWithin (min max : Z) (nameMap : option NameMap) : Prop :=
  match nameMap with
  | Some m => Forall (fun kv => min <= snd kv <= max) m
  | None => True
  end.

(** A parsed field is well formed: not empty, within the bounds of the
    field, and strictly ascending (so without duplicates). *)
Definition wellFormed (min max : Z) (values : list Z) : Prop :=
  values <> []
  /\ Forall (fun x => min <= x <= max) values
  /\ StronglySorted Z.lt values.

End CronParser.

(* ================================================================== *)
(** * intervalScheduler.ts *)
(* ================================================================== *)

Module IntervalScheduler.

Import JsDate JsString.

Inductive TimeUnit : Type := seconds | minutes | hours | days.

Record IntervalSchedule : Type := {
  every : Z;
  unit : TimeUnit;
  aligned : option bool
}.

(** [SimpleSchedule = IntervalSchedule | DailySchedule], told apart by
    ["at" in schedule]. *)
Inductive SimpleSchedule : Type :=
| Interval (schedule : IntervalSchedule)
| Daily (at_ : string).

(** [Math.ceil(a / b)] on integers, for [b] other than 0.  For [b = 0]
    JavaScript gives an infinity or [NaN] and the [Date] that is then set
    becomes invalid; what is proved of aligned intervals below assumes
    [every] is not 0 (see [Scheduler.yieldsInvalidDate]). *)
Definition ceilDiv (a b : Z) : Z := - ((- a) / b).

(** The minute and the hour of [from] in the chosen zone, and the start of
    its hour and of its day there, counted back through the offset at
    [from] (on a [fixed] host, the start itself). *)
Definition currentMinute (zone : JsDate.Zone) (from : Z) (useUTC : bool) : Z :=
  if useUTC then getUTCMinutes from else getMinutes zone from.

Definition currentHour (zone : JsDate.Zone) (from : Z) (useUTC : bool) : Z :=
  if useUTC then getUTCHours from else getHours zone from.

Definition hourStart (zone : JsDate.Zone) (from : Z) (useUTC : bool) : Z :=
  if useUTC then from - from mod msPerHour
  else from - (LocalTime zone from) mod msPerHour.

Definition dayStart (zone : JsDate.Zone) (from : Z) (useUTC : bool) : Z :=
  if useUTC then from - from mod msPerDay
  else from - (LocalTime zone from) mod msPerDay.

(** Convert interval to milliseconds *)
Definition getIntervalMs (every : Z) (unit : TimeUnit) : Z :=
  match unit with
  | seconds => every * 1000
  | minutes => every * 60 * 1000
  | hours => every * 60 * 60 * 1000
  | days => every * 24 * 60 * 60 * 1000
  end.

(** Drift mode: simply add N units to current time *)
Definition getDriftInterval (every : Z) (unit : TimeUnit) (from : Z) : Z :=
  let ms := getTime from in
  let interval := getIntervalMs every unit in
  ms + interval.

(** Aligned mode: round to next fixed interval boundary *)
Definition getAlignedInterval (zone : JsDate.Zone) (every : Z) (unit : TimeUnit)
    (from : Z)
    (useUTC : bool) : Z :=
  let next := from in
  let next := setSeconds2 zone next 0 0 in
  match unit with
  | seconds =>
      let currentSec :=
        if useUTC then getUTCSeconds next else getSeconds zone next in
      let alignedSec := ceilDiv (currentSec + 1) every * every in
      if useUTC then setUTCSeconds next alignedSec
      else setSeconds zone next alignedSec
  | minutes =>
      let currentMin :=
        if useUTC then getUTCMinutes next else getMinutes zone next in
      let alignedMin := ceilDiv (currentMin + 1) every * every in
      if 60 <=? alignedMin then
        if useUTC then
          let next := setUTCHours next (getUTCHours next + 1) in
          setUTCMinutes next (alignedMin mod 60)
        else
          let next := setHours zone next (getHours zone next + 1) in
          setMinutes zone next (alignedMin mod 60)
      else
        if useUTC then setUTCMinutes next alignedMin
        else setMinutes zone next alignedMin
  | hours =>
      if useUTC then
        let next := setUTCMinutes next 0 in
        let currentHour := getUTCHours next in
        let alignedHour := ceilDiv (currentHour + 1) every * every in
        if 24 <=? alignedHour then
          let next := setUTCDate next (getUTCDate next + 1) in
          setUTCHours next (alignedHour mod 24)
        else setUTCHours next alignedHour
      else
        let next := setMinutes zone next 0 in
        let currentHour := getHours zone next in
        let alignedHour := ceilDiv (currentHour + 1) every * every in
        if 24 <=? alignedHour then
          let next := setDate zone next (getDate zone next + 1) in
          setHours zone next (alignedHour mod 24)
        else setHours zone next alignedHour
  | days =>
      if useUTC then
        let next := setUTCHours4 next 0 0 0 0 in
        setUTCDate next (getUTCDate next + every)
      else
        let next := setHours4 zone next 0 0 0 0 in
        setDate zone next (getDate zone next + every)
  end.

(** Calculate next occurrence for interval schedules *)
Definition getNextIntervalOccurrence (zone : JsDate.Zone)
    (schedule : IntervalSchedule)
    (from : Z) (useUTC : bool) : Z :=
  let aligned_ := match aligned schedule with Some b => b | None => false end in
  if aligned_ then
    getAlignedInterval zone (every schedule) (unit schedule) from useUTC
  else getDriftInterval (every schedule) (unit schedule) from.

(** [at.match(/^(\d{1,2}):(\d{2})$/)]: the two captured groups. *)
Definition matchAt (at_ : string) : option (string * string) :=
  let colon := ":"%char in
  match at_ with
  | String h1 (String c (String m1 (String m2 EmptyString))) =>
      if isDigit h1 && Ascii.eqb c colon && isDigit m1 && isDigit m2
      then Some (String h1 EmptyString, String m1 (String m2 EmptyString))
      else None
  | String h1 (String h2 (String c (String m1 (String m2 EmptyString)))) =>
      if isDigit h1 && isDigit h2 && Ascii.eqb c colon
         && isDigit m1 && isDigit m2
      then Some (String h1 (String h2 EmptyString),
                 String m1 (String m2 EmptyString))
      else None
  | _ => None
  end.

(** Calculate next daily occurrence at specific time (HH:MM) *)
Definition getNextDailyTime (zone : JsDate.Zone) (at_ : string) (from : Z)
    (useUTC : bool) : result Z :=
  match matchAt at_ with
  | None =>
      Throw (newError ("Invalid 'at' format: " ++ at_ ++ ". Expected HH:MM"))
  | Some (hourStr, minuteStr) =>
      match parseInt hourStr, parseInt minuteStr with
      | Some hour, Some minute =>
          if (hour <? 0) || (23 <? hour) then
            Throw (newError ("Invalid hour: " ++ ofZ hour ++ ". Must be 0-23"))
          else if (minute <? 0) || (59 <? minute) then
            Throw (newError ("Invalid minute: " ++ ofZ minute
                             ++ ". Must be 0-59"))
          else if useUTC then
            let next := setUTCHours4 from hour minute 0 0 in
            if next <=? from then Ok (setUTCDate next (getUTCDate next + 1))
            else Ok next
          else
            let next := setHours4 zone from hour minute 0 0 in
            if next <=? from then Ok (setDate zone next (getDate zone next + 1))
            else Ok next
      | _, _ =>
          (* not reached: the captured groups are digits *)
          Throw (newError ("Invalid hour: NaN. Must be 0-23"))
      end
  end.

(** Get the next scheduled time for a simple interval *)
Definition getNextIntervalTime (zone : JsDate.Zone) (schedule : SimpleSchedule)
    (from : Z) (useUTC : bool) : result Z :=
  match schedule with
  | Daily at_ => getNextDailyTime zone at_ from useUTC
  | Interval schedule => Ok (getNextIntervalOccurrence zone schedule from useUTC)
  end.

End IntervalScheduler.

(* ================================================================== *)
(** * Timers of the host *)
(* ================================================================== *)

(** [Meteor.setTimeout] and [Meteor.clearTimeout]: the armed timers of one
    scheduling loop, each with the closure it will run ([C] names the
    closures of the loop). *)
Module Timers.

Section WithClosures.

Context {C : Type}.

Record Pending : Type := {
  timerId : nat;
  armedAt : Z;
  delay : Z;
  callback : C
}.

Record Queue : Type := {
  pending : list Pending;
  nextTimerId : nat
}.

Definition empty : Queue := {| pending := []; nextTimerId := O |}.

(** [setTimeout(callback, delay)] at instant [now]: the new queue and the
    timer id. *)
Definition setTimeout (q : Queue) (now delay : Z) (cb : C) : Queue * nat :=
  let id := nextTimerId q in
  ({| pending := pending q ++
                 [{| timerId := id; armedAt := now; delay := delay;
                     callback := cb |}];
      nextTimerId := S id |}, id).

(** [clearTimeout(id)] *)
Definition clearTimeout (q : Queue) (id : nat) : Queue :=
  {| pending := filter (fun p => negb (timerId p =? id)%nat) (pending q);
     nextTimerId := nextTimerId q |}.

Definition due (p : Pending) : Z := armedAt p + delay p.

(** The armed timer that is due first (the one armed first among equals). *)
Fixpoint earliest (l : list Pending) : option Pending :=
  match l with
  | [] => None
  | p :: l' =>
      match earliest l' with
      | Some p' => if due p' <? due p then Some p' else Some p
      | None => Some p
      end
  end.

End WithClosures.

Arguments Pending : clear implicits.
Arguments Queue : clear implicits.

End Timers.

(* ================================================================== *)
(** * scheduler.ts *)
(* ================================================================== *)

Module Scheduler.

Import JsDate.

Record ScheduleOptions : Type := { utc : option bool }.

(** [Schedule] of types.ts.  [Malformed] is an object with none of the keys
    [every], [cron] and [at], which the type excludes and untyped callers
    can pass. *)
Inductive Schedule : Type :=
| Every (every : Z) (unit : IntervalScheduler.TimeUnit) (aligned : option bool)
| Cron (cron : string)
| At (at_ : string)
| Malformed.

(** Calculate next run time for any schedule type; [now] is the reading of
    [new Date()]. *)
Definition getNextScheduledTime (zone : JsDate.Zone) (now : Z)
    (schedule : Schedule)
    (options : ScheduleOptions) : result Z :=
  let utc_ := match utc options with Some b => b | None => false end in
  match schedule with
  | Every every unit aligned =>
      IntervalScheduler.getNextIntervalTime zone
        (IntervalScheduler.Interval
           {| IntervalScheduler.every := every;
              IntervalScheduler.unit := unit;
              IntervalScheduler.aligned := aligned |})
        now utc_
  | Cron cron =>
      let* fields := CronParser.parseCronExpression cron in
      CronParser.getNextCronOccurrence zone fields now utc_
  | At at_ =>
      IntervalScheduler.getNextIntervalTime zone (IntervalScheduler.Daily at_)
        now utc_
  | Malformed => Throw (newError "Invalid schedule format")
  end.

(** The next run of an aligned interval of seconds, minutes or hours is
    computed as [Math.ceil((current + 1) / every) * every]: for [every = 0]
    that is [NaN], the [Date] becomes invalid and [getNextScheduledTime]
    returns it.  Such a schedule is outside this development, which has no
    invalid [Date]. *)
Definition yieldsInvalidDate (schedule : Schedule) : bool :=
  match schedule with
  | Every every unit (Some true) =>
      (every =? 0)
      && match unit with IntervalScheduler.days => false | _ => true end
  | _ => false
  end.

(** The closures [scheduleJob] hands to [Meteor.setTimeout]. *)
Inductive Closure : Type :=
| Retry
    (* () => { if (!done) scheduleNext(); } *)
| Run (nextRun : Z) (needsReschedule : bool).
    (* the closure armed with [actualDelay] *)

Inductive Event : Type :=
| Executed (intendedAt : Z)
| ConsoleError (text : string) (e : Thrown).

(** The variables [scheduleJob] closes over, the timers it has armed and
    what it has done so far. *)
Record State : Type := {
  done : bool;
  currentTimer : option nat;
  timers : Timers.Queue Closure;
  events : list Event
}.

Definition maxDelay : Z := 2147483647.

Section ScheduleJob.

Variable zone : JsDate.Zone.
Variable schedule : Schedule.
(** The job callback: [Some e] when the call throws [e]. *)
Variable fn : Z -> option Thrown.
Variable options : ScheduleOptions.

(** [scheduleNext()] run at instant [now]; the two readings of the clock,
    [new Date()] in [getNextScheduledTime] and [Date.now()] after it, are
    the same instant. *)
Definition scheduleNext (now : Z) (st : State) : State :=
  if done st then st
  else
    match getNextScheduledTime zone now schedule options with
    | Ok nextRun =>
        let delay := getTime nextRun - now in
        if delay <=? 0 then
          let '(q, _) := Timers.setTimeout (timers st) now 100 Retry in
          {| done := done st; currentTimer := currentTimer st; timers := q;
             events := events st |}
        else
          let actualDelay := Z.min delay maxDelay in
          let needsReschedule := actualDelay <? delay in
          let '(q, id) :=
            Timers.setTimeout (timers st) now actualDelay
                              (Run nextRun needsReschedule) in
          {| done := done st; currentTimer := Some id; timers := q;
             events := events st |}
    | Throw e =>
        let '(q, _) := Timers.setTimeout (timers st) now 5000 Retry in
        {| done := done st; currentTimer := currentTimer st; timers := q;
           events := events st ++ [ConsoleError "Error scheduling job:" e] |}
    end.

(** A timer fires at [now] and its closure runs. *)
Definition runClosure (now : Z) (c : Closure) (st : State) : State :=
  match c with
  | Retry => if negb (done st) then scheduleNext now st else st
  | Run nextRun needsReschedule =>
      if done st then st
      else if needsReschedule then scheduleNext now st
      else
        let intendedAt := setMilliseconds zone nextRun 0 in
        let st :=
          match fn intendedAt with
          | None =>
              {| done := done st; currentTimer := currentTimer st;
                 timers := timers st;
                 events := events st ++ [Executed intendedAt] |}
          | Some e =>
              {| done := done st; currentTimer := currentTimer st;
                 timers := timers st;
                 events := events st ++ [Executed intendedAt;
                                         ConsoleError "Job execution error:" e] |}
          end in
        scheduleNext now st
  end.

(** [scheduleJob(schedule, fn, options)] called at [now]: the state behind
    the returned handle. *)
Definition scheduleJob (now : Z) : State :=
  scheduleNext now
    {| done := false; currentTimer := None; timers := Timers.empty;
       events := [] |}.

(** [clear()] on the returned handle *)
Definition clear (st : State) : State :=
  {| done := true;
     currentTimer := currentTimer st;
     timers := match currentTimer st with
               | Some id => Timers.clearTimeout (timers st) id
               | None => timers st
               end;
     events := events st |}.

(** The host fires the timer that is due first, [late] milliseconds after it
    was due; nothing happens when no timer is armed. *)
Definition tick (late : Z) (st : State) : State :=
  match Timers.earliest (Timers.pending (timers st)) with
  | None => st
  | Some p =>
      runClosure (Timers.due p + late) (Timers.callback p)
        {| done := done st; currentTimer := currentTimer st;
           timers := Timers.clearTimeout (timers st) (Timers.timerId p);
           events := events st |}
  end.

Definition ticks (lates : list Z) (st : State) : State :=
  fold_left (fun st late => tick late st) lates st.

(** An armed timer is as the loop arms it: a retry after 5000 ms when the
    computation of the next run threw at the instant of arming, a retry
    after 100 ms when the computed time was not after that instant, and
    otherwise the run (or the recomputation) after the delay, capped. *)
Definition armedAsScheduled (p : Timers.Pending Closure) : Prop :=
  match getNextScheduledTime zone (Timers.armedAt p) schedule options with
  | Throw _ => Timers.delay p = 5000 /\ Timers.callback p = Retry
  | Ok nextRun =>
      if nextRun <=? Timers.armedAt p
      then Timers.delay p = 100 /\ Timers.callback p = Retry
      else Timers.delay p = Z.min (nextRun - Timers.armedAt p) maxDelay
           /\ Timers.callback p
              = Run nextRun (maxDelay <? nextRun - Timers.armedAt p)
  end.

(** The loop is alive: not done, with exactly one timer armed, armed as
    [scheduleNext] arms it. *)
Definition alive (st : State) : Prop :=
  done st = false
  /\ exists p, Timers.pending (timers st) = [p] /\ armedAsScheduled p.

End ScheduleJob.

(** The instants the job callback was called with, in order. *)
Definition executedAt (evs : list Event) : list Z :=
  flat_map (fun e => match e with Executed t => [t] | ConsoleError _ _ => [] end)
           evs.

End Scheduler.

(* ================================================================== *)
(** * timerManager.ts *)
(* ================================================================== *)

Module TimerManager.

Import JsDate.

(** What a call of [getNextTime] can produce. *)
Inductive NextTime : Type :=
| ReturnsDate (t : Z)
| ReturnsInvalidDate           (* a [Date] whose time value is [NaN] *)
| ReturnsNonDate               (* a value that is not a [Date] *)
| Throws (e : Thrown).

(** [TimerOptions].  A callback returns ([None]) or throws ([Some e]).
    [onSchedule] is called inside the [try] block of the loop; [onError]
    and [onCircuitBreak] are called outside of it, so what they throw
    leaves [scheduleNext]. *)
Record TimerOptions : Type := {
  maxConsecutiveFailures : option Z;
  onCircuitBreak : option (Thrown -> option Thrown);
  onSchedule : option (Z -> option Thrown);
  onError : option (Thrown -> option Thrown)
}.

Definition MAX_SETTIMEOUT_DELAY : Z := 2147483647.
Definition MIN_RECOMMENDED_DELAY : Z := 1000.

Inductive Closure : Type :=
| Retry
    (* () => { if (!done) scheduleNext(); } *)
| Run (nextRun : Z) (needsReschedule : bool).
    (* the closure armed with [actualDelay] *)

(** [Uncaught e]: the exception [e] left a timer callback, and the host
    reported it. *)
Inductive Event : Type :=
| CalledGetNextTime (now : Z)
| CalledOnSchedule (nextRun : Z)
| CalledExecute (intendedAt : Z)
| CalledOnError (e : Thrown)
| CalledOnCircuitBreak (e : Thrown)
| Armed (delay : Z)
| Uncaught (e : Thrown).

Record State : Type := {
  done : bool;
  currentTimer : option nat;
  consecutiveFailures : Z;
  timers : Timers.Queue Closure;
  events : list Event
}.

Definition record (st : State) (evs : list Event) : State :=
  {| done := done st; currentTimer := currentTimer st;
     consecutiveFailures := consecutiveFailures st; timers := timers st;
     events := events st ++ evs |}.

(** The number of calls of [getNextTime] so far. *)
Definition attempts (evs : list Event) : nat :=
  List.length
    (filter (fun e => match e with CalledGetNextTime _ => true | _ => false end)
            evs).

Definition backoffDelay (consecutiveFailures : Z) : Z :=
  Z.min (10 * 2 ^ (consecutiveFailures - 1)) 60000.

(** What is read off the events: the calls of [onError], of
    [onCircuitBreak] and of [execute], the delays of the timers armed, in
    order, and the exceptions that left a timer callback. *)
Definition errorsReported (evs : list Event) : nat :=
  List.length
    (filter (fun e => match e with CalledOnError _ => true | _ => false end)
            evs).

Definition circuitBreaks (evs : list Event) : nat :=
  List.length
    (filter (fun e => match e with CalledOnCircuitBreak _ => true | _ => false end)
            evs).

Definition executions (evs : list Event) : nat :=
  List.length
    (filter (fun e => match e with CalledExecute _ => true | _ => false end)
            evs).


Definition uncaught (evs : list Event) : list Thrown :=
  flat_map (fun e => match e with Uncaught e' => [e'] | _ => [] end) evs.

(** A call of [getNextTime] at [now] fails validation: it throws, or it
    returns something that is not a valid [Date], or a time that is not
    strictly after [now]. *)
Definition failsValidation (r : NextTime) (now : Z) : bool :=
  match r with
  | ReturnsDate t => t <=? now
  | ReturnsInvalidDate | ReturnsNonDate | Throws _ => true
  end.

(** [onError] and [onCircuitBreak], when given, return whatever they are
    called with. *)
Definition observersReturn (options : TimerOptions) : Prop :=
  (forall callback e, onError options = Some callback -> callback e = None)
  /\ (forall callback e,
        onCircuitBreak options = Some callback -> callback e = None).

Section ScheduleRecurring.

Variable zone : JsDate.Zone.
(** [getNextTime], which may depend on the calls made before: the first
    argument is their number. *)
Variable getNextTime : nat -> Z -> NextTime.
(** [execute]: [Some e] when the call throws [e]. *)
Variable execute : Z -> option Thrown.
Variable options : TimerOptions.

Definition maxFailures : Z :=
  match maxConsecutiveFailures options with Some n => n | None => 3 end.

(** The [try] block of [scheduleNext] up to the arming of the timer: the
    validated next run, or what was thrown, with the callbacks called. *)
Definition computeNextRun (now : Z) (st : State) : State * result Z :=
  let st := record st [CalledGetNextTime now] in
  match getNextTime (attempts (events st) - 1)%nat now with
  | Throws e => (st, Throw e)
  | ReturnsNonDate | ReturnsInvalidDate =>
      (st, Throw (newError "getNextTime returned invalid date"))
  | ReturnsDate nextRun =>
      if nextRun <=? now then
        (* the message renders the two instants *)
        (st, Throw (newError ("getNextTime returned past/present time: "
                              ++ JsString.ofZ nextRun ++ " (now: "
                              ++ JsString.ofZ now ++ ")")))
      else
        let st :=
          {| done := done st; currentTimer := currentTimer st;
             consecutiveFailures := 0; timers := timers st;
             events := events st |} in
        match onSchedule options with
        | None => (st, Ok nextRun)
        | Some callback =>
            let st := record st [CalledOnSchedule nextRun] in
            match callback nextRun with
            | None => (st, Ok nextRun)
            | Some e => (st, Throw e)
            end
        end
  end.

(** [if (onError) { onError(err); }]: the state with the call recorded, and
    what the callback threw. *)
Definition reportError (err : Thrown) (st : State) : State * option Thrown :=
  match onError options with
  | Some callback => (record st [CalledOnError err], callback err)
  | None => (st, None)
  end.

(** [scheduleNext()] run at instant [now]: the state afterwards, and the
    exception that left the call, if any. *)
Definition scheduleNext (now : Z) (st : State) : State * option Thrown :=
  if done st then (st, None)
  else
    match computeNextRun now st with
    | (st, Ok nextRun) =>
        let delay := getTime nextRun - getTime now in
        let actualDelay := Z.min delay MAX_SETTIMEOUT_DELAY in
        let needsReschedule := actualDelay <? delay in
        let '(q, id) :=
          Timers.setTimeout (timers st) now actualDelay
                            (Run nextRun needsReschedule) in
        ({| done := done st; currentTimer := Some id;
            consecutiveFailures := consecutiveFailures st; timers := q;
            events := events st ++ [Armed actualDelay] |}, None)
    | (st, Throw error) =>
        let failures := consecutiveFailures st + 1 in
        let err := toError error in
        let st :=
          {| done := done st; currentTimer := currentTimer st;
             consecutiveFailures := failures; timers := timers st;
             events := events st |} in
        match reportError err st with
        | (st, Some thrown) => (st, Some thrown)
        | (st, None) =>
            if maxFailures <=? failures then
              let circuitError :=
                newError ("Timer circuit breaker tripped after "
                          ++ JsString.ofZ maxFailures
                          ++ " consecutive failures. Last error: "
                          ++ message err) in
              let st :=
                {| done := true; currentTimer := currentTimer st;
                   consecutiveFailures := failures; timers := timers st;
                   events := events st |} in
              match onCircuitBreak options with
              | Some callback =>
                  (record st [CalledOnCircuitBreak circuitError],
                   callback circuitError)
              | None => (st, None)
              end
            else
              let '(q, id) :=
                Timers.setTimeout (timers st) now (backoffDelay failures)
                                  Retry in
              ({| done := done st; currentTimer := Some id;
                  consecutiveFailures := failures; timers := q;
                  events := events st ++ [Armed (backoffDelay failures)] |},
               None)
        end
    end.

(** A timer fires at [now] and its closure runs: the state afterwards, and
    the exception that left the closure, if any. *)
Definition runClosure (now : Z) (c : Closure) (st : State)
    : State * option Thrown :=
  match c with
  | Retry => if negb (done st) then scheduleNext now st else (st, None)
  | Run nextRun needsReschedule =>
      if done st then (st, None)
      else if needsReschedule then scheduleNext now st
      else
        let intendedAt := setMilliseconds zone nextRun 0 in
        let st := record st [CalledExecute intendedAt] in
        match execute intendedAt with
        | None => scheduleNext now st
        | Some executeError =>
            match reportError (toError executeError) st with
            | (st, Some thrown) => (st, Some thrown)
            | (st, None) => scheduleNext now st
            end
        end
  end.

(** [scheduleRecurring(getNextTime, execute, options)] called at [now]: the
    state of the loop after the call and, when the call throws instead of
    returning a handle, what it throws. *)
Definition scheduleRecurring (now : Z) : State * option Thrown :=
  scheduleNext now
    {| done := false; currentTimer := None; consecutiveFailures := 0;
       timers := Timers.empty; events := [] |}.

(** [clear()] on the returned handle *)
Definition clear (st : State) : State :=
  {| done := true;
     currentTimer := None;
     consecutiveFailures := consecutiveFailures st;
     timers := match currentTimer st with
               | Some id => Timers.clearTimeout (timers st) id
               | None => timers st
               end;
     events := events st |}.

(** The host fires the timer that is due first, [late] milliseconds after it
    was due, and reports an exception that leaves its callback; nothing
    happens when no timer is armed. *)
Definition tick (late : Z) (st : State) : State :=
  match Timers.earliest (Timers.pending (timers st)) with
  | None => st
  | Some p =>
      match runClosure (Timers.due p + late) (Timers.callback p)
              {| done := done st; currentTimer := currentTimer st;
                 consecutiveFailures := consecutiveFailures st;
                 timers := Timers.clearTimeout (timers st) (Timers.timerId p);
                 events := events st |} with
      | (st, Some thrown) => record st [Uncaught thrown]
      | (st, None) => st
      end
  end.

Definition ticks (lates : list Z) (st : State) : State :=
  fold_left (fun st late => tick late st) lates st.





End ScheduleRecurring.

(** The loop runs steadily: it is not done, counts no failure, the breaker
    has not tripped, [onError] was called no more often than [execute],
    and the one timer armed is that of a run that lay ahead when it was
    armed. *)
Definition steady (st : State) : Prop :=
  done st = false
  /\ consecutiveFailures st = 0
  /\ circuitBreaks (events st) = O
  /\ (errorsReported (events st) <= executions (events st))%nat
  /\ exists p nextRun capped,
       Timers.pending (timers st) = [p]
       /\ Timers.callback p = Run nextRun capped
       /\ Timers.armedAt p < nextRun.

(** The loop has stalled: it is not done and no timer is armed, so nothing
    will run again although [clear] was never called. *)
Definition stalled (st : State) : Prop :=
  done st = false /\ Timers.pending (timers st) = [].

(** The states a call of [scheduleNext], or a timer callback, leaves the
    loop in: done with no timer (the breaker has tripped), or running with
    one timer, the one [clear] would cancel, or, when an exception has left
    the call, with no timer.  Nothing leaves the call when [onError] and
    [onCircuitBreak] return. *)
Definition settled (options : TimerOptions) (st : State)
    (thrown : option Thrown) : Prop :=
  0 <= consecutiveFailures st
  /\ (if done st
      then Timers.pending (timers st) = []
           /\ maxFailures options <= consecutiveFailures st
      else match thrown with
           | None =>
               (exists p, Timers.pending (timers st) = [p]
                          /\ currentTimer st = Some (Timers.timerId p))
               /\ (consecutiveFailures st = 0
                   \/ consecutiveFailures st < maxFailures options)
           | Some _ => Timers.pending (timers st) = []
           end)
  /\ (observersReturn options -> thrown = None).

(** What holds between two firings: the loop is done with no timer, or
    running with one timer, or has no timer after an exception left the
    call of [scheduleRecurring] ([threw]) or a timer callback. *)
Definition betweenFirings (options : TimerOptions) (threw : Prop)
    (st : State) : Prop :=
  0 <= consecutiveFailures st
  /\ (if done st
      then Timers.pending (timers st) = []
           /\ maxFailures options <= consecutiveFailures st
      else ((exists p, Timers.pending (timers st) = [p]
                       /\ currentTimer st = Some (Timers.timerId p))
            /\ (consecutiveFailures st = 0
                \/ consecutiveFailures st < maxFailures options))
           \/ (Timers.pending (timers st) = []
               /\ (threw \/ uncaught (events st) <> [])))
  /\ (observersReturn options -> ~ threw -> uncaught (events st) = []).

Definition getMaxDelay : Z := MAX_SETTIMEOUT_DELAY.
Definition getMinDelay : Z := MIN_RECOMMENDED_DELAY.


(** ** [scheduleOnce] *)

Inductive OnceEvent : Type :=
| OnceExecuted (at_ : Z)
| OnceConsoleError (text : string) (e : Thrown).

(** The variable [scheduleOnce] closes over, its timer and what it has
    done so far. *)
Record OnceState : Type := {
  onceDone : bool;
  onceTimer : nat;
  onceTimers : Timers.Queue unit;
  onceEvents : list OnceEvent
}.

Definition invalidDelay (delay : Z) : Thrown :=
  newError ("Invalid delay: " ++ JsString.ofZ delay
            ++ "ms. Must be non-negative").

(** The message ends with the maximum in days,
    [2147483647 / 1000 / 60 / 60 / 24]. *)
Definition delayTooLarge (delay : Z) : Thrown :=
  newError ("Delay too large: " ++ JsString.ofZ delay ++ "ms. Maximum: "
            ++ JsString.ofZ MAX_SETTIMEOUT_DELAY
            ++ "ms (24.85513480324074 days)").

Section ScheduleOnce.

(** [execute]: [Some e] when the call throws [e]. *)
Variable execute : unit -> option Thrown.

(** [scheduleOnce(delay, execute)] called at [now]: the state behind the
    returned handle. *)
Definition scheduleOnce (now delay : Z) : result OnceState :=
  if delay <? 0 then Throw (invalidDelay delay)
  else if MAX_SETTIMEOUT_DELAY <? delay then Throw (delayTooLarge delay)
  else
    let '(q, id) := Timers.setTimeout Timers.empty now delay tt in
    Ok {| onceDone := false; onceTimer := id; onceTimers := q;
          onceEvents := [] |}.

(** [clear()] on the returned handle *)
Definition clearOnce (st : OnceState) : OnceState :=
  {| onceDone := true; onceTimer := onceTimer st;
     onceTimers := Timers.clearTimeout (onceTimers st) (onceTimer st);
     onceEvents := onceEvents st |}.

(** The host fires the timer, [late] milliseconds after it was due; nothing
    happens when no timer is armed. *)
Definition tickOnce (late : Z) (st : OnceState) : OnceState :=
  match Timers.earliest (Timers.pending (onceTimers st)) with
  | None => st
  | Some p =>
      let q := Timers.clearTimeout (onceTimers st) (Timers.timerId p) in
      if negb (onceDone st) then
        {| onceDone := onceDone st; onceTimer := onceTimer st; onceTimers := q;
           onceEvents :=
             onceEvents st
             ++ match execute tt with
                | None => [OnceExecuted (Timers.due p + late)]
                | Some e => [OnceExecuted (Timers.due p + late);
                             OnceConsoleError "Timer execution error:" e]
                end |}
      else
        {| onceDone := onceDone st; onceTimer := onceTimer st; onceTimers := q;
           onceEvents := onceEvents st |}
  end.

Definition ticksOnce (lates : list Z) (st : OnceState) : OnceState :=
  fold_left (fun st late => tickOnce late st) lates st.

End ScheduleOnce.

End TimerManager.

(* ================================================================== *)
(** * jobExecutor.ts *)
(* ================================================================== *)

(** Values a job returns, as far as they are stored and compared. *)
Inductive JsValue : Type :=
| Undefined
| Str (s : string)
| Num (n : Z)
| Obj (json : string).

(** How one call of a job function goes: it returns a value that is not a
    promise or throws, after running for [elapsed] ms, or it returns a
    promise that is fulfilled or rejected [elapsed] ms after the call, or one
    that never settles. *)
Inductive JobRun : Type :=
| Returns (elapsed : Z) (value : JsValue)
| ThrowsSync (elapsed : Z) (e : Thrown)
| Resolves (elapsed : Z) (value : JsValue)
| Rejects (elapsed : Z) (e : Thrown)
| NeverSettles.

Definition JobFunction : Type := Z -> string -> JobRun.

(** [await Promise.resolve(job(intendedAt, jobName))]: when it settles and
    how; [None] when it never does. *)
Definition awaitJob (run : JobRun) : option (Z * result JsValue) :=
  match run with
  | Returns elapsed value => Some (elapsed, Ok value)
  | ThrowsSync elapsed e => Some (elapsed, Throw e)
  | Resolves elapsed value => Some (elapsed, Ok value)
  | Rejects elapsed e => Some (elapsed, Throw e)
  | NeverSettles => None
  end.

Module JobExecutor.

Record ExecutionResult : Type := {
  success : bool;
  result_ : option JsValue;
  error : option Thrown;
  duration : Z;
  timedOut : bool
}.

(** [ExecutorOptions]; [onTimeout] returns ([None]) or throws
    ([Some e]). *)
Record ExecutorOptions : Type := {
  timeout : option Z;
  onTimeout : option (Z -> option Thrown)
}.

Definition timeoutError (jobName : string) (timeout : Z) : Thrown :=
  newError ("Job " ++ CronParser.quoted jobName ++ " timed out after "
            ++ JsString.ofZ timeout ++ "ms").

(** Execute a promise with a timeout limit: when the returned promise
    settles and how.  The timeout timer is armed before the job is called,
    and the host runs its callback [late] milliseconds after it is due (a
    timer never fires early, and fires late when the event loop is busy).
    A job that has returned or thrown synchronously settles the promise
    before any timer can fire; a promise that settles in the millisecond
    in which the callback of the timer runs, or later, is taken to lose
    to the timeout. *)
Definition executeWithTimeoutLimit (late : Z) (run : JobRun) (timeout : Z)
    (jobName : string) : Z * result JsValue :=
  match run with
  | Returns elapsed value => (elapsed, Ok value)
  | ThrowsSync elapsed e => (elapsed, Throw e)
  | Resolves elapsed value =>
      if elapsed <? timeout + late then (elapsed, Ok value)
      else (timeout + late, Throw (timeoutError jobName timeout))
  | Rejects elapsed e =>
      if elapsed <? timeout + late then (elapsed, Throw e)
      else (timeout + late, Throw (timeoutError jobName timeout))
  | NeverSettles => (timeout + late, Throw (timeoutError jobName timeout))
  end.

(** Execute a job with timeout and error handling: how the returned promise
    ends, fulfilled with a result or rejected with what [onTimeout] threw,
    and the arguments of the calls of [onTimeout]; [None] when the promise
    never settles.  [late] is the lateness of the timeout timer. *)
Definition executeWithTimeout (late : Z) (job : JobFunction) (intendedAt : Z)
    (jobName : string) (options : ExecutorOptions)
    : option (result ExecutionResult * list Z) :=
  let settled :=
    match timeout options with
    | Some timeout_ =>
        if 0 <? timeout_ then
          Some (executeWithTimeoutLimit late (job intendedAt jobName)
                                        timeout_ jobName)
        else awaitJob (job intendedAt jobName)
    | None => awaitJob (job intendedAt jobName)
    end in
  match settled with
  | None => None
  | Some (duration_, Ok value) =>
      Some (Ok {| success := true; result_ := Some value; error := None;
                  duration := duration_; timedOut := false |}, [])
  | Some (duration_, Throw e) =>
      let err := toError e in
      if JsString.includes "timed out" (message err) then
        let timedOutResult :=
          {| success := false; result_ := None; error := Some err;
             duration := duration_; timedOut := true |} in
        match onTimeout options with
        | Some callback =>
            match callback duration_ with
            | None => Some (Ok timedOutResult, [duration_])
            | Some thrown => Some (Throw thrown, [duration_])
            end
        | None => Some (Ok timedOutResult, [])
        end
      else
        Some (Ok {| success := false; result_ := None; error := Some err;
                    duration := duration_; timedOut := false |}, [])
  end.

(** Create a job wrapper that enforces timeout; [late] is the lateness of
    the timeout timer of the wrapper. *)
Definition withTimeout (late : Z) (job : JobFunction) (timeout : Z)
    : JobFunction :=
  fun intendedAt jobName =>
    match executeWithTimeoutLimit late (job intendedAt jobName) timeout
                                  jobName with
    | (elapsed, Ok value) => Resolves elapsed value
    | (elapsed, Throw e) => Rejects elapsed e
    end.

End JobExecutor.

(* ================================================================== *)
(** * types.ts and SyncedCron.ts *)
(* ================================================================== *)

(** MongoDB document structure for job history *)
Module JobHistory.
Record t : Type := {
  _id : option string;
  name : string;
  intendedAt : Z;
  startedAt : Z;
  finishedAt : option Z;
  result_ : option JsValue;
  error : option string
}.
End JobHistory.

(** Job configuration *)
Module JobConfig.
Record t : Type := {
  name : string;
  schedule : Scheduler.Schedule;
  job : JobFunction;
  persist : option bool;
  (** the time the handler takes to settle, in milliseconds, and [Some e]
      when it throws or rejects with [e] *)
  onError : option (Thrown -> Z -> Z * option Thrown)
}.
End JobConfig.

(** Internal job entry with scheduling metadata; [timer] is the state
    behind the handle [scheduleJob] returned. *)
Module JobEntry.
Record t : Type := {
  name : string;
  schedule : Scheduler.Schedule;
  job : JobFunction;
  persist : bool;
  onError : option (Thrown -> Z -> Z * option Thrown);
  timer : option Scheduler.State;
  paused : option bool
}.
End JobEntry.

Module JobStats.
Record t : Type := {
  totalRuns : nat;
  successCount : nat;
  errorCount : nat;
  averageDuration : option Q
}.
End JobStats.

Module LastRun.
Record t : Type := {
  startedAt : Z;
  finishedAt : option Z;
  success : bool;
  duration : option Z;
  error : option string
}.
End LastRun.

Module JobStatus.
Record t : Type := {
  name : string;
  isScheduled : bool;
  isPaused : bool;
  nextRunAt : option Z;
  lastRun : option LastRun.t;
  stats : JobStats.t
}.
End JobStatus.

(** The [$set] documents [executeJob] sends. *)
Inductive Patch : Type :=
| SetResult (finishedAt : Z) (result_ : JsValue)
| SetError (finishedAt : Z) (error : string).

(** What the package asks of a [Mongo.Collection<JobHistory>] whose state
    is an [S]. *)
Record Collection (S : Type) : Type := {
  (** [insertAsync(doc)]: the new id, or what the driver throws *)
  insertAsync : S -> JobHistory.t -> S * result string;
  (** [updateAsync({ _id }, { $set })] *)
  updateAsync : S -> string -> Patch -> S * result unit;
  (** [find({ name }, { sort: { startedAt: -1 }, limit }).fetchAsync()] *)
  findByName : S -> string -> nat -> result (list JobHistory.t)
}.
Arguments insertAsync {S} _ _ _.
Arguments updateAsync {S} _ _ _ _.
Arguments findByName {S} _ _ _ _.

(** A collection that behaves as MongoDB does with the unique index
    [{ intendedAt: 1, name: 1 }] that [initialize] creates. *)
Module Mongo.

Record Store : Type := {
  docs : list JobHistory.t;
  nextId : nat
}.

Definition emptyStore : Store := {| docs := []; nextId := O |}.

Definition duplicateKey : Thrown :=
  ThrownError "E11000 duplicate key error collection" (Some 11000).

Definition sameKey (a b : JobHistory.t) : bool :=
  (JobHistory.intendedAt a =? JobHistory.intendedAt b)
  && String.eqb (JobHistory.name a) (JobHistory.name b).

Definition insert (s : Store) (doc : JobHistory.t) : Store * result string :=
  if existsb (sameKey doc) (docs s) then (s, Throw duplicateKey)
  else
    let id := ("id" ++ JsString.ofNat (nextId s))%string in
    let stored :=
      {| JobHistory._id := Some id;
         JobHistory.name := JobHistory.name doc;
         JobHistory.intendedAt := JobHistory.intendedAt doc;
         JobHistory.startedAt := JobHistory.startedAt doc;
         JobHistory.finishedAt := JobHistory.finishedAt doc;
         JobHistory.result_ := JobHistory.result_ doc;
         JobHistory.error := JobHistory.error doc |} in
    ({| docs := docs s ++ [stored]; nextId := S (nextId s) |}, Ok id).

Definition hasId (id : string) (doc : JobHistory.t) : bool :=
  match JobHistory._id doc with
  | Some id' => String.eqb id id'
  | None => false
  end.

Definition applyPatch (p : Patch) (doc : JobHistory.t) : JobHistory.t :=
  match p with
  | SetResult finishedAt value =>
      {| JobHistory._id := JobHistory._id doc;
         JobHistory.name := JobHistory.name doc;
         JobHistory.intendedAt := JobHistory.intendedAt doc;
         JobHistory.startedAt := JobHistory.startedAt doc;
         JobHistory.finishedAt := Some finishedAt;
         JobHistory.result_ := Some value;
         JobHistory.error := JobHistory.error doc |}
  | SetError finishedAt err =>
      {| JobHistory._id := JobHistory._id doc;
         JobHistory.name := JobHistory.name doc;
         JobHistory.intendedAt := JobHistory.intendedAt doc;
         JobHistory.startedAt := JobHistory.startedAt doc;
         JobHistory.finishedAt := Some finishedAt;
         JobHistory.result_ := JobHistory.result_ doc;
         JobHistory.error := Some err |}
  end.

Definition update (s : Store) (id : string) (p : Patch) : Store * result unit :=
  ({| docs := map (fun doc => if hasId id doc then applyPatch p doc else doc)
                  (docs s);
      nextId := nextId s |}, Ok tt).

(** Newest first by [startedAt]; documents with equal [startedAt] keep their
    order. *)
Fixpoint insertNewestFirst (doc : JobHistory.t) (l : list JobHistory.t)
    : list JobHistory.t :=
  match l with
  | [] => [doc]
  | d :: l' =>
      if JobHistory.startedAt d <? JobHistory.startedAt doc then doc :: l
      else d :: insertNewestFirst doc l'
  end.

Definition sortNewestFirst (l : list JobHistory.t) : list JobHistory.t :=
  fold_right insertNewestFirst [] l.

(** [a] started no earlier than [b]. *)
Definition notOlder (a b : JobHistory.t) : Prop :=
  JobHistory.startedAt b <= JobHistory.startedAt a.

Definition find (s : Store) (jobName : string) (limit : nat)
    : result (list JobHistory.t) :=
  Ok (firstn limit
        (sortNewestFirst
           (filter (fun doc => String.eqb (JobHistory.name doc) jobName)
                   (docs s)))).

Definition collection : Collection Store :=
  {| insertAsync := insert; updateAsync := update; findByName := find |}.

End Mongo.

Module SyncedCron.

Inductive Level : Type := info | warn | error | debug.

Inductive Event : Type :=
| Logged (level : Level) (text : string)
| CalledInsert (doc : JobHistory.t)
| CalledJob (intendedAt : Z) (jobName : string)
| CalledUpdate (id : string) (patch : Patch)
| CalledOnError (e : Thrown) (intendedAt : Z).

(** How the promise of an [async] method ends. *)
Inductive Outcome (A : Type) : Type :=
| Resolved (a : A)
| Rejected (e : Thrown)
| Pending.
Arguments Resolved {A} a.
Arguments Rejected {A} e.
Arguments Pending {A}.

(** [new JobAlreadyExistsError(jobName)] and [new JobNotFoundError(jobName)] *)
Definition JobAlreadyExistsError (jobName : string) : Thrown :=
  newError ("Job " ++ CronParser.quoted jobName ++ " already exists").
Definition JobNotFoundError (jobName : string) : Thrown :=
  newError ("Job " ++ CronParser.quoted jobName ++ " not found").

(** The fields of the instance that the methods below read and write;
    [entries] is a [Map], in insertion order; [initialized] tells that
    [this.collection] is set. *)
Record Instance : Type := {
  utc : bool;
  entries : list (string * JobEntry.t);
  initialized : bool;
  running : bool;
  logs : list Event
}.

Definition has (entries : list (string * JobEntry.t)) (k : string) : bool :=
  existsb (fun kv => String.eqb (fst kv) k) entries.

Fixpoint get (entries : list (string * JobEntry.t)) (k : string)
    : option JobEntry.t :=
  match entries with
  | [] => None
  | (k', v) :: rest => if String.eqb k' k then Some v else get rest k
  end.

Fixpoint set (entries : list (string * JobEntry.t)) (k : string)
    (v : JobEntry.t) : list (string * JobEntry.t) :=
  match entries with
  | [] => [(k, v)]
  | (k', v') :: rest =>
      if String.eqb k' k then (k, v) :: rest else (k', v') :: set rest k v
  end.

(** [e && typeof e === "object" && "code" in e && e.code === 11000] *)
Definition isDuplicateKey (e : Thrown) : bool :=
  match e with
  | ThrownError _ (Some code) => code =? 11000
  | ThrownObject _ (Some code) => code =? 11000
  | _ => false
  end.

(** [if (jobHistoryId)]: the id when it is a non-empty string *)
Definition truthyId (jobHistoryId : option string) : option string :=
  match jobHistoryId with
  | Some id => if String.eqb id "" then None else Some id
  | None => None
  end.

(** The document [{ intendedAt, name, startedAt }] that [executeJob]
    inserts. *)
Definition newHistory (name : string) (intendedAt startedAt : Z)
    : JobHistory.t :=
  {| JobHistory._id := None;
     JobHistory.name := name;
     JobHistory.intendedAt := intendedAt;
     JobHistory.startedAt := startedAt;
     JobHistory.finishedAt := None;
     JobHistory.result_ := None;
     JobHistory.error := None |}.

Section ExecuteJob.

Context {S : Type}.
Variable collection : Collection S.
(** [error.stack] of an [Error]: the text the host gave it when it was
    created, [None] when the property is absent. *)
Variable stack : Thrown -> option string.

(** [error.stack || error.message] *)
Definition stackOrMessage (e : Thrown) : string :=
  match stack e with
  | Some text => if String.eqb text "" then message e else text
  | None => message e
  end.

(** The [catch] block of [executeJob]; [finishedAt] is read off the clock
    after the handler has been awaited. *)
Definition executeJobCatch (entry : JobEntry.t) (intendedAt now elapsed : Z)
    (jobHistoryId : option string) (e : Thrown) (db : S) (evs : list Event)
    : S * list Event * Outcome unit :=
  let error_ := toError e in
  let evs :=
    evs ++ [Logged error ("SyncedCron: Exception in "
                          ++ CronParser.quoted (JobEntry.name entry)
                          ++ " after " ++ JsString.ofZ elapsed ++ "ms")] in
  let '(evs, handling) :=
    match JobEntry.onError entry with
    | Some handler =>
        let evs := evs ++ [CalledOnError error_ intendedAt] in
        match handler error_ intendedAt with
        | (handling, None) => (evs, handling)
        | (handling, Some _) =>
            (evs ++ [Logged error ("SyncedCron: Error in onError handler for "
                                   ++ CronParser.quoted (JobEntry.name entry))],
             handling)
        end
    | None => (evs, 0)
    end in
  match truthyId jobHistoryId with
  | Some id =>
      let patch :=
        SetError (now + elapsed + handling) (stackOrMessage error_) in
      let '(db, r) := updateAsync collection db id patch in
      let evs := evs ++ [CalledUpdate id patch] in
      match r with
      | Ok _ => (db, evs, Resolved tt)
      | Throw e' => (db, evs, Rejected e')
      end
  | None => (db, evs, Resolved tt)
  end.

(** Execute a job with error handling and history tracking; [now] is the
    clock when the method is entered. *)
Definition executeJob (isInitialized : bool) (now : Z) (entry : JobEntry.t)
    (intendedAt : Z) (db : S) : S * list Event * Outcome unit :=
  if negb isInitialized then
    (db, [], Rejected (newError "SyncedCron not initialized. Call start() first."))
  else
    let acquired : S * list Event * result (option string) :=
      if JobEntry.persist entry then
        let doc := newHistory (JobEntry.name entry) intendedAt now in
        let '(db, r) := insertAsync collection db doc in
        match r with
        | Ok id => (db, [CalledInsert doc], Ok (Some id))
        | Throw e => (db, [CalledInsert doc], Throw e)
        end
      else (db, [], Ok None) in
    match acquired with
    | (db, evs, Throw e) =>
        if isDuplicateKey e then
          (db,
           evs ++ [Logged debug ("SyncedCron: Skipping "
                                 ++ CronParser.quoted (JobEntry.name entry)
                                 ++ " - already running elsewhere")],
           Resolved tt)
        else (db, evs, Rejected e)
    | (db, evs, Ok jobHistoryId) =>
        let evs :=
          evs ++ [Logged info ("SyncedCron: Starting "
                               ++ CronParser.quoted (JobEntry.name entry));
                  CalledJob intendedAt (JobEntry.name entry)] in
        match awaitJob (JobEntry.job entry intendedAt (JobEntry.name entry)) with
        | None => (db, evs, Pending)
        | Some (elapsed, Ok output) =>
            let evs :=
              evs ++ [Logged info ("SyncedCron: Finished "
                                   ++ CronParser.quoted (JobEntry.name entry)
                                   ++ " in " ++ JsString.ofZ elapsed ++ "ms")] in
            match truthyId jobHistoryId with
            | Some id =>
                let patch := SetResult (now + elapsed) output in
                let '(db, r) := updateAsync collection db id patch in
                let evs := evs ++ [CalledUpdate id patch] in
                match r with
                | Ok _ => (db, evs, Resolved tt)
                | Throw e =>
                    executeJobCatch entry intendedAt now elapsed
                                    jobHistoryId e db evs
                end
            | None => (db, evs, Resolved tt)
            end
        | Some (elapsed, Throw e) =>
            executeJobCatch entry intendedAt now elapsed jobHistoryId e
                            db evs
        end
    end.

End ExecuteJob.

Definition log (inst : Instance) (level : Level) (text : string) : Instance :=
  {| utc := utc inst; entries := entries inst;
     initialized := initialized inst; running := running inst;
     logs := logs inst ++ [Logged level text] |}.

Definition setEntry (inst : Instance) (entry : JobEntry.t) : Instance :=
  {| utc := utc inst;
     entries := set (entries inst) (JobEntry.name entry) entry;
     initialized := initialized inst; running := running inst;
     logs := logs inst |}.

(** [entry.paused] as a condition *)
Definition isPaused (entry : JobEntry.t) : bool :=
  match JobEntry.paused entry with Some b => b | None => false end.

(** [new SyncedCron({ utc })] *)
Definition newSyncedCron (utc_ : bool) : Instance :=
  {| utc := utc_; entries := []; initialized := false; running := false;
     logs := [] |}.

(** The entry [add] creates: [{ name, schedule, job, persist, onError }],
    with [persist] true when absent. *)
Definition entryOf (config : JobConfig.t) : JobEntry.t :=
  {| JobEntry.name := JobConfig.name config;
     JobEntry.schedule := JobConfig.schedule config;
     JobEntry.job := JobConfig.job config;
     JobEntry.persist :=
       match JobConfig.persist config with Some b => b | None => true end;
     JobEntry.onError := JobConfig.onError config;
     JobEntry.timer := None;
     JobEntry.paused := None |}.

(** [entry.timer = timer] *)
Definition withTimer (entry : JobEntry.t) (timer_ : Scheduler.State)
    : JobEntry.t :=
  {| JobEntry.name := JobEntry.name entry;
     JobEntry.schedule := JobEntry.schedule entry;
     JobEntry.job := JobEntry.job entry;
     JobEntry.persist := JobEntry.persist entry;
     JobEntry.onError := JobEntry.onError entry;
     JobEntry.timer := Some timer_;
     JobEntry.paused := JobEntry.paused entry |}.

(** [entryWrapper(entry)]: the function handed to [scheduleJob] starts
    [executeJob] without awaiting it, and so does not throw. *)
Definition entryWrapper (entry : JobEntry.t) : Z -> option Thrown :=
  fun _ => None.

(** Schedule a job entry.  The entry is the object held in [entries], so
    the new [timer] is visible there whether or not the method returns. *)
Definition scheduleEntry (zone : JsDate.Zone) (now : Z) (inst : Instance)
    (entry : JobEntry.t)
    : Instance * result unit :=
  if isPaused entry then
    (log inst debug ("SyncedCron: Skipping paused job "
                     ++ CronParser.quoted (JobEntry.name entry)), Ok tt)
  else
    let options := {| Scheduler.utc := Some (utc inst) |} in
    (* [scheduleJob(entry.schedule, this.entryWrapper(entry), { utc })];
       the wrapper is first called when a timer fires *)
    let timer_ :=
      Scheduler.scheduleJob zone (JobEntry.schedule entry) options now in
    let entry := withTimer entry timer_ in
    let inst := setEntry inst entry in
    match Scheduler.getNextScheduledTime zone now (JobEntry.schedule entry)
                                         options with
    | Ok nextRun =>
        (log inst info ("SyncedCron: Scheduled "
                        ++ CronParser.quoted (JobEntry.name entry)
                        ++ " next run @ " ++ JsString.ofZ nextRun), Ok tt)
    | Throw e => (inst, Throw e)
    end.

(** Add a job to the cron system *)
Definition add (zone : JsDate.Zone) (now : Z) (inst : Instance)
    (config : JobConfig.t)
    : Instance * Outcome unit :=
  if has (entries inst) (JobConfig.name config) then
    (inst, Rejected (JobAlreadyExistsError (JobConfig.name config)))
  else
    let entry := entryOf config in
    let inst := setEntry inst entry in
    if running inst then
      match scheduleEntry zone now inst entry with
      | (inst, Ok _) => (inst, Resolved tt)
      | (inst, Throw e) => (inst, Rejected e)
      end
    else (inst, Resolved tt).

(** The loop of [start] over [this.entries.values()]. *)
Fixpoint scheduleAll (zone : JsDate.Zone) (now : Z) (inst : Instance)
    (todo : list (string * JobEntry.t)) : Instance * result unit :=
  match todo with
  | [] => (inst, Ok tt)
  | (_, entry) :: rest =>
      match scheduleEntry zone now inst entry with
      | (inst, Ok _) => scheduleAll zone now inst rest
      | (inst, Throw e) => (inst, Throw e)
      end
  end.

(** Start the cron system and begin executing scheduled jobs; the creation
    of the collection and of its indexes is taken to succeed. *)
Definition start (zone : JsDate.Zone) (now : Z) (inst : Instance) : Instance *
    Outcome unit :=
  if running inst then (log inst warn "SyncedCron: Already running", Resolved tt)
  else
    let inst :=
      {| utc := utc inst; entries := entries inst; initialized := true;
         running := running inst; logs := logs inst |} in
    match scheduleAll zone now inst (entries inst) with
    | (inst, Ok _) =>
        (log {| utc := utc inst; entries := entries inst;
                initialized := initialized inst; running := true;
                logs := logs inst |} info "SyncedCron: Started", Resolved tt)
    | (inst, Throw e) => (inst, Rejected e)
    end.

(** Get the next scheduled run time for a job *)
Definition nextScheduledAt (zone : JsDate.Zone) (now : Z) (inst : Instance)
    (jobName : string)
    : option Z :=
  match get (entries inst) jobName with
  | None => None
  | Some entry =>
      match Scheduler.getNextScheduledTime zone now (JobEntry.schedule entry)
              {| Scheduler.utc := Some (utc inst) |} with
      | Ok t => Some t
      | Throw _ => None
      end
  end.

(** [r.error] as a condition: a non-empty string *)
Definition hasError (r : JobHistory.t) : bool :=
  match JobHistory.error r with
  | Some text => negb (String.eqb text "")
  | None => false
  end.

(** [r.finishedAt && r.startedAt] as a condition *)
Definition isCompleted (r : JobHistory.t) : bool :=
  match JobHistory.finishedAt r with Some _ => true | None => false end.

Definition runDuration (r : JobHistory.t) : Z :=
  match JobHistory.finishedAt r with
  | Some finished => finished - JobHistory.startedAt r
  | None => 0
  end.

Definition computeStats (recentRuns : list JobHistory.t) : JobStats.t :=
  let totalRuns := List.length recentRuns in
  let successCount :=
    List.length (filter (fun r => negb (hasError r)) recentRuns) in
  let errorCount := List.length (filter hasError recentRuns) in
  let completedRuns := filter isCompleted recentRuns in
  let averageDuration :=
    if (0 <? List.length completedRuns)%nat then
      Some (Qmake (fold_left (fun sum r => sum + runDuration r) completedRuns 0)
                  (Pos.of_nat (List.length completedRuns)))
    else None in
  {| JobStats.totalRuns := totalRuns;
     JobStats.successCount := successCount;
     JobStats.errorCount := errorCount;
     JobStats.averageDuration := averageDuration |}.

Definition computeLastRun (recentRuns : list JobHistory.t)
    : option LastRun.t :=
  match recentRuns with
  | r :: _ =>
      Some {| LastRun.startedAt := JobHistory.startedAt r;
              LastRun.finishedAt := JobHistory.finishedAt r;
              LastRun.success := negb (hasError r);
              LastRun.duration :=
                match JobHistory.finishedAt r with
                | Some finished => Some (finished - JobHistory.startedAt r)
                | None => None
                end;
              LastRun.error := JobHistory.error r |}
  | [] => None
  end.

(** Get status information for a specific job *)
Definition getJobStatus {S : Type} (collection : Collection S)
    (zone : JsDate.Zone) (now : Z) (inst : Instance) (db : S) (jobName : string)
    : Outcome (option JobStatus.t) :=
  match get (entries inst) jobName with
  | None => Resolved None
  | Some entry =>
      if negb (initialized inst) then
        Rejected (newError "SyncedCron not initialized. Call start() first.")
      else
        match findByName collection db jobName 100 with
        | Throw e => Rejected e
        | Ok recentRuns =>
            Resolved (Some
              {| JobStatus.name := jobName;
                 JobStatus.isScheduled :=
                   running inst &&
                   match JobEntry.timer entry with
                   | Some _ => true
                   | None => false
                   end;
                 JobStatus.isPaused := isPaused entry;
                 JobStatus.nextRunAt := nextScheduledAt zone now inst jobName;
                 JobStatus.lastRun := computeLastRun recentRuns;
                 JobStatus.stats := computeStats recentRuns |})
        end
  end.

(** ** The registry *)

(** [this.entries.delete(k)] *)
Definition delete (entries : list (string * JobEntry.t)) (k : string)
    : list (string * JobEntry.t) :=
  filter (fun kv => negb (String.eqb (fst kv) k)) entries.

(** [entry.timer = undefined] *)
Definition withoutTimer (entry : JobEntry.t) : JobEntry.t :=
  {| JobEntry.name := JobEntry.name entry;
     JobEntry.schedule := JobEntry.schedule entry;
     JobEntry.job := JobEntry.job entry;
     JobEntry.persist := JobEntry.persist entry;
     JobEntry.onError := JobEntry.onError entry;
     JobEntry.timer := None;
     JobEntry.paused := JobEntry.paused entry |}.


(** [if (entry.timer) { entry.timer.clear(); entry.timer = undefined; }]:
    the entry afterwards, and the handles that were cleared, as [clear]
    leaves them. *)
Definition dropTimer (entry : JobEntry.t) : JobEntry.t :=
  match JobEntry.timer entry with
  | Some _ => withoutTimer entry
  | None => entry
  end.

Definition clearedTimer (entry : JobEntry.t) : list Scheduler.State :=
  match JobEntry.timer entry with
  | Some timer_ => [Scheduler.clear timer_]
  | None => []
  end.


(** Pause job scheduling (stops timers but doesn't clear job definitions):
    the instance afterwards and the handles cleared. *)
Definition pause (inst : Instance) : Instance * list Scheduler.State :=
  if negb (running inst) then (inst, [])
  else
    (log {| utc := utc inst;
            entries := map (fun kv => (fst kv, dropTimer (snd kv)))
                           (entries inst);
            initialized := initialized inst; running := false;
            logs := logs inst |} info "SyncedCron: Paused",
     flat_map (fun kv => clearedTimer (snd kv)) (entries inst)).




(** Stop the cron system and remove all jobs *)
Definition stop (inst : Instance)
    : Instance * list Scheduler.State * Outcome unit :=
  let '(inst, cleared) := pause inst in
  (log {| utc := utc inst; entries := [];
          initialized := initialized inst; running := running inst;
          logs := logs inst |} info "SyncedCron: Stopped",
   cleared, Resolved tt).

(** Remove a job by name *)
Definition remove (inst : Instance) (jobName : string)
    : Instance * list Scheduler.State * Outcome unit :=
  match get (entries inst) jobName with
  | None => (inst, [], Rejected (JobNotFoundError jobName))
  | Some entry =>
      (log {| utc := utc inst; entries := delete (entries inst) jobName;
              initialized := initialized inst; running := running inst;
              logs := logs inst |} info
           ("SyncedCron: Removed " ++ CronParser.quoted jobName),
       clearedTimer entry, Resolved tt)
  end.

(** Check if the cron system is running *)
Definition isRunning (inst : Instance) : bool := running inst.

(** Get list of all registered job names *)
Definition getJobNames (inst : Instance) : list string :=
  map fst (entries inst).

(** The loop of [getAllJobStatuses] over [this.entries.keys()]; [clock]
    gives the reading of the clock while the status of a job is computed. *)
Fixpoint collectStatuses {S : Type} (collection : Collection S)
    (zone : JsDate.Zone)
    (clock : string -> Z) (inst : Instance) (db : S) (names : list string)
    (statuses : list JobStatus.t) : Outcome (list JobStatus.t) :=
  match names with
  | [] => Resolved statuses
  | jobName :: rest =>
      match getJobStatus collection zone (clock jobName) inst db jobName with
      | Resolved (Some status) =>
          collectStatuses collection zone clock inst db rest
                          (statuses ++ [status])
      | Resolved None =>
          collectStatuses collection zone clock inst db rest statuses
      | Rejected e => Rejected e
      | Pending => Pending
      end
  end.

(** Get status for all jobs *)
Definition getAllJobStatuses {S : Type} (collection : Collection S)
    (zone : JsDate.Zone)
    (clock : string -> Z) (inst : Instance) (db : S)
    : Outcome (list JobStatus.t) :=
  collectStatuses collection zone clock inst db (getJobNames inst) [].

Module HealthJob.
Record t : Type := {
  name : string;
  hasTimer : bool;
  isPaused : bool;
  nextRunAt : option Z
}.
End HealthJob.

Module HealthCheckResult.
Record t : Type := {
  healthy : bool;
  running : bool;
  totalJobs : nat;
  scheduledJobs : nat;
  pausedJobs : nat;
  runningJobs : nat;
  issues : list string;
  jobs : list HealthJob.t
}.
End HealthCheckResult.

Module CronMetrics.
Record t : Type := {
  isRunning : bool;
  jobCount : nat;
  runningJobCount : nat;
  pausedJobCount : nat;
  scheduledJobCount : nat
}.
End CronMetrics.

(** [!!entry.timer] *)
Definition hasTimer (entry : JobEntry.t) : bool :=
  match JobEntry.timer entry with Some _ => true | None => false end.

Definition healthJobOf (zone : JsDate.Zone) (now : Z) (inst : Instance)
    (kv : string * JobEntry.t) : HealthJob.t :=
  {| HealthJob.name := fst kv;
     HealthJob.hasTimer := hasTimer (snd kv);
     HealthJob.isPaused :=
       match JobEntry.paused (snd kv) with Some b => b | None => false end;
     HealthJob.nextRunAt :=
       if hasTimer (snd kv) then nextScheduledAt zone now inst (fst kv)
       else None |}.

Definition isDefined (t : option Z) : bool :=
  match t with Some _ => true | None => false end.

(** Health check - returns the health status of the cron system;
    [runningJobs] is [this.runningJobs.size]. *)
Definition healthCheck (zone : JsDate.Zone) (now : Z) (inst : Instance)
    (runningJobs : nat)
    : HealthCheckResult.t :=
  let jobs := map (healthJobOf zone now inst) (entries inst) in
  let scheduledJobs :=
    filter (fun j => HealthJob.hasTimer j && negb (HealthJob.isPaused j)) jobs in
  let pausedJobs := filter HealthJob.isPaused jobs in
  let unscheduledJobs :=
    filter (fun j => negb (HealthJob.hasTimer j) && negb (HealthJob.isPaused j)
                     && running inst) jobs in
  let healthy :=
    running inst
    && (List.length unscheduledJobs =? 0)%nat
    && forallb (fun j => isDefined (HealthJob.nextRunAt j)) scheduledJobs in
  {| HealthCheckResult.healthy := healthy;
     HealthCheckResult.running := running inst;
     HealthCheckResult.totalJobs := List.length jobs;
     HealthCheckResult.scheduledJobs := List.length scheduledJobs;
     HealthCheckResult.pausedJobs := List.length pausedJobs;
     HealthCheckResult.runningJobs := runningJobs;
     HealthCheckResult.issues :=
       map (fun j => ("Job " ++ CronParser.quoted (HealthJob.name j)
                      ++ " is not scheduled")%string) unscheduledJobs
       ++ map (fun j => ("Job " ++ CronParser.quoted (HealthJob.name j)
                         ++ " has no next run time")%string)
              (filter (fun j => negb (isDefined (HealthJob.nextRunAt j)))
                      scheduledJobs);
     HealthCheckResult.jobs := jobs |}.

(** Get metrics for monitoring *)
Definition getMetrics (inst : Instance) (runningJobs : nat) : CronMetrics.t :=
  {| CronMetrics.isRunning := running inst;
     CronMetrics.jobCount := List.length (entries inst);
     CronMetrics.runningJobCount := runningJobs;
     CronMetrics.pausedJobCount :=
       List.length (filter (fun kv => isPaused (snd kv)) (entries inst));
     CronMetrics.scheduledJobCount :=
       List.length (filter (fun kv => hasTimer (snd kv)
                                      && negb (isPaused (snd kv)))
                           (entries inst)) |}.

(** ** What is read off the events and the registry *)

(** The calls of the job function, in order. *)
Definition jobCalls (evs : list Event) : list (Z * string) :=
  flat_map (fun e => match e with
                     | CalledJob intendedAt jobName => [(intendedAt, jobName)]
                     | _ => []
                     end) evs.



(** Several firings for one intended time, one after the other, on the
    collection with the unique index: those of the instances that share
    the collection.  Each attempt is a clock reading and the entry of the
    instance; the store and the events of all attempts are returned. *)
Definition fireAll (stack : Thrown -> option string)
    (attempts : list (Z * JobEntry.t)) (intendedAt : Z)
    (db : Mongo.Store) : Mongo.Store * list Event :=
  fold_left
    (fun acc attempt =>
       let '(db', evs', _) :=
         executeJob Mongo.collection stack true (fst attempt) (snd attempt)
                    intendedAt (fst acc) in
       (db', snd acc ++ evs'))
    attempts (db, []).

(** The history holds a document for the run of [jobName] intended at
    [intendedAt]. *)
Definition holdsRun (db : Mongo.Store) (intendedAt : Z) (jobName : string)
    : bool :=
  existsb (fun doc => (JobHistory.intendedAt doc =? intendedAt)
                      && String.eqb (JobHistory.name doc) jobName)
          (Mongo.docs db).




End SyncedCron.

(* ================================================================== *)
(** * Sample data *)
(* ================================================================== *)

(** A started instance with one hourly job, and a history of three rows of
    that job: one finished, one failed, one still running. *)
Module Sample.

Definition config : JobConfig.t :=
  {| JobConfig.name := "report";
     JobConfig.schedule := Scheduler.Every 1 IntervalScheduler.hours None;
     JobConfig.job := fun _ _ => Returns 0 Undefined;
     JobConfig.persist := None;
     JobConfig.onError := None |}.

Definition entry : JobEntry.t := SyncedCron.entryOf config.

Definition instance : SyncedCron.Instance :=
  {| SyncedCron.utc := true;
     SyncedCron.entries := [("report", entry)];
     SyncedCron.initialized := true;
     SyncedCron.running := true;
     SyncedCron.logs := [] |}.

Definition rows : list JobHistory.t :=
  [{| JobHistory._id := Some "id0"; JobHistory.name := "report";
      JobHistory.intendedAt := 1000; JobHistory.startedAt := 1000;
      JobHistory.finishedAt := Some 1400;
      JobHistory.result_ := Some (Str "ok"); JobHistory.error := None |};
   {| JobHistory._id := Some "id1"; JobHistory.name := "report";
      JobHistory.intendedAt := 2000; JobHistory.startedAt := 2000;
      JobHistory.finishedAt := Some 2100;
      JobHistory.result_ := None; JobHistory.error := Some "boom" |};
   {| JobHistory._id := Some "id2"; JobHistory.name := "report";
      JobHistory.intendedAt := 3000; JobHistory.startedAt := 3000;
      JobHistory.finishedAt := None;
      JobHistory.result_ := None; JobHistory.error := None |}].

Definition store : Mongo.Store := {| Mongo.docs := rows; Mongo.nextId := 3 |}.


(** A job whose schedule is not a cron expression, registered after the
    sample job on an instance that has not been started. *)
Definition nightly : JobConfig.t :=
  {| JobConfig.name := "nightly";
     JobConfig.schedule := Scheduler.Cron "every night";
     JobConfig.job := fun _ _ => Returns 0 Undefined;
     JobConfig.persist := None;
     JobConfig.onError := None |}.

Definition idleWithNightly : SyncedCron.Instance :=
  {| SyncedCron.utc := true;
     SyncedCron.entries :=
       [("report", entry); ("nightly", SyncedCron.entryOf nightly)];
     SyncedCron.initialized := false;
     SyncedCron.running := false;
     SyncedCron.logs := [] |}.

(** The stack of an error as a host renders it: the message and the place
    it was created at. *)
Definition stack (e : Thrown) : option string :=
  Some ("Error: " ++ message e ++ String (ascii_of_nat 10) ""
        ++ "    at job (server/jobs.js:12:9)")%string.

(** A host in New York in the autumn of 2025: daylight saving time ends on
    2 November at 06:00 UTC, when the clocks go back from 02:00 (UTC-4) to
    01:00 (UTC-5). *)
Definition newYork : JsDate.Zone :=
  JsDate.changing (JsDate.dateUTC 2025 10 2 6 0 0 0) (-240) (-300).

(** A host in Berlin in the spring of 2024: daylight saving time begins on
    31 March at 01:00 UTC, when the clocks go forward from 02:00 (UTC+1) to
    03:00 (UTC+2). *)
Definition berlin : JsDate.Zone :=
  JsDate.changing (JsDate.dateUTC 2024 2 31 1 0 0 0) 60 120.

(** The fields of "30 9 * * *". *)
Definition dailyFields : CronParser.CronFields :=
  {| CronParser.minute := [30]; CronParser.hour := [9];
     CronParser.dayOfMonth := CronParser.range 1 31;
     CronParser.month := CronParser.range 1 12;
     CronParser.dayOfWeek := CronParser.range 0 6;
     CronParser.isLastDayOfMonth := false |}.

End Sample.

(* ================================================================== *)
(** * Facts about [Date] *)
(* ================================================================== *)

Section DateFacts.

Import JsDate.

(** A time value is its day, hour, minute, second and millisecond. *)
Lemma time_decompose (t : Z) :
  t = Day t * msPerDay + HourFromTime t * msPerHour
      + MinFromTime t * msPerMinute + SecFromTime t * msPerSecond
      + msFromTime t.
Proof.
  unfold Day, HourFromTime, MinFromTime, SecFromTime, msFromTime,
    msPerDay, msPerHour, msPerMinute, msPerSecond.
  Z.div_mod_to_equations. lia.
Qed.

Lemma time_fields_bounds (t : Z) :
  0 <= HourFromTime t < 24 /\ 0 <= MinFromTime t < 60
  /\ 0 <= SecFromTime t < 60 /\ 0 <= msFromTime t < 1000.
Proof.
  unfold HourFromTime, MinFromTime, SecFromTime, msFromTime, msPerSecond.
  repeat split; try apply Z.mod_pos_bound; lia.
Qed.

Lemma setSeconds2_zero (offset t : Z) :
  setSeconds2 (JsDate.fixed offset) t 0 0 = t -
      (LocalTime (JsDate.fixed offset) t) mod msPerMinute.
Proof.
  unfold setSeconds2, UTC, MakeDate, MakeTime; cbn
      [JsDate.LocalTZA JsDate.fixed].
  set (lt := LocalTime (JsDate.fixed offset) t).
  assert (H := time_decompose lt).
  assert (Hm : lt mod msPerMinute = SecFromTime lt * msPerSecond + msFromTime lt).
  { clear H.
    unfold Day, HourFromTime, MinFromTime, SecFromTime, msFromTime,
      msPerDay, msPerHour, msPerMinute, msPerSecond.
    Z.div_mod_to_equations. lia. }
  unfold LocalTime in *; cbn [JsDate.LocalTZA JsDate.fixed] in *. fold lt in H.
      lia.
Qed.

Lemma setMinutes_shift (offset t m : Z) :
  setMinutes (JsDate.fixed offset) t m = t +
      (m - getMinutes (JsDate.fixed offset) t) * msPerMinute.
Proof.
  unfold setMinutes, getMinutes, UTC, MakeDate, MakeTime; cbn
      [JsDate.LocalTZA JsDate.fixed].
  set (lt := LocalTime (JsDate.fixed offset) t).
  assert (H := time_decompose lt).
  unfold LocalTime in *; cbn [JsDate.LocalTZA JsDate.fixed] in *. fold lt in H.
      lia.
Qed.

Lemma setHours_shift (offset t h : Z) :
  setHours (JsDate.fixed offset) t h = t +
      (h - getHours (JsDate.fixed offset) t) * msPerHour.
Proof.
  unfold setHours, getHours, UTC, MakeDate, MakeTime; cbn
      [JsDate.LocalTZA JsDate.fixed].
  set (lt := LocalTime (JsDate.fixed offset) t).
  assert (H := time_decompose lt).
  unfold LocalTime in *; cbn [JsDate.LocalTZA JsDate.fixed] in *. fold lt in H.
      lia.
Qed.

Lemma setSeconds_shift (offset t s : Z) :
  setSeconds (JsDate.fixed offset) t s = t +
      (s - getSeconds (JsDate.fixed offset) t) * msPerSecond.
Proof.
  unfold setSeconds, setSeconds2, getSeconds, getMilliseconds, UTC, MakeDate,
    MakeTime; cbn [JsDate.LocalTZA JsDate.fixed].
  set (lt := LocalTime (JsDate.fixed offset) t).
  assert (H := time_decompose lt).
  unfold LocalTime in *; cbn [JsDate.LocalTZA JsDate.fixed] in *. fold lt in H.
      lia.
Qed.

Lemma setHours4_midnight (offset t h m : Z) :
  setHours4 (JsDate.fixed offset) t h m 0 0
  = t - (LocalTime (JsDate.fixed offset) t) mod msPerDay + h * msPerHour + m *
      msPerMinute.
Proof.
  unfold setHours4, UTC, MakeDate, MakeTime, Day; cbn
      [JsDate.LocalTZA JsDate.fixed].
  set (lt := LocalTime (JsDate.fixed offset) t).
  assert (H := Z.div_mod lt msPerDay ltac:(unfold msPerDay; lia)).
  unfold LocalTime in *; cbn [JsDate.LocalTZA JsDate.fixed] in *. fold lt in H.
      unfold msPerSecond. lia.
Qed.

(** ** The calendar *)

(** Within an era the year lies in 0..399 and the day of the year in
    0..365. *)
Lemma era_year_bounds (doe : Z) :
  0 <= doe < daysPerEra ->
  0 <= yoe_of_doe doe <= 399 /\ 0 <= doy_of_doe doe <= 365.
Proof.
  unfold daysPerEra, doy_of_doe, yoe_of_doe. intros H.
  Z.div_mod_to_equations. lia.
Qed.

(** Within a year the month lies in 0..11, the day of month in 1..31, and
    the last month (February) has at most 29 days. *)
Lemma year_day_bounds (doy : Z) :
  0 <= doy <= 365 ->
  0 <= mp_of_doy doy <= 11
  /\ 1 <= doy - (153 * mp_of_doy doy + 2) / 5 + 1 <= 31
  /\ (mp_of_doy doy = 11 -> doy - (153 * mp_of_doy doy + 2) / 5 + 1 <= 29).
Proof.
  unfold mp_of_doy. intros H. Z.div_mod_to_equations. lia.
Qed.

Lemma doe_range (z : Z) : 0 <= (z + epochShift) mod daysPerEra < daysPerEra.
Proof. apply Z.mod_pos_bound. unfold daysPerEra. lia. Qed.

(** The month lies in 1..12, the day of month in 1..31, and February has at
    most 29 days. *)
Lemma civil_from_days_range (z : Z) :
  let '(_, m, d) := civil_from_days z in
  1 <= m <= 12 /\ 1 <= d <= 31 /\ (m = 2 -> d <= 29).
Proof.
  unfold civil_from_days.
  destruct (era_year_bounds _ (doe_range z)) as [_ Hdoy].
  set (doe := (z + epochShift) mod daysPerEra) in *.
  destruct (year_day_bounds _ Hdoy) as (Hmp & Hd & Hfeb).
  set (mp := mp_of_doy (doy_of_doe doe)) in *.
  set (d := doy_of_doe doe - (153 * mp + 2) / 5 + 1) in *.
  unfold month_of_mp.
  destruct (mp <? 10) eqn:E; lia.
Qed.

(** Going from a day number to the calendar and back, with the day of month
    shifted by [k], shifts the day number by [k]. *)
Lemma days_from_civil_shift (z k : Z) :
  let '(y, m, d) := civil_from_days z in
  days_from_civil y m (d + k) = z + k.
Proof.
  unfold civil_from_days.
  destruct (era_year_bounds _ (doe_range z)) as [Hyoe0 Hdoy0].
  assert (Hz := Z.div_mod (z + epochShift) daysPerEra
                  ltac:(unfold daysPerEra; lia)).
  set (era := (z + epochShift) / daysPerEra) in *.
  set (doe := (z + epochShift) mod daysPerEra) in *.
  destruct (year_day_bounds _ Hdoy0) as (Hmp & _ & _).
  assert (Hdoy : doy_of_doe doe
                 = doe - (365 * yoe_of_doe doe + yoe_of_doe doe / 4
                          - yoe_of_doe doe / 100)) by reflexivity.
  set (yoe := yoe_of_doe doe) in *.
  set (doy := doy_of_doe doe) in *.
  set (mp := mp_of_doy doy) in *.
  unfold days_from_civil.
  assert (Hmonth : mp_of_month (month_of_mp mp) = mp).
  { unfold mp_of_month, month_of_mp.
    destruct (mp <? 10) eqn:E10;
      [destruct (2 <? mp + 3) eqn:E | destruct (2 <? mp - 9) eqn:E]; lia. }
  rewrite Hmonth.
  assert (Hy : (if month_of_mp mp <=? 2
                then yoe + era * 400
                     + (if month_of_mp mp <=? 2 then 1 else 0) - 1
                else yoe + era * 400
                     + (if month_of_mp mp <=? 2 then 1 else 0))
               = yoe + era * 400).
  { destruct (month_of_mp mp <=? 2); lia. }
  rewrite Hy.
  assert (Hera : (yoe + era * 400) / 400 = era).
  { rewrite Z.div_add by lia. rewrite Z.div_small by lia. lia. }
  assert (Hyoe : (yoe + era * 400) mod 400 = yoe).
  { rewrite Z.mod_add by lia. apply Z.mod_small. lia. }
  rewrite Hera, Hyoe. unfold daysPerEra in *. lia.
Qed.

Lemma month_index (t : Z) : 0 <= MonthFromTime t <= 11.
Proof.
  unfold MonthFromTime.
  assert (H := civil_from_days_range (Day t)).
  destruct (civil_from_days (Day t)) as [[y m] d]. lia.
Qed.

Lemma MakeDay_shift (t k : Z) :
  MakeDay (YearFromTime t) (MonthFromTime t) (DateFromTime t + k) = Day t + k.
Proof.
  assert (Hm := month_index t).
  unfold MakeDay.
  rewrite Z.div_small by lia. rewrite Z.mod_small by lia.
  assert (H := days_from_civil_shift (Day t) k).
  revert Hm. unfold YearFromTime, MonthFromTime, DateFromTime.
  destruct (civil_from_days (Day t)) as [[y m] d]. intros Hm.
  replace (y + 0) with y by lia. replace (m - 1 + 1) with m by lia.
  unfold days_from_civil in *. lia.
Qed.

(** [d.setDate(d.getDate() + k)] moves [d] by [k] days. *)
Lemma setDate_shift (offset t k : Z) :
  setDate (JsDate.fixed offset) t (getDate (JsDate.fixed offset) t + k) = t + k
      * msPerDay.
Proof.
  unfold setDate, getDate, UTC, MakeDate, TimeWithinDay; cbn
      [JsDate.LocalTZA JsDate.fixed].
  rewrite MakeDay_shift.
  set (lt := LocalTime (JsDate.fixed offset) t).
  assert (H := Z.div_mod lt msPerDay ltac:(unfold msPerDay; lia)).
  unfold Day. unfold LocalTime in *; cbn [JsDate.LocalTZA JsDate.fixed] in *.
      fold lt in H. lia.
Qed.


Lemma date_range (t : Z) : 1 <= DateFromTime t <= 31.
Proof.
  unfold DateFromTime.
  assert (H := civil_from_days_range (Day t)).
  destruct (civil_from_days (Day t)) as [[y m] d]. lia.
Qed.

Lemma weekday_range (t : Z) : 0 <= WeekDay t <= 6.
Proof.
  unfold WeekDay. assert (H := Z.mod_pos_bound (Day t + 4) 7 ltac:(lia)). lia.
Qed.

End DateFacts.

(* ================================================================== *)
(** * The cron matcher and the search for the next occurrence *)
(* ================================================================== *)

Section CronFacts.

Import JsDate CronParser.

Lemma LocalTime_mod_minute (offset t : Z) :
  (LocalTime (JsDate.fixed offset) t) mod msPerMinute = t mod msPerMinute.
Proof. unfold LocalTime; cbn [JsDate.LocalTZA JsDate.fixed]. apply
    Z_mod_plus_full. Qed.

Lemma next_minute (offset t : Z) :
  setMinutes (JsDate.fixed offset) t (getMinutes (JsDate.fixed offset) t + 1) =
      t + msPerMinute.
Proof. rewrite setMinutes_shift. lia. Qed.

Lemma search_start (offset from : Z) :
  setMinutes (JsDate.fixed offset) (setSeconds2 (JsDate.fixed offset) from 0 0)
             (getMinutes (JsDate.fixed offset)
                 (setSeconds2 (JsDate.fixed offset) from 0 0) + 1)
  = firstCandidate from.
Proof.
  rewrite next_minute, setSeconds2_zero, LocalTime_mod_minute.
  reflexivity.
Qed.

(** The loop returns the first of the next [remaining] minutes that matches,
    and throws when none does. *)
Lemma cronLoop_spec (offset : Z) (fields : CronFields) (useUTC : bool)
    (remaining : nat) :
  forall next,
    (exists k, (k < remaining)%nat
       /\ cronLoop remaining (JsDate.fixed offset) next fields useUTC
          = Ok (next + Z.of_nat k * msPerMinute)
       /\ matchesCronFields (JsDate.fixed offset)
           (next + Z.of_nat k * msPerMinute)
                            fields useUTC = true
       /\ forall j, (j < k)%nat ->
            matchesCronFields (JsDate.fixed offset)
                (next + Z.of_nat j * msPerMinute)
                              fields useUTC = false)
    \/ (cronLoop remaining (JsDate.fixed offset) next fields useUTC = Throw
        impossibleSchedule
        /\ forall k, (k < remaining)%nat ->
             matchesCronFields (JsDate.fixed offset)
                 (next + Z.of_nat k * msPerMinute)
                               fields useUTC = false).
Proof.
  induction remaining as [|n IH]; intros next.
  - right. split; [reflexivity | intros k Hk; lia].
  - cbn [cronLoop].
    destruct (matchesCronFields (JsDate.fixed offset) next fields useUTC)
        eqn:Hm.
    + left. exists O. replace (next + Z.of_nat 0 * msPerMinute) with next by lia.
      repeat split; [lia | assumption | intros j Hj; lia].
    + rewrite next_minute.
      destruct (IH (next + msPerMinute)) as [(k & Hk & Hr & Hmk & Hbefore) | [Hr Hnone]].
      * left. exists (S k).
        replace (next + Z.of_nat (S k) * msPerMinute)
          with (next + msPerMinute + Z.of_nat k * msPerMinute) by lia.
        repeat split; [lia | assumption | assumption |].
        intros [|j] Hj.
        -- replace (next + Z.of_nat 0 * msPerMinute) with next by lia. exact Hm.
        -- replace (next + Z.of_nat (S j) * msPerMinute)
             with (next + msPerMinute + Z.of_nat j * msPerMinute) by lia.
           apply Hbefore. lia.
      * right. split; [assumption|].
        intros [|k] Hk.
        -- replace (next + Z.of_nat 0 * msPerMinute) with next by lia. exact Hm.
        -- replace (next + Z.of_nat (S k) * msPerMinute)
             with (next + msPerMinute + Z.of_nat k * msPerMinute) by lia.
           apply Hnone. lia.
Qed.





(** In UTC mode the offset of a host with a constant offset plays no
    part. *)
Lemma matchesCronFields_utc_zone (offset date : Z) (fields : CronFields) :
  matchesCronFields (JsDate.fixed offset) date fields true = matchesCronFields
      (JsDate.fixed 0) date fields true.
Proof.
  unfold matchesCronFields, dayMatches, weekdayMatches, dateIsLastDayOfMonth.
  rewrite !setDate_shift. reflexivity.
Qed.

Lemma cronLoop_utc_zone (offset : Z) (fields : CronFields) (remaining : nat) :
  forall next,
    cronLoop remaining (JsDate.fixed offset) next fields true
    = cronLoop remaining (JsDate.fixed 0) next fields true.
Proof.
  induction remaining as [|n IH]; intros next; cbn [cronLoop].
  - reflexivity.
  - rewrite matchesCronFields_utc_zone, !next_minute, IH. reflexivity.
Qed.

Lemma getNextCronOccurrence_utc_zone (offset : Z) (fields : CronFields)
    (from : Z) :
  getNextCronOccurrence (JsDate.fixed offset) fields from true
  = getNextCronOccurrence (JsDate.fixed 0) fields from true.
Proof.
  unfold getNextCronOccurrence. cbv zeta.
  rewrite (search_start offset from), (search_start 0 from).
  apply cronLoop_utc_zone.
Qed.

Lemma range_1_31 : range 1 31 = [1;2;3;4;5;6;7;8;9;10;11;12;13;14;15;16;17;18;19;
  20;21;22;23;24;25;26;27;28;29;30;31].
Proof. reflexivity. Qed.

Lemma includes_true (l : list Z) (x : Z) : In x l -> includes l x = true.
Proof.
  intros H. unfold includes. apply existsb_exists. exists x.
  split; [assumption | apply Z.eqb_refl].
Qed.

Lemma In_range (start stop x : Z) : start <= x <= stop -> In x (range start stop).
Proof.
  intros H. unfold range. apply in_map_iff.
  exists (Z.to_nat (x - start)). split; [lia|].
  apply in_seq. lia.
Qed.

(** A field written [*] always matches. *)
Lemma wildcard_day_matches (zone : Zone) (date : Z) (useUTC : bool)
    (fields : CronFields) :
  isLastDayOfMonth fields = false -> dayOfMonth fields = range 1 31 ->
  dayMatches zone date fields useUTC = true.
Proof.
  intros HL Hd. unfold dayMatches. rewrite HL, Hd.
  apply orb_true_iff. right. apply includes_true, In_range.
  destruct useUTC; [apply date_range | apply date_range].
Qed.

Lemma wildcard_weekday_matches (zone : Zone) (date : Z) (useUTC : bool)
    (fields : CronFields) :
  dayOfWeek fields = range 0 6 ->
  weekdayMatches zone date fields useUTC = true.
Proof.
  intros Hd. unfold weekdayMatches. rewrite Hd.
  apply orb_true_iff. right. apply includes_true, In_range.
  destruct useUTC; [apply weekday_range | apply weekday_range].
Qed.

End CronFacts.

Example parse_wildcards :
  CronParser.parseCronExpression "* * * * *"
  = Ok {| CronParser.minute := CronParser.range 0 59;
          CronParser.hour := CronParser.range 0 23;
          CronParser.dayOfMonth := CronParser.range 1 31;
          CronParser.month := CronParser.range 1 12;
          CronParser.dayOfWeek := CronParser.range 0 6;
          CronParser.isLastDayOfMonth := false |}.
Proof. reflexivity. Qed.

Example parse_names_steps_and_L :
  CronParser.parseCronExpression "*/15 9-17 L jan-mar 1,7,3"
  = Ok {| CronParser.minute := [0; 15; 30; 45];
          CronParser.hour := [9; 10; 11; 12; 13; 14; 15; 16; 17];
          CronParser.dayOfMonth := [];
          CronParser.month := [1; 2; 3];
          CronParser.dayOfWeek := [0; 1; 3];
          CronParser.isLastDayOfMonth := true |}.
Proof. reflexivity. Qed.

Example parse_rejects :
  isOk (CronParser.parseCronExpression "invalid") = false
  /\ isOk (CronParser.parseCronExpression "0 9 * *") = false
  /\ isOk (CronParser.parseCronExpression "60 * * * *") = false
  /\ isOk (CronParser.parseCronExpression "*/0 * * * *") = false
  /\ isOk (CronParser.parseCronExpression "* * 10- * *") = false
  /\ isOk (CronParser.parseCronExpression "* * * FOO *") = false.
Proof. repeat split. Qed.

(** C3.  The day part of the cron matcher.  A candidate matches when its
    minute, hour and month are in their sets and its day matches, where: the
    day of month is "specified" when [L] is set or its set is non-empty with
    fewer than 31 values, the weekday when its set is non-empty with fewer
    than 7 values; when both are specified the day matches iff the day of
    month OR the weekday matches, otherwise iff the day of month AND the
    weekday match; a wildcard field always matches.  All this holds in both
    modes and whatever the time zone of the host.  In UTC mode, on every
    host whose zone keeps a constant offset, the next occurrence of
    "0 9 15 * MON" after 2025-01-10T10:00:00Z is
    2025-01-13T09:00:00.000Z. *)
Theorem C3_day_of_month_or_weekday :
  (forall fields,
     CronParser.dayIsSpecified fields = true <->
     (CronParser.isLastDayOfMonth fields = true
      \/ (0 < List.length (CronParser.dayOfMonth fields) < 31)%nat))
  /\ (forall fields,
        CronParser.weekdayIsSpecified fields = true <->
        (0 < List.length (CronParser.dayOfWeek fields) < 7)%nat)
  /\ (forall (zone : JsDate.Zone) date fields useUTC,
        CronParser.matchesCronFields zone date fields useUTC
        = CronParser.includes (CronParser.minute fields)
            (if useUTC then JsDate.getUTCMinutes date
             else JsDate.getMinutes zone date)
          && CronParser.includes (CronParser.hour fields)
               (if useUTC then JsDate.getUTCHours date
                else JsDate.getHours zone date)
          && CronParser.includes (CronParser.month fields)
               (if useUTC then JsDate.getUTCMonth date + 1
                else JsDate.getMonth zone date + 1)
          && (if CronParser.dayIsSpecified fields
                 && CronParser.weekdayIsSpecified fields
              then CronParser.dayMatches zone date fields useUTC
                   || CronParser.weekdayMatches zone date fields useUTC
              else CronParser.dayMatches zone date fields useUTC
                   && CronParser.weekdayMatches zone date fields useUTC))
  /\ (forall (zone : JsDate.Zone) date useUTC minute hour month dayOfWeek,
        CronParser.dayMatches zone date
          {| CronParser.minute := minute; CronParser.hour := hour;
             CronParser.dayOfMonth := CronParser.range 1 31;
             CronParser.month := month; CronParser.dayOfWeek := dayOfWeek;
             CronParser.isLastDayOfMonth := false |} useUTC = true)
  /\ (forall (zone : JsDate.Zone) date useUTC minute hour dayOfMonth month
             isLast,
        CronParser.weekdayMatches zone date
          {| CronParser.minute := minute; CronParser.hour := hour;
             CronParser.dayOfMonth := dayOfMonth;
             CronParser.month := month;
             CronParser.dayOfWeek := CronParser.range 0 6;
             CronParser.isLastDayOfMonth := isLast |} useUTC = true)
  /\ (forall offset : Z,
        (let* fields := CronParser.parseCronExpression "0 9 15 * MON" in
         CronParser.getNextCronOccurrence (JsDate.fixed offset) fields
           (JsDate.dateUTC 2025 0 10 10 0 0 0) true)
        = Ok (JsDate.dateUTC 2025 0 13 9 0 0 0)).
Proof.
  split; [|split; [|split; [|split; [|split]]]].
  - intros fields. unfold CronParser.dayIsSpecified.
    rewrite orb_true_iff, andb_true_iff, !Nat.ltb_lt. tauto.
  - intros fields. unfold CronParser.weekdayIsSpecified.
    rewrite andb_true_iff, !Nat.ltb_lt. tauto.
  - intros zone date fields useUTC. unfold CronParser.matchesCronFields.
    destruct (CronParser.includes (CronParser.minute fields) _);
      [|reflexivity].
    destruct (CronParser.includes (CronParser.hour fields) _);
      [|reflexivity].
    destruct (CronParser.includes (CronParser.month fields) _);
      reflexivity.
  - intros. apply wildcard_day_matches; reflexivity.
  - intros. apply wildcard_weekday_matches; reflexivity.
  - intros zone.
    replace (CronParser.parseCronExpression "0 9 15 * MON")
      with (Ok {| CronParser.minute := [0]; CronParser.hour := [9];
                  CronParser.dayOfMonth := [15];
                  CronParser.month := CronParser.range 1 12;
                  CronParser.dayOfWeek := [1];
                  CronParser.isLastDayOfMonth := false |})
      by reflexivity.
    cbn [bind]. rewrite getNextCronOccurrence_utc_zone.
    vm_compute. reflexivity.
Qed.



(* ================================================================== *)
(** * The interval scheduler and the schedule router *)
(* ================================================================== *)

(** Goals about the fields of instants: unfold the getters and the units
    and leave the divisions to [lia]. *)
Ltac date_arith :=
  unfold JsDate.getUTCSeconds, JsDate.getUTCMinutes, JsDate.getUTCHours,
    JsDate.getSeconds, JsDate.getMinutes, JsDate.getHours,
    JsDate.getMilliseconds, JsDate.getUTCMilliseconds,
    JsDate.HourFromTime, JsDate.MinFromTime, JsDate.SecFromTime,
    JsDate.msFromTime, JsDate.LocalTime,
    JsDate.msPerDay, JsDate.msPerHour, JsDate.msPerMinute,
    JsDate.msPerSecond in *; cbn [JsDate.LocalTZA JsDate.fixed] in *; unfold
        JsDate.msPerMinute in *;
  Z.div_mod_to_equations; lia.

Ltac units :=
  unfold JsDate.msPerDay, JsDate.msPerHour, JsDate.msPerMinute,
    JsDate.msPerSecond in *.

Section IntervalFacts.

Import JsDate IntervalScheduler.

(** [Math.ceil(a / n) * n] is the least multiple of [n] that is not below
    [a]. *)
Lemma ceilDiv_next_multiple (a n : Z) :
  1 <= n ->
  a <= ceilDiv a n * n < a + n /\ (ceilDiv a n * n) mod n = 0.
Proof.
  intros Hn. unfold ceilDiv.
  assert (H := Z.div_mod (- a) n ltac:(lia)).
  assert (Hr := Z.mod_pos_bound (- a) n ltac:(lia)).
  split; [nia | apply Z.mod_mul; lia].
Qed.

Lemma aligned_seconds_value (offset every from : Z) (useUTC : bool) :
  1 <= every ->
  getAlignedInterval (JsDate.fixed offset) every seconds from useUTC
  = from - from mod msPerMinute + every * msPerSecond.
Proof.
  intros He. unfold getAlignedInterval, setUTCSeconds.
  rewrite setSeconds2_zero.
  set (next := from - LocalTime (JsDate.fixed offset) from mod msPerMinute).
  assert (Hcur :
      (if useUTC then getUTCSeconds next else getSeconds (JsDate.fixed offset)
          next) = 0).
  { subst next. destruct useUTC; date_arith. }
  rewrite Hcur.
  destruct (ceilDiv_next_multiple (0 + 1) every He) as [Hb Hm].
  assert (HM : ceilDiv (0 + 1) every * every = every).
  { apply Z.mod_divide in Hm; [|lia]. destruct Hm as [c Hc].
    rewrite Hc in *. assert (c = 1) by nia. subst c. lia. }
  rewrite HM.
  assert (H0 : getSeconds (JsDate.fixed 0) next = 0 /\ getSeconds
      (JsDate.fixed offset) next = 0
               /\ next = from - from mod msPerMinute).
  { subst next. repeat split; date_arith. }
  destruct H0 as (H0 & Hz & Hnext).
  destruct useUTC; rewrite setSeconds_shift; lia.
Qed.

Lemma LocalTime_0 (t : Z) : LocalTime (JsDate.fixed 0) t = t.
Proof. unfold LocalTime; cbn [JsDate.LocalTZA JsDate.fixed]. lia. Qed.

Lemma minute_floor (offset from : Z) :
  setSeconds2 (JsDate.fixed offset) from 0 0 = from - from mod msPerMinute.
Proof. rewrite setSeconds2_zero. date_arith. Qed.

Lemma MinFromTime_floor (t : Z) :
  MinFromTime (t - t mod msPerMinute) = MinFromTime t.
Proof. date_arith. Qed.

Lemma MinFromTime_plus_hours (t k : Z) :
  MinFromTime (t + k * msPerHour) = MinFromTime t.
Proof. date_arith. Qed.

Lemma HourFromTime_plus_days (t k : Z) :
  HourFromTime (t + k * msPerDay) = HourFromTime t.
Proof. date_arith. Qed.

Lemma aligned_minutes_value (offset every from : Z) (useUTC : bool) :
  let cur := currentMinute (JsDate.fixed offset) from useUTC in
  let alignedMin := ceilDiv (cur + 1) every * every in
  getAlignedInterval (JsDate.fixed offset) every minutes from useUTC
  = from - from mod msPerMinute
    + (if 60 <=? alignedMin
       then msPerHour + (alignedMin mod 60 - cur) * msPerMinute
       else (alignedMin - cur) * msPerMinute).
Proof.
  unfold getAlignedInterval, currentMinute, setUTCHours, setUTCMinutes.
  rewrite minute_floor.
  set (next := from - from mod msPerMinute).
  assert (Hcur :
      (if useUTC then getUTCMinutes next else getMinutes (JsDate.fixed offset)
          next)
                 = (if useUTC then getUTCMinutes from else getMinutes
                     (JsDate.fixed offset) from)).
  { subst next. destruct useUTC; date_arith. }
  rewrite Hcur. cbv zeta.
  set (cur := if useUTC then getUTCMinutes from else getMinutes
      (JsDate.fixed offset) from) in *.
  generalize (ceilDiv (cur + 1) every * every). intros M.
  destruct (60 <=? M); destruct useUTC;
    rewrite ?setHours_shift, ?setMinutes_shift;
    unfold getMinutes, getUTCMinutes, getHours, getUTCHours in *;
    rewrite ?LocalTime_0 in *.
  - replace (next + (HourFromTime next + 1 - HourFromTime next) * msPerHour)
      with (next + 1 * msPerHour) by lia.
    rewrite MinFromTime_plus_hours. units. lia.
  - replace (next + (HourFromTime (LocalTime (JsDate.fixed offset) next) + 1
                     - HourFromTime (LocalTime (JsDate.fixed offset) next)) *
                         msPerHour)
      with (next + 1 * msPerHour) by lia.
    replace (LocalTime (JsDate.fixed offset) (next + 1 * msPerHour))
      with (LocalTime (JsDate.fixed offset) next + 1 * msPerHour) by
          (unfold LocalTime; cbn [JsDate.LocalTZA JsDate.fixed]; lia).
    rewrite MinFromTime_plus_hours. units. lia.
  - units. lia.
  - units. lia.
Qed.

Lemma setUTCDate_shift (t k : Z) :
  setUTCDate t (getUTCDate t + k) = t + k * msPerDay.
Proof.
  assert (H := setDate_shift 0 t k).
  unfold getDate in H. rewrite LocalTime_0 in H. exact H.
Qed.

Lemma setUTCHours_shift (t h : Z) :
  setUTCHours t h = t + (h - getUTCHours t) * msPerHour.
Proof.
  unfold setUTCHours. rewrite setHours_shift.
  unfold getHours. rewrite LocalTime_0. reflexivity.
Qed.

Lemma setUTCMinutes_shift (t m : Z) :
  setUTCMinutes t m = t + (m - getUTCMinutes t) * msPerMinute.
Proof.
  unfold setUTCMinutes. rewrite setMinutes_shift.
  unfold getMinutes. rewrite LocalTime_0. reflexivity.
Qed.

Lemma aligned_hours_value (offset every from : Z) (useUTC : bool) :
  let cur := currentHour (JsDate.fixed offset) from useUTC in
  let alignedHour := ceilDiv (cur + 1) every * every in
  getAlignedInterval (JsDate.fixed offset) every hours from useUTC
  = hourStart (JsDate.fixed offset) from useUTC
    + (if 24 <=? alignedHour
       then msPerDay + (alignedHour mod 24 - cur) * msPerHour
       else (alignedHour - cur) * msPerHour).
Proof.
  unfold getAlignedInterval, currentHour, hourStart.
  rewrite minute_floor. cbv zeta.
  set (next := from - from mod msPerMinute).
  destruct useUTC.
  - rewrite setUTCMinutes_shift.
    set (h0 := next + (0 - getUTCMinutes next) * msPerMinute).
    assert (Hh0 : h0 = from - from mod msPerHour) by (subst h0 next; date_arith).
    assert (Hcur : getUTCHours h0 = getUTCHours from) by (rewrite Hh0; date_arith).
    rewrite Hcur. generalize (ceilDiv (getUTCHours from + 1) every * every).
    intros A. destruct (24 <=? A).
    + rewrite setUTCDate_shift, setUTCHours_shift.
      unfold getUTCHours in *. rewrite HourFromTime_plus_days, Hcur. lia.
    + rewrite setUTCHours_shift, Hcur. lia.
  - rewrite setMinutes_shift.
    set (h0 := next + (0 - getMinutes (JsDate.fixed offset) next) *
        msPerMinute).
    assert (Hh0 : h0 = from - (LocalTime (JsDate.fixed offset) from) mod
        msPerHour)
      by (subst h0 next; date_arith).
    assert (Hcur : getHours (JsDate.fixed offset) h0 = getHours
        (JsDate.fixed offset) from) by (rewrite Hh0; date_arith).
    rewrite Hcur. generalize
        (ceilDiv (getHours (JsDate.fixed offset) from + 1) every * every).
    intros A. destruct (24 <=? A).
    + rewrite setDate_shift, setHours_shift.
      unfold getHours in *.
      replace (LocalTime (JsDate.fixed offset) (h0 + 1 * msPerDay))
        with (LocalTime (JsDate.fixed offset) h0 + 1 * msPerDay) by
            (unfold LocalTime; cbn [JsDate.LocalTZA JsDate.fixed]; lia).
      rewrite HourFromTime_plus_days, Hcur. lia.
    + rewrite setHours_shift, Hcur. lia.
Qed.

Lemma aligned_days_value (offset every from : Z) (useUTC : bool) :
  getAlignedInterval (JsDate.fixed offset) every days from useUTC
  = dayStart (JsDate.fixed offset) from useUTC + every * msPerDay.
Proof.
  unfold getAlignedInterval, dayStart, setUTCHours4.
  rewrite minute_floor. cbv zeta.
  set (next := from - from mod msPerMinute).
  destruct useUTC.
  - rewrite setUTCDate_shift, setHours4_midnight.
    subst next. date_arith.
  - rewrite setDate_shift, setHours4_midnight.
    subst next. date_arith.
Qed.

(** A daily schedule that is accepted gives an instant after [from]. *)
Lemma daily_after_from (offset : Z) (at_ : string) (from : Z) (useUTC : bool)
    (next : Z) :
  getNextDailyTime (JsDate.fixed offset) at_ from useUTC = Ok next -> from <
      next.
Proof.
  unfold getNextDailyTime.
  destruct (matchAt at_) as [[hourStr minuteStr]|]; [|discriminate].
  destruct (JsString.parseInt hourStr) as [hour|]; [|discriminate].
  destruct (JsString.parseInt minuteStr) as [minute|]; [|discriminate].
  destruct ((hour <? 0) || (23 <? hour)) eqn:Hh; [discriminate|].
  destruct ((minute <? 0) || (59 <? minute)) eqn:Hm; [discriminate|].
  apply orb_false_iff in Hh as [Hh1 Hh2]. apply orb_false_iff in Hm as [Hm1 Hm2].
  apply Z.ltb_ge in Hh1, Hh2, Hm1, Hm2.
  unfold setUTCHours4.
  destruct useUTC.
  - rewrite setHours4_midnight.
    set (t := from - LocalTime (JsDate.fixed 0) from mod msPerDay + hour *
        msPerHour
              + minute * msPerMinute).
    destruct (t <=? from) eqn:Ht; intros H; injection H as <-.
    + rewrite setUTCDate_shift. subst t. date_arith.
    + apply Z.leb_gt in Ht. lia.
  - rewrite setHours4_midnight.
    set (t := from - LocalTime (JsDate.fixed offset) from mod msPerDay + hour *
        msPerHour
              + minute * msPerMinute).
    destruct (t <=? from) eqn:Ht; intros H; injection H as <-.
    + rewrite setDate_shift. subst t. date_arith.
    + apply Z.leb_gt in Ht. lia.
Qed.

End IntervalFacts.

Section NextInstant.

Import JsDate IntervalScheduler.

Lemma aligned_after_from (offset every from : Z) (unit : TimeUnit)
    (useUTC : bool) :
  1 <= every -> unit <> seconds ->
  from < getAlignedInterval (JsDate.fixed offset) every unit from useUTC.
Proof.
  intros He Hu. destruct unit; [congruence| | |].
  - rewrite aligned_minutes_value. cbv zeta.
    destruct (ceilDiv_next_multiple
        (currentMinute (JsDate.fixed offset) from useUTC + 1) every He)
      as [[Hlo _] _].
    revert Hlo. generalize
        (ceilDiv (currentMinute (JsDate.fixed offset) from useUTC + 1) every *
            every).
    intros M Hlo.
    assert (Hc : 0 <= currentMinute (JsDate.fixed offset) from useUTC < 60)
      by (unfold currentMinute; destruct useUTC; date_arith).
    destruct (60 <=? M); date_arith.
  - rewrite aligned_hours_value. cbv zeta.
    destruct (ceilDiv_next_multiple
        (currentHour (JsDate.fixed offset) from useUTC + 1) every He)
      as [[Hlo _] _].
    revert Hlo. generalize
        (ceilDiv (currentHour (JsDate.fixed offset) from useUTC + 1) every *
            every).
    intros A Hlo.
    assert (Hc : 0 <= currentHour (JsDate.fixed offset) from useUTC < 24)
      by (unfold currentHour; destruct useUTC; date_arith).
    unfold hourStart. destruct (24 <=? A); destruct useUTC; date_arith.
  - rewrite aligned_days_value. unfold dayStart.
    destruct useUTC; date_arith.
Qed.

(** Drift mode adds the length of the interval. *)
Lemma drift_interval_exact (offset now every : Z) (unit : TimeUnit)
    (aligned : option bool) (options : Scheduler.ScheduleOptions) :
  aligned = None \/ aligned = Some false ->
  Scheduler.getNextScheduledTime (JsDate.fixed offset) now
      (Scheduler.Every every unit aligned)
    options
  = Ok (now + every * match unit with
                      | seconds => 1000
                      | minutes => 60000
                      | hours => 3600000
                      | days => 86400000
                      end).
Proof.
  intros [-> | ->]; unfold Scheduler.getNextScheduledTime, getNextIntervalTime,
    getNextIntervalOccurrence, getDriftInterval, getIntervalMs, getTime;
    cbn [IntervalScheduler.aligned IntervalScheduler.every IntervalScheduler.unit];
    f_equal; destruct unit; lia.
Qed.

(** Every accepted schedule other than aligned seconds gives an instant
    strictly after [now]. *)
Lemma next_instant_after_now (offset now : Z) (schedule : Scheduler.Schedule)
    (options : Scheduler.ScheduleOptions) (next : Z) :
  match schedule with
  | Scheduler.Every every unit aligned =>
      1 <= every /\ ~ (unit = seconds /\ aligned = Some true)
  | _ => True
  end ->
  Scheduler.getNextScheduledTime (JsDate.fixed offset) now schedule options = Ok
      next ->
  now < next.
Proof.
  destruct schedule as [every unit aligned | cron | at_ |]; intros Hacc.
  - destruct Hacc as [He Hns].
    unfold Scheduler.getNextScheduledTime, getNextIntervalTime,
      getNextIntervalOccurrence.
    cbn [IntervalScheduler.aligned IntervalScheduler.every IntervalScheduler.unit].
    destruct aligned as [[|]|]; intros H; injection H as <-.
    + apply aligned_after_from; [assumption|]. intros ->. apply Hns. auto.
    + unfold getDriftInterval, getIntervalMs, getTime. destruct unit; lia.
    + unfold getDriftInterval, getIntervalMs, getTime. destruct unit; lia.
  - unfold Scheduler.getNextScheduledTime.
    destruct (CronParser.parseCronExpression cron) as [fields|e];
      [|discriminate].
    cbn [bind].
    unfold CronParser.getNextCronOccurrence. cbv zeta. rewrite search_start.
    set (useUTC := match Scheduler.utc options with Some b => b | None => false end).
    destruct (cronLoop_spec offset fields useUTC CronParser.MAX_ITERATIONS
                (CronParser.firstCandidate now))
      as [(k & _ & Hr & _) | [Hr _]]; rewrite Hr; intros H; [|discriminate].
    injection H as <-. unfold CronParser.firstCandidate.
    assert (Hm := Z.mod_pos_bound now msPerMinute ltac:(unfold msPerMinute; lia)).
    unfold msPerMinute in *. lia.
  - unfold Scheduler.getNextScheduledTime, getNextIntervalTime.
    apply daily_after_from.
  - discriminate.
Qed.

End NextInstant.

(** C5, at the input where the code departs from it.  For the accepted
    schedule [{ every: 5, unit: "seconds", aligned: true }] and the starting
    instant 2025-01-15T10:00:30.000Z in UTC mode, on every host whose zone
    keeps a constant offset, the computed next instant is
    2025-01-15T10:00:05.000Z, which is before the starting instant: the
    seconds are set to zero before the current second is read. *)
Theorem C5_aligned_seconds_not_after_from :
  forall offset,
    Scheduler.getNextScheduledTime (JsDate.fixed offset)
        (JsDate.dateUTC 2025 0 15 10 0 30 0)
      (Scheduler.Every 5 IntervalScheduler.seconds (Some true))
      {| Scheduler.utc := Some true |}
    = Ok (JsDate.dateUTC 2025 0 15 10 0 5 0)
    /\ JsDate.dateUTC 2025 0 15 10 0 5 0 < JsDate.dateUTC 2025 0 15 10 0 30 0.
Proof.
  intros offset. split; [|reflexivity].
  unfold Scheduler.getNextScheduledTime, IntervalScheduler.getNextIntervalTime,
    IntervalScheduler.getNextIntervalOccurrence.
  cbn [IntervalScheduler.aligned IntervalScheduler.every IntervalScheduler.unit
       Scheduler.utc].
  rewrite aligned_seconds_value by lia. reflexivity.
Qed.

Section AlignedMinutes.

Import JsDate IntervalScheduler.

Lemma minute_start_is_hour_start (offset from : Z) (useUTC : bool) :
  from - from mod msPerMinute
  = hourStart (JsDate.fixed offset) from useUTC + currentMinute
      (JsDate.fixed offset) from useUTC * msPerMinute.
Proof. unfold hourStart, currentMinute. destruct useUTC; date_arith. Qed.

(** The fields, in the chosen zone, of an instant [m] whole minutes into an
    hour that starts at [hourStart]. *)
Lemma fields_within_hour (offset from m c : Z) (useUTC : bool) :
  0 <= m < 60 ->
  let next := hourStart (JsDate.fixed offset) from useUTC + c * msPerHour + m *
      msPerMinute in
  currentMinute (JsDate.fixed offset) next useUTC = m
  /\ (if useUTC then getUTCSeconds next else getSeconds (JsDate.fixed offset)
      next) = 0
  /\ (if useUTC then getUTCMilliseconds next else getMilliseconds
      (JsDate.fixed offset) next) = 0.
Proof.
  intros Hm. unfold hourStart, currentMinute. destruct useUTC; cbv zeta.
  - repeat split; date_arith.
  - repeat split; date_arith.
Qed.

Lemma multiple_mod_60 (every M : Z) :
  1 <= every -> M mod every = 0 -> 60 mod every = 0 ->
  (M mod 60) mod every = 0.
Proof.
  intros He HM H60.
  apply Z.mod_divide in HM; [|lia]. apply Z.mod_divide in H60; [|lia].
  apply Z.mod_divide; [lia|].
  rewrite Z.mod_eq by lia.
  apply Z.divide_sub_r; [assumption|].
  apply Z.divide_mul_l. assumption.
Qed.

End AlignedMinutes.

(** C6, as the code has it, on a host whose zone keeps a constant offset
    from UTC.  For [{ every: N, unit: "minutes", aligned: true }] with [N]
    a positive integer and every starting instant, let [M] be the next
    multiple of [N] strictly greater than the current minute.  The
    computed next instant has seconds = 0 and milliseconds = 0 in the
    chosen zone; when [M] is below 60 it lies [M] minutes into the current
    hour, and otherwise [M mod 60] minutes into the next hour; so its
    minute of the hour is [M mod 60], within 0..59.  That minute is a
    multiple of [N] when [M] is below 60 or [N] divides 60.  (Where the
    clocks of the host change, the local [setSeconds(0, 0)] that the code
    starts with can leave the current hour: see
    [aligned_minutes_where_the_clocks_go_back].) *)
Theorem C6_aligned_minutes (offset every from : Z) (useUTC : bool) :
  1 <= every ->
  let next :=
    IntervalScheduler.getAlignedInterval (JsDate.fixed offset) every
        IntervalScheduler.minutes
      from useUTC in
  let cur := IntervalScheduler.currentMinute (JsDate.fixed offset) from useUTC in
  let alignedMin := IntervalScheduler.ceilDiv (cur + 1) every * every in
  (alignedMin mod every = 0 /\ cur < alignedMin <= cur + every)
  /\ next = IntervalScheduler.hourStart (JsDate.fixed offset) from useUTC
            + (if 60 <=? alignedMin
               then JsDate.msPerHour + (alignedMin mod 60) * JsDate.msPerMinute
               else alignedMin * JsDate.msPerMinute)
  /\ (if useUTC then JsDate.getUTCSeconds next
      else JsDate.getSeconds (JsDate.fixed offset) next) = 0
  /\ (if useUTC then JsDate.getUTCMilliseconds next
      else JsDate.getMilliseconds (JsDate.fixed offset) next) = 0
  /\ IntervalScheduler.currentMinute (JsDate.fixed offset) next useUTC =
      alignedMin mod 60
  /\ 0 <= IntervalScheduler.currentMinute (JsDate.fixed offset) next useUTC < 60
  /\ (alignedMin < 60 \/ 60 mod every = 0 ->
      (IntervalScheduler.currentMinute (JsDate.fixed offset) next useUTC) mod
          every = 0).
Proof.
  intros He. cbv zeta.
  rewrite aligned_minutes_value. cbv zeta.
  rewrite (minute_start_is_hour_start offset from useUTC).
  set (cur := IntervalScheduler.currentMinute (JsDate.fixed offset) from
      useUTC).
  destruct (ceilDiv_next_multiple (cur + 1) every He) as [[Hlo Hhi] Hmod].
  set (M := IntervalScheduler.ceilDiv (cur + 1) every * every) in *.
  assert (Hc : 0 <= cur < 60).
  { subst cur. unfold IntervalScheduler.currentMinute, JsDate.getUTCMinutes,
      JsDate.getMinutes, JsDate.MinFromTime.
    destruct useUTC; apply Z.mod_pos_bound; lia. }
  assert (H60 := Z.mod_pos_bound M 60 ltac:(lia)).
  assert (Hnext :
    IntervalScheduler.hourStart (JsDate.fixed offset) from useUTC + cur *
        JsDate.msPerMinute
    + (if 60 <=? M
       then JsDate.msPerHour + (M mod 60 - cur) * JsDate.msPerMinute
       else (M - cur) * JsDate.msPerMinute)
    = IntervalScheduler.hourStart (JsDate.fixed offset) from useUTC
      + (if 60 <=? M then 1 else 0) * JsDate.msPerHour
      + (M mod 60) * JsDate.msPerMinute).
  { destruct (60 <=? M) eqn:E.
    - lia.
    - apply Z.leb_gt in E. rewrite (Z.mod_small M 60) by lia. lia. }
  rewrite Hnext.
  destruct (fields_within_hour offset from (M mod 60)
      (if 60 <=? M then 1 else 0)
              useUTC H60) as (Hmin & Hsec & Hms).
  split; [split; [assumption | lia]|].
  split.
  { destruct (60 <=? M) eqn:E.
    - lia.
    - apply Z.leb_gt in E. rewrite (Z.mod_small M 60) by lia. lia. }
  split; [assumption|]. split; [assumption|]. split; [assumption|].
  split; [rewrite Hmin; assumption|].
  rewrite Hmin. intros [Hlt | Hdiv].
  - rewrite (Z.mod_small M 60) by lia. assumption.
  - apply multiple_mod_60; assumption.
Qed.

(** C6 at [{ every: 15, unit: "minutes", aligned: true }] from
    2025-01-15T10:07:30Z in UTC mode: the next instant is 10:15:00.000. *)
Lemma C6_aligned_minutes_witness :
  1 <= 15
  /\ IntervalScheduler.getAlignedInterval (JsDate.fixed 0) 15
      IntervalScheduler.minutes
       (JsDate.dateUTC 2025 0 15 10 7 30 0) true
     = IntervalScheduler.hourStart (JsDate.fixed 0)
         (JsDate.dateUTC 2025 0 15 10 7 30 0) true
       + 15 * JsDate.msPerMinute.
Proof.
  split; [lia|].
  exact (proj1 (proj2 (C6_aligned_minutes 0 15
                         (JsDate.dateUTC 2025 0 15 10 7 30 0) true
                         ltac:(lia)))).
Defined.

(** C6 as stated fails: for [{ every: 7, unit: "minutes", aligned: true }]
    from 2025-01-15T10:58:00Z in UTC mode the next instant is 11:03, and 3
    is not a multiple of 7. *)
Lemma C6_counterexample :
  let next :=
    IntervalScheduler.getAlignedInterval (JsDate.fixed 0) 7
        IntervalScheduler.minutes
      (JsDate.dateUTC 2025 0 15 10 58 0 0) true in
  next = JsDate.dateUTC 2025 0 15 11 3 0 0
  /\ JsDate.getUTCMinutes next = 3
  /\ (JsDate.getUTCMinutes next) mod 7 <> 0.
Proof. vm_compute. repeat split; discriminate. Qed.

(** The hour that occurs twice.  On a New York host, in UTC mode,
    [{ every: 15, unit: "minutes", aligned: true }] from
    2025-11-02T06:30:15Z (01:30:15 local time, for the second time) gives
    2025-11-02T05:45:00Z, which is before [from]: the local
    [setSeconds(0, 0)] goes back to the first 01:30:00.  On a host that
    keeps UTC the same call gives 06:45:00Z. *)
Example aligned_minutes_where_the_clocks_go_back :
  let from := JsDate.dateUTC 2025 10 2 6 30 15 0 in
  IntervalScheduler.getAlignedInterval Sample.newYork 15
    IntervalScheduler.minutes from true
  = JsDate.dateUTC 2025 10 2 5 45 0 0
  /\ IntervalScheduler.getAlignedInterval (JsDate.fixed 0) 15
       IntervalScheduler.minutes from true
     = JsDate.dateUTC 2025 10 2 6 45 0 0.
Proof. vm_compute. split; reflexivity. Qed.

(* ================================================================== *)
(** * The scheduling loop of scheduler.ts *)
(* ================================================================== *)

Section SchedulerLoop.

Import Scheduler.

Variable zone : JsDate.Zone.
Variable schedule : Schedule.
Variable fn : Z -> option Thrown.
Variable options : ScheduleOptions.

Lemma scheduleNext_alive (now : Z) (st : State) :
  done st = false -> Timers.pending (timers st) = [] ->
  alive zone schedule options (scheduleNext zone schedule options now st).
Proof.
  intros Hd Hp. unfold scheduleNext, alive, armedAsScheduled. rewrite Hd.
  destruct (getNextScheduledTime zone now schedule options) as [nextRun|e] eqn:Hn.
  - unfold JsDate.getTime.
    destruct (nextRun - now <=? 0) eqn:Hdelay.
    + cbn. rewrite Hp. split; [reflexivity|].
      eexists. split; [reflexivity|]. cbn. rewrite Hn.
      replace (nextRun <=? now) with true by (symmetry; apply Z.leb_le; apply Z.leb_le in Hdelay; lia).
      split; reflexivity.
    + cbn. rewrite Hp. split; [reflexivity|].
      eexists. split; [reflexivity|]. cbn. rewrite Hn.
      apply Z.leb_gt in Hdelay.
      replace (nextRun <=? now) with false by (symmetry; apply Z.leb_gt; lia).
      split; [reflexivity|]. f_equal.
      unfold maxDelay. destruct (Z.min (nextRun - now) 2147483647 <? nextRun - now) eqn:E1;
        destruct (2147483647 <? nextRun - now) eqn:E2; try reflexivity;
        rewrite ?Z.ltb_lt, ?Z.ltb_ge in *; lia.
  - cbn. rewrite Hp. split; [reflexivity|].
    eexists. split; [reflexivity|]. cbn. rewrite Hn. split; reflexivity.
Qed.

Lemma tick_alive (late : Z) (st : State) :
  alive zone schedule options st -> alive zone schedule options
      (tick zone schedule fn options late st).
Proof.
  intros [Hd (p & Hp & _)]. unfold tick. rewrite Hp. cbn [Timers.earliest].
  unfold runClosure. cbn [done timers events currentTimer].
  assert (Hq : Timers.pending (Timers.clearTimeout (timers st) (Timers.timerId p)) = []).
  { unfold Timers.clearTimeout. cbn. rewrite Hp. cbn. rewrite Nat.eqb_refl. reflexivity. }
  rewrite Hd. cbn [negb].
  destruct (Timers.callback p) as [|nextRun needsReschedule].
  - apply scheduleNext_alive; [reflexivity | exact Hq].
  - destruct needsReschedule.
    + apply scheduleNext_alive; [reflexivity | exact Hq].
    + destruct (fn _); apply scheduleNext_alive; solve [reflexivity | exact Hq].
Qed.

Lemma ticks_alive (lates : list Z) :
  forall st, alive zone schedule options st -> alive zone schedule options
      (ticks zone schedule fn options lates st).
Proof.
  induction lates as [|late lates IH]; intros st H.
  - exact H.
  - cbn. apply IH, tick_alive, H.
Qed.

Lemma scheduleJob_alive (now : Z) :
  alive zone schedule options (scheduleJob zone schedule options now).
Proof. apply scheduleNext_alive; reflexivity. Qed.

(** [scheduleNext] and the closures never set [done]. *)
Lemma scheduleNext_keeps_done (now : Z) (st : State) :
  done (scheduleNext zone schedule options now st) = done st.
Proof.
  unfold scheduleNext. destruct (done st) eqn:E; [exact E|].
  destruct (getNextScheduledTime _ _ _ _); [|reflexivity].
  destruct (_ <=? 0); reflexivity.
Qed.

Lemma tick_keeps_done (late : Z) (st : State) :
  done (tick zone schedule fn options late st) = done st.
Proof.
  unfold tick. destruct (Timers.earliest _) as [p|]; [|reflexivity].
  unfold runClosure. cbn [done].
  destruct (Timers.callback p) as [|nextRun needsReschedule].
  - destruct (done st) eqn:E; cbn [negb]; [reflexivity|].
    rewrite scheduleNext_keeps_done. reflexivity.
  - destruct (done st) eqn:E; [reflexivity|].
    destruct needsReschedule; [rewrite scheduleNext_keeps_done; reflexivity|].
    destruct (fn _); rewrite scheduleNext_keeps_done; reflexivity.
Qed.




End SchedulerLoop.



Example scheduleJob_run :
  let st :=
    Scheduler.ticks (JsDate.fixed 0)
        (Scheduler.Every 15 IntervalScheduler.minutes (Some true))
      (fun _ => None) {| Scheduler.utc := Some true |} [3; 0]
      (Scheduler.scheduleJob (JsDate.fixed 0)
         (Scheduler.Every 15 IntervalScheduler.minutes (Some true))
         {| Scheduler.utc := Some true |}
         (JsDate.dateUTC 2025 0 15 10 7 30 0)) in
  Scheduler.events st
  = [Scheduler.Executed (JsDate.dateUTC 2025 0 15 10 15 0 0);
     Scheduler.Executed (JsDate.dateUTC 2025 0 15 10 30 0 0)]
  /\ Scheduler.done st = false
  /\ map Timers.delay (Timers.pending (Scheduler.timers st)) = [900000].
Proof. vm_compute. repeat split. Qed.

Example scheduleJob_retries_a_bad_schedule :
  let st :=
    Scheduler.ticks (JsDate.fixed 0) (Scheduler.Cron "every night")
        (fun _ => None)
      {| Scheduler.utc := Some true |} [0; 0; 0]
      (Scheduler.scheduleJob (JsDate.fixed 0) (Scheduler.Cron "every night")
         {| Scheduler.utc := Some true |} 0) in
  List.length (Scheduler.events st) = 4%nat
  /\ Scheduler.done st = false
  /\ map Timers.delay (Timers.pending (Scheduler.timers st)) = [5000]
  /\ map Timers.armedAt (Timers.pending (Scheduler.timers st)) = [15000].
Proof. vm_compute. repeat split. Qed.

(* ================================================================== *)
(** * The circuit breaker of timerManager.ts *)
(* ================================================================== *)

Section CircuitBreaker.

Import TimerManager.

Variable zone : JsDate.Zone.
Variable getNextTime : nat -> Z -> NextTime.
Variable execute : Z -> option Thrown.
Variable options : TimerOptions.

Hypothesis always_fails :
  forall calls now, failsValidation (getNextTime calls now) now = true.

Hypothesis observers_return : observersReturn options.

Lemma attempts_app (l l' : list Event) :
  attempts (l ++ l') = (attempts l + attempts l')%nat.
Proof. unfold attempts. rewrite filter_app, length_app. reflexivity. Qed.

Lemma errorsReported_app (l l' : list Event) :
  errorsReported (l ++ l') = (errorsReported l + errorsReported l')%nat.
Proof. unfold errorsReported. rewrite filter_app, length_app. reflexivity. Qed.

Lemma circuitBreaks_app (l l' : list Event) :
  circuitBreaks (l ++ l') = (circuitBreaks l + circuitBreaks l')%nat.
Proof. unfold circuitBreaks. rewrite filter_app, length_app. reflexivity. Qed.

Lemma executions_app (l l' : list Event) :
  executions (l ++ l') = (executions l + executions l')%nat.
Proof. unfold executions. rewrite filter_app, length_app. reflexivity. Qed.


Lemma uncaught_app (l l' : list Event) :
  uncaught (l ++ l') = uncaught l ++ uncaught l'.
Proof. unfold uncaught. apply flat_map_app. Qed.









End CircuitBreaker.




Example circuit_breaker_run :
  let options :=
    {| TimerManager.maxConsecutiveFailures := None;
       TimerManager.onCircuitBreak := Some (fun _ => None);
       TimerManager.onSchedule := None;
       TimerManager.onError := Some (fun _ => None) |} in
  let getNextTime := fun (_ : nat) (_ : Z) => TimerManager.ReturnsInvalidDate in
  let st :=
    TimerManager.ticks (JsDate.fixed 0) getNextTime (fun _ => None) options
      [0; 7; 0; 0]
      (fst (TimerManager.scheduleRecurring getNextTime options 1000)) in
  TimerManager.events st
  = [TimerManager.CalledGetNextTime 1000;
     TimerManager.CalledOnError (newError "getNextTime returned invalid date");
     TimerManager.Armed 10;
     TimerManager.CalledGetNextTime 1010;
     TimerManager.CalledOnError (newError "getNextTime returned invalid date");
     TimerManager.Armed 20;
     TimerManager.CalledGetNextTime 1037;
     TimerManager.CalledOnError (newError "getNextTime returned invalid date");
     TimerManager.CalledOnCircuitBreak
       (newError "Timer circuit breaker tripped after 3 consecutive failures. Last error: getNextTime returned invalid date")]
  /\ TimerManager.done st = true.
Proof. vm_compute. split; reflexivity. Qed.

Example recurring_run :
  let options :=
    {| TimerManager.maxConsecutiveFailures := None;
       TimerManager.onCircuitBreak := Some (fun _ => None);
       TimerManager.onSchedule := Some (fun _ => None);
       TimerManager.onError := Some (fun _ => None) |} in
  let getNextTime := fun (_ : nat) (now : Z) => TimerManager.ReturnsDate (now + 1500) in
  let st :=
    TimerManager.ticks (JsDate.fixed 0) getNextTime (fun _ => None) options
      [0; 2]
      (fst (TimerManager.scheduleRecurring getNextTime options 1000)) in
  TimerManager.events st
  = [TimerManager.CalledGetNextTime 1000; TimerManager.CalledOnSchedule 2500;
     TimerManager.Armed 1500; TimerManager.CalledExecute 2000;
     TimerManager.CalledGetNextTime 2500; TimerManager.CalledOnSchedule 4000;
     TimerManager.Armed 1500; TimerManager.CalledExecute 4000;
     TimerManager.CalledGetNextTime 4002; TimerManager.CalledOnSchedule 5502;
     TimerManager.Armed 1500].
Proof. vm_compute. reflexivity. Qed.

(* ================================================================== *)
(** * The executor of jobExecutor.ts *)
(* ================================================================== *)

Section ExecutorFacts.

Import JobExecutor.






(** On normal completion the result is a success, not timed out, and
    [onTimeout] is not called. *)
Lemma executeWithTimeout_success (late : Z) (job : JobFunction)
    (intendedAt : Z) (jobName : string) (options : ExecutorOptions)
    (r : ExecutionResult) (calls : list Z) :
  executeWithTimeout late job intendedAt jobName options = Some (Ok r, calls) ->
  success r = true ->
  timedOut r = false /\ error r = None /\ result_ r <> None /\ calls = [].
Proof.
  unfold executeWithTimeout.
  destruct (match timeout options with
            | Some t => if 0 <? t
                        then Some (executeWithTimeoutLimit late
                                     (job intendedAt jobName) t jobName)
                        else awaitJob (job intendedAt jobName)
            | None => awaitJob (job intendedAt jobName)
            end) as [[d [v|e]]|]; [| |discriminate].
  - intros H _. injection H as <- <-. repeat split. discriminate.
  - destruct (JsString.includes _ _);
      [destruct (onTimeout options) as [callback|];
       [destruct (callback d)|]|];
      intros H; try discriminate H; injection H as <- <-; discriminate.
Qed.

(** On a thrown error the result is a failure carrying the error; it is
    marked timed out, and [onTimeout] is called (once, when given), exactly
    when the error's message contains "timed out". *)
Lemma executeWithTimeout_failure (late : Z) (job : JobFunction)
    (intendedAt : Z) (jobName : string) (options : ExecutorOptions)
    (r : ExecutionResult) (calls : list Z) :
  executeWithTimeout late job intendedAt jobName options = Some (Ok r, calls) ->
  success r = false ->
  exists err,
    error r = Some err
    /\ timedOut r = JsString.includes "timed out" (message err)
    /\ calls = (if timedOut r && given (onTimeout options)
                then [duration r] else []).
Proof.
  unfold executeWithTimeout.
  destruct (match timeout options with
            | Some t => if 0 <? t
                        then Some (executeWithTimeoutLimit late
                                     (job intendedAt jobName) t jobName)
                        else awaitJob (job intendedAt jobName)
            | None => awaitJob (job intendedAt jobName)
            end) as [[d [v|e]]|]; [| |discriminate].
  - intros H. injection H as <- <-. discriminate.
  - destruct (JsString.includes "timed out" (message (toError e))) eqn:Hinc;
      [destruct (onTimeout options) as [callback|];
       [destruct (callback d)|]|];
      intros H _; try discriminate H; injection H as <- <-;
      exists (toError e); cbn; rewrite Hinc; repeat split.
Qed.



End ExecutorFacts.

(** C4, at the input where the code departs from it.  A job that throws an
    ordinary error whose message happens to contain "timed out", run with
    no timeout configured, is reported with [timedOut = true] and
    [onTimeout] is called: the code recognises the timeout signal by the
    text of the message alone. *)
Theorem C4_ordinary_error_reported_as_timeout :
  forall late : Z,
  let job : JobFunction :=
    fun _ _ => ThrowsSync 5 (newError "upstream request timed out") in
  let options :=
    {| JobExecutor.timeout := None;
       JobExecutor.onTimeout := Some (fun _ => None) |} in
  JobExecutor.executeWithTimeout late job 0 "sync-orders" options
  = Some (Ok {| JobExecutor.success := false;
                JobExecutor.result_ := None;
                JobExecutor.error :=
                  Some (newError "upstream request timed out");
                JobExecutor.duration := 5;
                JobExecutor.timedOut := true |}, [5]).
Proof. reflexivity. Qed.

(* ================================================================== *)
(** * The coordinator and the registry of SyncedCron.ts *)
(* ================================================================== *)

Section CoordinatorFacts.

Import SyncedCron.

Lemma isDuplicateKey_code (e : Thrown) :
  isDuplicateKey e = true <->
  exists text, e = ThrownError text (Some 11000)
               \/ e = ThrownObject text (Some 11000).
Proof.
  split.
  - destruct e as [m [c|] | t [c|] | t]; cbn; try discriminate;
      intros H; apply Z.eqb_eq in H; subst; eexists; eauto.
  - intros [text [-> | ->]]; reflexivity.
Qed.

(** The unique index refuses a second document with the same
    [(intendedAt, name)] with a duplicate-key error. *)
Lemma mongo_insert_duplicate (s : Mongo.Store) (doc : JobHistory.t) :
  existsb (Mongo.sameKey doc) (Mongo.docs s) = true ->
  Mongo.insert s doc = (s, Throw Mongo.duplicateKey)
  /\ isDuplicateKey Mongo.duplicateKey = true.
Proof.
  intros H. unfold Mongo.insert. rewrite H. split; reflexivity.
Qed.

End CoordinatorFacts.

(** C1.  A firing of a job with [persist = true] whose history insert,
    keyed by [(name, intendedAt)], fails with a duplicate-key error (an
    object whose [code] is 11000) is skipped: the promise of [executeJob]
    resolves, and all that happened is the insert attempt and one debug log
    line; the job body was not called, no update was sent, [onError] was not
    called, and the store is as the failed insert left it. *)
Theorem C1_duplicate_key_skips_firing
    (S : Type) (collection : Collection S)
    (stack : Thrown -> option string) (now : Z) (entry : JobEntry.t)
    (intendedAt : Z) (db db' : S) (e : Thrown) :
  JobEntry.persist entry = true ->
  insertAsync collection db
    (SyncedCron.newHistory (JobEntry.name entry) intendedAt now)
  = (db', Throw e) ->
  SyncedCron.isDuplicateKey e = true ->
  SyncedCron.executeJob collection stack true now entry intendedAt db
  = (db',
     [SyncedCron.CalledInsert
        (SyncedCron.newHistory (JobEntry.name entry) intendedAt now);
      SyncedCron.Logged SyncedCron.debug
        ("SyncedCron: Skipping " ++ CronParser.quoted (JobEntry.name entry)
         ++ " - already running elsewhere")],
     SyncedCron.Resolved tt).
Proof.
  intros Hpersist Hinsert Hdup.
  unfold SyncedCron.executeJob. cbn [negb].
  rewrite Hpersist, Hinsert, Hdup. reflexivity.
Qed.

(** C1 on a store that already holds the history record of the firing: the
    job (which would throw) is not run. *)
Lemma C1_duplicate_key_skips_firing_witness :
  let entry :=
    {| JobEntry.name := "report";
       JobEntry.schedule := Scheduler.Every 1 IntervalScheduler.seconds None;
       JobEntry.job := fun _ _ => ThrowsSync 1 (newError "boom");
       JobEntry.persist := true;
       JobEntry.onError := Some (fun _ _ => (0, None));
       JobEntry.timer := None;
       JobEntry.paused := None |} in
  let db :=
    fst (Mongo.insert Mongo.emptyStore
           (SyncedCron.newHistory "report" 1736503200000 1736503200004)) in
  JobEntry.persist entry = true
  /\ insertAsync Mongo.collection db
       (SyncedCron.newHistory "report" 1736503200000 1736503200009)
     = (db, Throw Mongo.duplicateKey)
  /\ SyncedCron.isDuplicateKey Mongo.duplicateKey = true
  /\ SyncedCron.executeJob Mongo.collection Sample.stack true 1736503200009
      entry
       1736503200000 db
     = (db,
        [SyncedCron.CalledInsert
           (SyncedCron.newHistory "report" 1736503200000 1736503200009);
         SyncedCron.Logged SyncedCron.debug
           ("SyncedCron: Skipping " ++ CronParser.quoted "report"
            ++ " - already running elsewhere")],
        SyncedCron.Resolved tt).
Proof.
  cbv zeta.
  split; [reflexivity|]. split; [reflexivity|]. split; [reflexivity|].
  apply (C1_duplicate_key_skips_firing Mongo.Store Mongo.collection)
    with (e := Mongo.duplicateKey); reflexivity.
Defined.

Example executeJob_runs_and_records :
  let entry :=
    {| JobEntry.name := "report";
       JobEntry.schedule := Scheduler.Every 1 IntervalScheduler.seconds None;
       JobEntry.job := fun _ _ => Resolves 40 (Str "done");
       JobEntry.persist := true;
       JobEntry.onError := None;
       JobEntry.timer := None;
       JobEntry.paused := None |} in
  let '(db, events, outcome) :=
    SyncedCron.executeJob Mongo.collection Sample.stack true 5000 entry 4000
      Mongo.emptyStore in
  outcome = SyncedCron.Resolved tt
  /\ Mongo.docs db
     = [{| JobHistory._id := Some "id0"; JobHistory.name := "report";
           JobHistory.intendedAt := 4000; JobHistory.startedAt := 5000;
           JobHistory.finishedAt := Some 5040;
           JobHistory.result_ := Some (Str "done");
           JobHistory.error := None |}]
  /\ List.length events = 5%nat.
Proof. vm_compute. repeat split. Qed.

Section RegistryFacts.

Import SyncedCron.

Lemma get_set (entries : list (string * JobEntry.t)) (k : string)
    (v : JobEntry.t) :
  get (set entries k v) k = Some v.
Proof.
  induction entries as [|[k' v'] rest IH]; cbn.
  - rewrite String.eqb_refl. reflexivity.
  - destruct (String.eqb k' k) eqn:E; cbn.
    + rewrite String.eqb_refl. reflexivity.
    + rewrite E. exact IH.
Qed.

Lemma set_set (entries : list (string * JobEntry.t)) (k : string)
    (v v' : JobEntry.t) :
  set (set entries k v) k v' = set entries k v'.
Proof.
  induction entries as [|[k0 v0] rest IH]; cbn.
  - rewrite String.eqb_refl. reflexivity.
  - destruct (String.eqb k0 k) eqn:E; cbn.
    + rewrite String.eqb_refl. reflexivity.
    + rewrite E, IH. reflexivity.
Qed.

(** A schedule whose next run cannot be computed starts a loop that waits
    5000 ms to retry. *)
Lemma scheduleJob_of_failing_schedule (zone : JsDate.Zone) (now : Z)
    (schedule : Scheduler.Schedule) (options : Scheduler.ScheduleOptions)
    (e : Thrown) :
  Scheduler.getNextScheduledTime zone now schedule options = Throw e ->
  Scheduler.scheduleJob zone schedule options now
  = {| Scheduler.done := false;
       Scheduler.currentTimer := None;
       Scheduler.timers :=
         {| Timers.pending :=
              [{| Timers.timerId := 0; Timers.armedAt := now;
                  Timers.delay := 5000; Timers.callback := Scheduler.Retry |}];
            Timers.nextTimerId := 1 |};
       Scheduler.events :=
         [Scheduler.ConsoleError "Error scheduling job:" e] |}.
Proof.
  intros H. unfold Scheduler.scheduleJob, Scheduler.scheduleNext.
  cbn [Scheduler.done]. rewrite H. reflexivity.
Qed.

End RegistryFacts.

(** C9, as the code has it.  [add] does not validate the schedule.  For a
    config with a fresh name whose next run cannot be computed (an
    ill-formed cron expression or [at] string among others): on an instance
    that is not running, [add] registers the job and succeeds, no parse
    being attempted; on a running instance [add] fails with the error of
    the parse, after it has registered the job and started its scheduling
    loop, which waits 5000 ms to retry. *)
Theorem C9_add_does_not_validate
    (zone : JsDate.Zone) (now : Z) (inst : SyncedCron.Instance)
        (config : JobConfig.t)
    (e : Thrown) :
  SyncedCron.has (SyncedCron.entries inst) (JobConfig.name config) = false ->
  Scheduler.getNextScheduledTime zone now (JobConfig.schedule config)
    {| Scheduler.utc := Some (SyncedCron.utc inst) |} = Throw e ->
  let entry := SyncedCron.entryOf config in
  let timer_ :=
    Scheduler.scheduleJob zone (JobConfig.schedule config)
      {| Scheduler.utc := Some (SyncedCron.utc inst) |} now in
  (SyncedCron.running inst = false ->
   SyncedCron.add zone now inst config
   = (SyncedCron.setEntry inst entry, SyncedCron.Resolved tt)
   /\ SyncedCron.get
        (SyncedCron.entries (fst (SyncedCron.add zone now inst config)))
        (JobConfig.name config) = Some entry)
  /\ (SyncedCron.running inst = true ->
      SyncedCron.add zone now inst config
      = (SyncedCron.setEntry inst (SyncedCron.withTimer entry timer_),
         SyncedCron.Rejected e)
      /\ SyncedCron.get
           (SyncedCron.entries (fst (SyncedCron.add zone now inst config)))
           (JobConfig.name config)
         = Some (SyncedCron.withTimer entry timer_)
      /\ Scheduler.done timer_ = false
      /\ Timers.pending (Scheduler.timers timer_)
         = [{| Timers.timerId := 0; Timers.armedAt := now;
               Timers.delay := 5000; Timers.callback := Scheduler.Retry |}]).
Proof.
  intros Hfresh Hthrow. cbv zeta.
  split; intros Hrun.
  - assert (Hadd : SyncedCron.add zone now inst config
                   = (SyncedCron.setEntry inst (SyncedCron.entryOf config),
                      SyncedCron.Resolved tt)).
    { unfold SyncedCron.add. rewrite Hfresh.
      cbn [SyncedCron.running SyncedCron.setEntry]. rewrite Hrun. reflexivity. }
    split; [exact Hadd|]. rewrite Hadd.
    cbn [fst SyncedCron.setEntry SyncedCron.entries SyncedCron.entryOf
         JobEntry.name].
    apply get_set.
  - assert (Hadd : SyncedCron.add zone now inst config
                   = (SyncedCron.setEntry inst
                        (SyncedCron.withTimer (SyncedCron.entryOf config)
                           (Scheduler.scheduleJob zone (JobConfig.schedule config)
                              {| Scheduler.utc := Some (SyncedCron.utc inst) |} now)),
                      SyncedCron.Rejected e)).
    { unfold SyncedCron.add. rewrite Hfresh.
      cbn [SyncedCron.running SyncedCron.setEntry]. rewrite Hrun.
      unfold SyncedCron.scheduleEntry.
      cbn [SyncedCron.isPaused SyncedCron.entryOf JobEntry.paused
           JobEntry.schedule SyncedCron.utc SyncedCron.setEntry
           SyncedCron.withTimer JobEntry.name SyncedCron.entries
           SyncedCron.initialized SyncedCron.running SyncedCron.logs].
      rewrite Hthrow. unfold SyncedCron.setEntry.
      cbn [SyncedCron.entries SyncedCron.utc SyncedCron.initialized
           SyncedCron.running SyncedCron.logs SyncedCron.withTimer
           SyncedCron.entryOf JobEntry.name].
      rewrite set_set. reflexivity. }
    split; [exact Hadd|]. rewrite Hadd.
    split.
    { cbn [fst SyncedCron.setEntry SyncedCron.entries SyncedCron.entryOf
           SyncedCron.withTimer JobEntry.name].
      apply get_set. }
    rewrite (scheduleJob_of_failing_schedule zone now _ _ e Hthrow).
    split; reflexivity.
Qed.

(** C9 on an instance that is not running and on one that is, for the
    config [{ name: "nightly", schedule: { cron: "every night" } }]. *)
Lemma C9_add_does_not_validate_witness :
  let config :=
    {| JobConfig.name := "nightly";
       JobConfig.schedule := Scheduler.Cron "every night";
       JobConfig.job := fun _ _ => Returns 0 Undefined;
       JobConfig.persist := None;
       JobConfig.onError := None |} in
  let inst := SyncedCron.newSyncedCron true in
  SyncedCron.has (SyncedCron.entries inst) (JobConfig.name config) = false
  /\ Scheduler.getNextScheduledTime (JsDate.fixed 0) 1736503200000
       (JobConfig.schedule config)
       {| Scheduler.utc := Some (SyncedCron.utc inst) |}
     = Throw (newError
                ("Invalid cron expression: " ++ CronParser.quoted "every night"
                 ++ ". Expected 5 fields (minute hour day month weekday), got 2"))
  /\ SyncedCron.running inst = false
  /\ SyncedCron.add (JsDate.fixed 0) 1736503200000 inst config
     = (SyncedCron.setEntry inst (SyncedCron.entryOf config),
        SyncedCron.Resolved tt).
Proof.
  cbv zeta. split; [reflexivity|]. split; [reflexivity|].
  split; [reflexivity|].
  eapply (fun Hfresh Hthrow Hidle =>
            proj1 (proj1 (C9_add_does_not_validate (JsDate.fixed 0)
                1736503200000
                            (SyncedCron.newSyncedCron true)
                            {| JobConfig.name := "nightly";
                               JobConfig.schedule := Scheduler.Cron "every night";
                               JobConfig.job := fun _ _ => Returns 0 Undefined;
                               JobConfig.persist := None;
                               JobConfig.onError := None |}
                            (newError
                               ("Invalid cron expression: "
                                ++ CronParser.quoted "every night"
                                ++ ". Expected 5 fields (minute hour day month weekday), got 2"))
                            Hfresh Hthrow) Hidle));
    reflexivity.
Defined.

(** C9 as stated fails: on an instance that has not been started, [add]
    with an ill-formed cron expression, or an ill-formed [at], succeeds and
    registers the job. *)
Lemma C9_counterexample :
  let nightly :=
    {| JobConfig.name := "nightly";
       JobConfig.schedule := Scheduler.Cron "every night";
       JobConfig.job := fun _ _ => Returns 0 Undefined;
       JobConfig.persist := None;
       JobConfig.onError := None |} in
  let lunch :=
    {| JobConfig.name := "lunch";
       JobConfig.schedule := Scheduler.At "25:00";
       JobConfig.job := fun _ _ => Returns 0 Undefined;
       JobConfig.persist := None;
       JobConfig.onError := None |} in
  let inst := SyncedCron.newSyncedCron true in
  isOk (CronParser.parseCronExpression "every night") = false
  /\ isOk (IntervalScheduler.getNextDailyTime (JsDate.fixed 0) "25:00"
      1736503200000 true)
     = false
  /\ snd (SyncedCron.add (JsDate.fixed 0) 1736503200000 inst nightly) =
      SyncedCron.Resolved tt
  /\ SyncedCron.has
       (SyncedCron.entries
           (fst (SyncedCron.add (JsDate.fixed 0) 1736503200000 inst nightly)))
       "nightly" = true
  /\ snd (SyncedCron.add (JsDate.fixed 0) 1736503200000 inst lunch) =
      SyncedCron.Resolved tt
  /\ SyncedCron.has
       (SyncedCron.entries
           (fst (SyncedCron.add (JsDate.fixed 0) 1736503200000 inst lunch)))
       "lunch" = true.
Proof. vm_compute. repeat split. Qed.

Section StatusFacts.

Import SyncedCron.

Lemma insertNewestFirst_perm (doc : JobHistory.t) (l : list JobHistory.t) :
  Permutation (doc :: l) (Mongo.insertNewestFirst doc l).
Proof.
  induction l as [|d l IH]; cbn.
  - apply Permutation_refl.
  - destruct (JobHistory.startedAt d <? JobHistory.startedAt doc).
    + apply Permutation_refl.
    + apply perm_trans with (d :: doc :: l); [apply perm_swap|].
      apply perm_skip, IH.
Qed.

Lemma sortNewestFirst_perm (l : list JobHistory.t) :
  Permutation l (Mongo.sortNewestFirst l).
Proof.
  induction l as [|d l IH]; cbn.
  - apply perm_nil.
  - apply perm_trans with (d :: Mongo.sortNewestFirst l);
      [apply perm_skip, IH | apply insertNewestFirst_perm].
Qed.

Lemma insertNewestFirst_sorted (doc : JobHistory.t) (l : list JobHistory.t) :
  StronglySorted Mongo.notOlder l ->
  StronglySorted Mongo.notOlder (Mongo.insertNewestFirst doc l).
Proof.
  induction l as [|d l IH]; intros Hs; cbn.
  - constructor; constructor.
  - apply StronglySorted_inv in Hs as [Hs Hd].
    destruct (JobHistory.startedAt d <? JobHistory.startedAt doc) eqn:E.
    + apply Z.ltb_lt in E. constructor; [constructor; assumption|].
      constructor; [unfold Mongo.notOlder; lia|].
      apply Forall_impl with (P := Mongo.notOlder d); [|assumption].
      unfold Mongo.notOlder. intros a Ha. lia.
    + apply Z.ltb_ge in E. constructor; [apply IH, Hs|].
      apply (Permutation_Forall (insertNewestFirst_perm doc l)).
      constructor; [unfold Mongo.notOlder; lia | assumption].
Qed.

Lemma sortNewestFirst_sorted (l : list JobHistory.t) :
  StronglySorted Mongo.notOlder (Mongo.sortNewestFirst l).
Proof.
  induction l as [|d l IH]; cbn.
  - constructor.
  - apply insertNewestFirst_sorted, IH.
Qed.

(** The first [n] of a list sorted newest first are sorted and as new as
    any of the others. *)
Lemma firstn_newest (n : nat) :
  forall l, StronglySorted Mongo.notOlder l ->
    StronglySorted Mongo.notOlder (firstn n l)
    /\ forall a b, In a (firstn n l) -> In b (skipn n l) -> Mongo.notOlder a b.
Proof.
  induction n as [|n IH]; intros l Hs.
  - cbn. split; [constructor | intros a b []].
  - destruct l as [|d l]; cbn.
    + split; [constructor | intros a b []].
    + apply StronglySorted_inv in Hs as [Hs Hd].
      destruct (IH l Hs) as [Hsorted Hnew].
      split.
      * constructor; [assumption|].
        rewrite Forall_forall in *. intros x Hx. apply Hd.
        rewrite <- (firstn_skipn n l). apply in_or_app. left. assumption.
      * intros a b [<- | Ha] Hb.
        -- rewrite Forall_forall in Hd. apply Hd.
           rewrite <- (firstn_skipn n l). apply in_or_app. right. assumption.
        -- apply Hnew; assumption.
Qed.

(** The sum of the durations, as the [reduce] of the source computes it. *)
Lemma sum_of_durations (rows : list JobHistory.t) (start : Z) :
  fold_left (fun sum r => sum + runDuration r) rows start
  = start + fold_right Z.add 0 (map runDuration rows).
Proof.
  revert start. induction rows as [|r rows IH]; intros start; cbn.
  - lia.
  - rewrite IH. lia.
Qed.

Lemma success_plus_error (rows : list JobHistory.t) :
  (List.length (filter (fun r => negb (hasError r)) rows)
   + List.length (filter hasError rows))%nat = List.length rows.
Proof.
  induction rows as [|r rows IH]; cbn; [reflexivity|].
  destruct (hasError r); cbn; lia.
Qed.

End StatusFacts.

(** C8, as the code has it.  For a job present in the registry (of a
    started instance), [getJobStatus] builds [lastRun] and [stats] from the
    at most 100 most recent history rows of that name, newest first.
    [totalRuns] counts all of these rows, [successCount] those with no
    error recorded and [errorCount] those with one, so that the two add up
    to [totalRuns]; only [averageDuration] is computed over the completed
    rows (those with [finishedAt]): it is the mean of their durations, and
    absent when there is none.  A row that has started and not finished
    counts in [totalRuns] and in [successCount], and leaves [errorCount] and
    [averageDuration] as they are. *)
Theorem C8_job_status_from_recent_runs
    (zone : JsDate.Zone) (now : Z) (inst : SyncedCron.Instance)
        (db : Mongo.Store)
    (jobName : string) (entry : JobEntry.t) :
  SyncedCron.get (SyncedCron.entries inst) jobName = Some entry ->
  SyncedCron.initialized inst = true ->
  let history :=
    Mongo.sortNewestFirst
      (filter (fun doc => String.eqb (JobHistory.name doc) jobName)
              (Mongo.docs db)) in
  let recentRuns := firstn 100 history in
  let completedRuns := filter SyncedCron.isCompleted recentRuns in
  ((List.length recentRuns <= 100)%nat
   /\ (forall r, In r recentRuns ->
                 In r (Mongo.docs db) /\ JobHistory.name r = jobName)
   /\ StronglySorted Mongo.notOlder recentRuns
   /\ (forall a b, In a recentRuns -> In b (skipn 100 history) ->
                   Mongo.notOlder a b))
  /\ (exists status,
        SyncedCron.getJobStatus Mongo.collection zone now inst db jobName
        = SyncedCron.Resolved (Some status)
        /\ JobStatus.lastRun status = SyncedCron.computeLastRun recentRuns
        /\ JobStats.totalRuns (JobStatus.stats status) = List.length recentRuns
        /\ JobStats.successCount (JobStatus.stats status)
           = List.length
               (filter (fun r => negb (SyncedCron.hasError r)) recentRuns)
        /\ JobStats.errorCount (JobStatus.stats status)
           = List.length (filter SyncedCron.hasError recentRuns)
        /\ (JobStats.successCount (JobStatus.stats status)
            + JobStats.errorCount (JobStatus.stats status))%nat
           = JobStats.totalRuns (JobStatus.stats status)
        /\ JobStats.averageDuration (JobStatus.stats status)
           = match completedRuns with
             | [] => None
             | _ :: _ =>
                 Some (Qmake
                         (fold_right Z.add 0
                            (map SyncedCron.runDuration completedRuns))
                         (Pos.of_nat (List.length completedRuns)))
             end)
  /\ (forall r rows,
        JobHistory.finishedAt r = None -> SyncedCron.hasError r = false ->
        SyncedCron.computeStats (r :: rows)
        = {| JobStats.totalRuns :=
               S (JobStats.totalRuns (SyncedCron.computeStats rows));
             JobStats.successCount :=
               S (JobStats.successCount (SyncedCron.computeStats rows));
             JobStats.errorCount :=
               JobStats.errorCount (SyncedCron.computeStats rows);
             JobStats.averageDuration :=
               JobStats.averageDuration (SyncedCron.computeStats rows) |}).
Proof.
  intros Hget Hinit. cbv zeta.
  set (named := filter (fun doc => String.eqb (JobHistory.name doc) jobName)
                       (Mongo.docs db)).
  set (history := Mongo.sortNewestFirst named).
  destruct (firstn_newest 100 history (sortNewestFirst_sorted named))
    as [Hsorted Hnewest].
  split; [|split].
  - split; [apply firstn_le_length|]. split; [|split; assumption].
    intros r Hr.
    assert (Hin : In r named).
    { apply (Permutation_in r (Permutation_sym (sortNewestFirst_perm named))).
      fold history. rewrite <- (firstn_skipn 100 history).
      apply in_or_app. left. exact Hr. }
    apply filter_In in Hin as [Hin Hname].
    split; [exact Hin | apply String.eqb_eq, Hname].
  - unfold SyncedCron.getJobStatus. rewrite Hget, Hinit.
    cbn [negb findByName Mongo.collection Mongo.find].
    fold named. fold history.
    eexists. split; [reflexivity|].
    cbn [JobStatus.lastRun JobStatus.stats].
    unfold SyncedCron.computeStats.
    cbn [JobStats.totalRuns JobStats.successCount JobStats.errorCount
         JobStats.averageDuration].
    split; [reflexivity|]. split; [reflexivity|]. split; [reflexivity|].
    split; [reflexivity|]. split; [apply success_plus_error|].
    destruct (filter SyncedCron.isCompleted (firstn 100 history)) as [|c cs] eqn:E.
    + reflexivity.
    + cbn [List.length Nat.ltb Nat.leb].
      rewrite sum_of_durations. reflexivity.
  - intros r rows Hfin Herr.
    assert (Hc : filter SyncedCron.isCompleted (r :: rows)
                 = filter SyncedCron.isCompleted rows).
    { cbn [filter]. unfold SyncedCron.isCompleted at 1. rewrite Hfin.
      reflexivity. }
    assert (He : filter SyncedCron.hasError (r :: rows)
                 = filter SyncedCron.hasError rows).
    { cbn [filter]. rewrite Herr. reflexivity. }
    assert (Hs : filter (fun r => negb (SyncedCron.hasError r)) (r :: rows)
                 = r :: filter (fun r => negb (SyncedCron.hasError r)) rows).
    { cbn [filter]. rewrite Herr. reflexivity. }
    unfold SyncedCron.computeStats. rewrite Hc, He, Hs. reflexivity.
Qed.

(** C8 on the sample instance and history. *)
Lemma C8_job_status_from_recent_runs_witness :
  SyncedCron.get (SyncedCron.entries Sample.instance) "report"
  = Some Sample.entry
  /\ SyncedCron.initialized Sample.instance = true
  /\ (List.length
        (firstn 100
           (Mongo.sortNewestFirst
              (filter (fun doc => String.eqb (JobHistory.name doc) "report")
                      (Mongo.docs Sample.store)))) <= 100)%nat.
Proof.
  split; [reflexivity|]. split; [reflexivity|].
  exact (proj1 (proj1
      (C8_job_status_from_recent_runs (JsDate.fixed 0) 3500 Sample.instance
                         Sample.store "report" Sample.entry
                         eq_refl eq_refl))).
Defined.

(** C8 as stated fails: with one row finished, one failed and one still
    running, [totalRuns] is 3 and [successCount] is 2, while two rows are
    completed and one of them succeeded: the running row is counted. *)
Lemma C8_counterexample :
  let completed := filter SyncedCron.isCompleted Sample.rows in
  exists status,
    SyncedCron.getJobStatus Mongo.collection (JsDate.fixed 0) 3500
        Sample.instance
      Sample.store "report"
    = SyncedCron.Resolved (Some status)
    /\ JobStatus.stats status
       = {| JobStats.totalRuns := 3; JobStats.successCount := 2;
            JobStats.errorCount := 1;
            JobStats.averageDuration := Some (Qmake 500 2) |}
    /\ List.length completed = 2%nat
    /\ List.length (filter (fun r => negb (SyncedCron.hasError r)) completed)
       = 1%nat
    /\ JobStats.totalRuns (JobStatus.stats status) <> List.length completed
    /\ JobStats.successCount (JobStatus.stats status)
       <> List.length
            (filter (fun r => negb (SyncedCron.hasError r)) completed).
Proof.
  cbv zeta. eexists. split; [vm_compute; reflexivity|].
  repeat split; cbn; discriminate.
Qed.

Example start_surfaces_the_parse_error :
  let config :=
    {| JobConfig.name := "nightly";
       JobConfig.schedule := Scheduler.Cron "every night";
       JobConfig.job := fun _ _ => Returns 0 Undefined;
       JobConfig.persist := None;
       JobConfig.onError := None |} in
  let added := fst
      (SyncedCron.add (JsDate.fixed 0) 0 (SyncedCron.newSyncedCron true) config) in
  isOk (CronParser.parseCronExpression "every night") = false
  /\ snd (SyncedCron.start (JsDate.fixed 0) 0 added)
     = SyncedCron.Rejected
         (newError
            ("Invalid cron expression: " ++ CronParser.quoted "every night"
             ++ ". Expected 5 fields (minute hour day month weekday), got 2"))
  /\ SyncedCron.running (fst (SyncedCron.start (JsDate.fixed 0) 0 added)) =
      false.
Proof. vm_compute. repeat split. Qed.

(* ================================================================== *)
(** * What the cron parser accepts *)
(* ================================================================== *)

Section ParserFacts.

Import JsString CronParser.

Lemma In_range_inv (start stop x : Z) :
  In x (range start stop) -> start <= x <= stop.
Proof.
  unfold range. intros H. apply in_map_iff in H as (i & <- & Hi).
  apply in_seq in Hi. lia.
Qed.

Lemma offsets_sorted (start : Z) (n : nat) :
  forall s, StronglySorted Z.lt (map (fun i => start + Z.of_nat i) (seq s n)).
Proof.
  induction n as [|n IH]; intros s; cbn [seq map]; constructor.
  - apply IH.
  - apply Forall_forall. intros y Hy. apply in_map_iff in Hy as (i & <- & Hi).
    apply in_seq in Hi. lia.
Qed.

Lemma range_wellFormed (min max start stop : Z) :
  min <= start -> start <= stop -> stop <= max ->
  wellFormed min max (range start stop).
Proof.
  intros H1 H2 H3. split; [|split].
  - unfold range. destruct (Z.to_nat (stop - start + 1)) eqn:E; [lia|].
    discriminate.
  - apply Forall_forall. intros x Hx. apply In_range_inv in Hx. lia.
  - apply offsets_sorted.
Qed.

Lemma filterByStep_In (step : Z) (l : list Z) :
  forall index x, In x (filterByStep step index l) -> In x l.
Proof.
  induction l as [|y l IH]; intros index x; cbn [filterByStep]; [auto|].
  destruct (index mod step =? 0); cbn [In]; intros H.
  - destruct H as [H | H]; [auto | right; eapply IH; eassumption].
  - right. eapply IH; eassumption.
Qed.

Lemma filterByStep_sorted (step : Z) (l : list Z) :
  StronglySorted Z.lt l ->
  forall index, StronglySorted Z.lt (filterByStep step index l).
Proof.
  induction 1 as [|y l Hs IH Hall]; intros index; cbn [filterByStep].
  - constructor.
  - destruct (index mod step =? 0); [|apply IH].
    constructor; [apply IH|].
    apply Forall_forall. intros x Hx. apply filterByStep_In in Hx.
    rewrite Forall_forall in Hall. auto.
Qed.

(** A step keeps the first value of the range it thins out. *)
Lemma filterByStep_wellFormed (min max step : Z) (l : list Z) :
  wellFormed min max l -> wellFormed min max (filterByStep step 0 l).
Proof.
  intros (Hne & Hall & Hs). split; [|split].
  - destruct l as [|y l]; [congruence|]. cbn [filterByStep].
    rewrite Zmod_0_l. discriminate.
  - apply Forall_forall. intros x Hx. apply filterByStep_In in Hx.
    rewrite Forall_forall in Hall. auto.
  - apply filterByStep_sorted. assumption.
Qed.

Lemma lookupName_In (m : NameMap) (value : string) (n : Z) :
  lookupName m value = Some n -> exists k, In (k, n) m.
Proof.
  induction m as [|[k v] m IH]; cbn [lookupName]; [discriminate|].
  destruct (String.eqb k value).
  - intros H. injection H as <-. exists k. left. reflexivity.
  - intros H. destruct (IH H) as [k' Hk']. exists k'. right. assumption.
Qed.

Lemma parseValue_bounds (value : string) (min max : Z) (fieldName : string)
    (nameMap : option NameMap) (n : Z) :
  namesWithin min max nameMap ->
  parseValue value min max fieldName nameMap = Ok n -> min <= n <= max.
Proof.
  intros Hnames. unfold parseValue.
  destruct (match nameMap with
            | Some m => lookupName m value
            | None => None
            end) as [named|] eqn:Hl.
  - intros H. injection H as <-.
    destruct nameMap as [m|]; [|discriminate].
    apply lookupName_In in Hl as [k Hk]. cbn in Hnames.
    rewrite Forall_forall in Hnames. apply (Hnames _ Hk).
  - destruct (startsWithChar _ _); [discriminate|].
    destruct (parseInt value) as [num|]; [|discriminate].
    destruct ((num <? min) || (max <? num)) eqn:E; [discriminate|].
    intros H. injection H as <-.
    apply orb_false_iff in E as [E1 E2]. apply Z.ltb_ge in E1, E2. lia.
Qed.

Lemma parseRange_wellFormed (rangePart : string) (min max : Z)
    (fieldName : string) (nameMap : option NameMap) (l : list Z) :
  namesWithin min max nameMap ->
  parseRange rangePart min max fieldName nameMap = Ok l ->
  wellFormed min max l.
Proof.
  intros Hnames. unfold parseRange.
  destruct (indexOf _ _) as [dashIndex|]; [|discriminate].
  destruct (_ || _); [discriminate|].
  destruct (_ || _); [discriminate|].
  destruct (parseValue (trim (substring 0 dashIndex rangePart)) min max
                       fieldName nameMap) as [start|] eqn:Hstart;
    [|discriminate].
  cbn [bind].
  destruct (parseValue (trim (substring (S dashIndex) _ rangePart)) min max
                       fieldName nameMap) as [stop|] eqn:Hstop;
    [|discriminate].
  cbn [bind].
  apply (parseValue_bounds _ _ _ _ _ _ Hnames) in Hstart, Hstop.
  destruct (stop <? start) eqn:E; [discriminate|].
  apply Z.ltb_ge in E. intros H. injection H as <-.
  apply range_wellFormed; lia.
Qed.

Lemma parseFieldPart_wellFormed (part : string) (min max : Z)
    (fieldName : string) (nameMap : option NameMap) (l : list Z) :
  min <= max -> namesWithin min max nameMap ->
  parseFieldPart part min max fieldName nameMap = Ok l ->
  wellFormed min max l.
Proof.
  intros Hmm Hnames. unfold parseFieldPart.
  destruct (includesChar "/" part).
  - destruct (parseInt _) as [step|]; [|discriminate].
    destruct (step <? 1); [discriminate|].
    destruct (String.eqb _ "*").
    + cbn [bind]. intros H. injection H as <-.
      apply filterByStep_wellFormed, range_wellFormed; lia.
    + destruct (includesChar "-" _).
      * destruct (parseRange _ min max fieldName nameMap) as [base|] eqn:Hr;
          [|discriminate].
        cbn [bind]. intros H. injection H as <-.
        apply filterByStep_wellFormed.
        eapply parseRange_wellFormed; eassumption.
      * destruct (parseValue _ min max fieldName nameMap) as [start|] eqn:Hv;
          [|discriminate].
        cbn [bind]. intros H. injection H as <-.
        apply (parseValue_bounds _ _ _ _ _ _ Hnames) in Hv.
        apply filterByStep_wellFormed, range_wellFormed; lia.
  - destruct (includesChar "-" part).
    + apply parseRange_wellFormed. assumption.
    + destruct (parseValue part min max fieldName nameMap) as [v|] eqn:Hv;
        [|discriminate].
      cbn [bind]. intros H. injection H as <-.
      apply (parseValue_bounds _ _ _ _ _ _ Hnames) in Hv.
      split; [discriminate|]. split; repeat constructor; lia.
Qed.

(** ** Sets and sorting *)

Lemma includes_In (l : list Z) (x : Z) : includes l x = true <-> In x l.
Proof.
  unfold includes. rewrite existsb_exists. split.
  - intros (y & Hy & E). apply Z.eqb_eq in E. subst. assumption.
  - intros H. exists x. split; [assumption | apply Z.eqb_refl].
Qed.

Lemma setAdd_In (values : list Z) (val x : Z) :
  In x (setAdd values val) <-> In x values \/ x = val.
Proof.
  unfold setAdd. destruct (includes values val) eqn:E.
  - apply includes_In in E. split; [auto|]. intros [H | ->]; assumption.
  - rewrite in_app_iff. cbn [In]. intuition.
Qed.

Lemma setAdd_NoDup (values : list Z) (val : Z) :
  NoDup values -> NoDup (setAdd values val).
Proof.
  intros H. unfold setAdd. destruct (includes values val) eqn:E; [assumption|].
  assert (Hn : ~ In val values).
  { intros Hin. apply includes_In in Hin. congruence. }
  clear E. induction H as [|y l Hy Hl IH]; cbn [app].
  - constructor; [intros [] | constructor].
  - constructor.
    + rewrite in_app_iff. cbn [In] in *. intuition.
    + apply IH. cbn [In] in Hn. intuition.
Qed.

Lemma fold_setAdd_In (l : list Z) :
  forall values x,
    In x (fold_left setAdd l values) <-> In x values \/ In x l.
Proof.
  induction l as [|y l IH]; intros values x; cbn [fold_left In].
  - intuition.
  - rewrite IH, setAdd_In. intuition.
Qed.

Lemma fold_setAdd_NoDup (l : list Z) :
  forall values, NoDup values -> NoDup (fold_left setAdd l values).
Proof.
  induction l as [|y l IH]; intros values H; cbn [fold_left]; [assumption|].
  apply IH, setAdd_NoDup, H.
Qed.

Lemma insertAscending_In (x : Z) (l : list Z) (y : Z) :
  In y (insertAscending x l) <-> y = x \/ In y l.
Proof.
  induction l as [|z l IH]; cbn [insertAscending In].
  - intuition.
  - destruct (x <=? z); cbn [In]; [intuition|]. rewrite IH. intuition.
Qed.

Lemma insertAscending_sorted (x : Z) (l : list Z) :
  StronglySorted Z.lt l -> ~ In x l ->
  StronglySorted Z.lt (insertAscending x l).
Proof.
  induction 1 as [|z l Hs IH Hall]; intros Hn; cbn [insertAscending].
  - repeat constructor.
  - cbn [In] in Hn. rewrite Forall_forall in Hall.
    destruct (Z.leb_spec x z).
    + constructor; [constructor; [assumption | apply Forall_forall; assumption]|].
      constructor; [lia|]. apply Forall_forall. intros y Hy.
      specialize (Hall y Hy). lia.
    + constructor; [apply IH; intuition|].
      apply Forall_forall. intros y Hy. apply -> insertAscending_In in Hy.
      destruct Hy as [-> | Hy]; [lia | auto].
Qed.

Lemma sortAscending_In (l : list Z) (y : Z) :
  In y (sortAscending l) <-> In y l.
Proof.
  induction l as [|x l IH]; cbn [sortAscending fold_right In]; [tauto|].
  fold (sortAscending l). rewrite insertAscending_In, IH. intuition.
Qed.

Lemma sortAscending_sorted (l : list Z) :
  NoDup l -> StronglySorted Z.lt (sortAscending l).
Proof.
  induction 1 as [|x l Hx Hl IH]; cbn [sortAscending fold_right].
  - constructor.
  - fold (sortAscending l). apply insertAscending_sorted; [assumption|].
    rewrite sortAscending_In. assumption.
Qed.

(** Sorting a set of values of the field gives a well-formed field. *)
Lemma sorted_set_wellFormed (min max : Z) (l : list Z) :
  l <> [] -> Forall (fun x => min <= x <= max) l -> NoDup l ->
  wellFormed min max (sortAscending l).
Proof.
  intros Hne Hall Hnd. split; [|split].
  - destruct l as [|x l]; [congruence|]. intros E.
    assert (Hin : In x (sortAscending (x :: l)))
      by (apply sortAscending_In; left; reflexivity).
    rewrite E in Hin. destruct Hin.
  - apply Forall_forall. intros x Hx. apply -> sortAscending_In in Hx.
    rewrite Forall_forall in Hall. exact (Hall x Hx).
  - apply sortAscending_sorted. assumption.
Qed.

Lemma parseList_set (min max : Z) (fieldName : string)
    (nameMap : option NameMap) :
  min <= max -> namesWithin min max nameMap ->
  forall parts values result,
    parseList parts values min max fieldName nameMap = Ok result ->
    Forall (fun x => min <= x <= max) values -> NoDup values ->
    Forall (fun x => min <= x <= max) result /\ NoDup result
    /\ (parts <> [] \/ values <> [] -> result <> []).
Proof.
  intros Hmm Hnames. induction parts as [|part rest IH];
    intros values result; cbn [parseList].
  - intros H Hall Hnd. injection H as <-. repeat split; try assumption.
    intros [H | H]; [congruence | assumption].
  - destruct (parseFieldPart (trim part) min max fieldName nameMap)
      as [parsed|] eqn:Hp; [|discriminate].
    cbn [bind]. intros H Hall Hnd.
    apply (parseFieldPart_wellFormed _ _ _ _ _ _ Hmm Hnames) in Hp.
    destruct Hp as (Hne & Hpall & _).
    apply IH in H.
    + destruct H as (H1 & H2 & H3). repeat split; try assumption.
      intros _. apply H3. right.
      destruct parsed as [|x parsed]; [congruence|]. intros E.
      assert (Hin : In x (fold_left setAdd (x :: parsed) values))
        by (apply fold_setAdd_In; right; left; reflexivity).
      rewrite E in Hin. destruct Hin.
    + apply Forall_forall. intros x Hx. apply -> fold_setAdd_In in Hx.
      rewrite Forall_forall in Hall, Hpall.
      destruct Hx as [Hx | Hx]; [exact (Hall x Hx) | exact (Hpall x Hx)].
    + apply fold_setAdd_NoDup. assumption.
Qed.

Lemma split_nonempty (sep : ascii) (s : string) : split sep s <> [].
Proof.
  destruct s as [|c s]; cbn [split]; [discriminate|].
  destruct (Ascii.eqb c sep); [discriminate|].
  destruct (split sep s); discriminate.
Qed.

Lemma parseField_wellFormed (field : string) (min max : Z)
    (fieldName : string) (nameMap : option NameMap) (l : list Z) :
  min <= max -> namesWithin min max nameMap ->
  parseField field min max fieldName nameMap = Ok l ->
  wellFormed min max l.
Proof.
  intros Hmm Hnames. unfold parseField.
  destruct (String.eqb _ "*").
  - intros H. injection H as <-. apply range_wellFormed; lia.
  - destruct (includesChar "," _).
    + destruct (parseList _ [] min max fieldName nameMap) as [values|] eqn:Hl;
        [|discriminate].
      cbn [bind]. intros H. injection H as <-.
      apply (parseList_set _ _ _ _ Hmm Hnames) in Hl;
        [|constructor | constructor].
      destruct Hl as (Hall & Hnd & Hne).
      apply sorted_set_wellFormed; try assumption.
      apply Hne. left. apply split_nonempty.
    + apply parseFieldPart_wellFormed; assumption.
Qed.

(** Sunday written 7 becomes 0. *)
Lemma normalizeWeekdays_wellFormed (weekdays : list Z) :
  wellFormed 0 7 weekdays -> wellFormed 0 6 (normalizeWeekdays weekdays).
Proof.
  intros (Hne & Hall & _). unfold normalizeWeekdays, setFrom.
  apply sorted_set_wellFormed.
  - destruct weekdays as [|d rest]; [congruence|]. intros E.
    assert (Hin : In (if d =? 7 then 0 else d)
                     (fold_left setAdd
                        (map (fun d => if d =? 7 then 0 else d) (d :: rest)) []))
      by (apply fold_setAdd_In; right; left; reflexivity).
    rewrite E in Hin. destruct Hin.
  - apply Forall_forall. intros x Hx. apply -> fold_setAdd_In in Hx.
    destruct Hx as [[] | Hx]. apply in_map_iff in Hx as (d & <- & Hd).
    rewrite Forall_forall in Hall. specialize (Hall d Hd).
    destruct (Z.eqb_spec d 7); lia.
  - apply fold_setAdd_NoDup. constructor.
Qed.

Lemma month_names_within : namesWithin 1 12 (Some MONTH_NAMES).
Proof. cbn. repeat constructor; cbn; lia. Qed.

Lemma weekday_names_within : namesWithin 0 7 (Some WEEKDAY_NAMES).
Proof. cbn. repeat constructor; cbn; lia. Qed.

End ParserFacts.

(** X1.  What the parser accepts.  Every cron expression that
    [parseCronExpression] accepts yields well-formed fields: the minutes
    within 0..59, the hours within 0..23, the months within 1..12 and the
    weekdays within 0..6 (7 having become 0), each set not empty and
    strictly ascending, so without duplicates; the days of the month
    likewise within 1..31, except that the set is empty when the day field
    is [L]. *)
Theorem parsed_fields_are_well_formed (expression : string)
    (fields : CronParser.CronFields) :
  CronParser.parseCronExpression expression = Ok fields ->
  CronParser.wellFormed 0 59 (CronParser.minute fields)
  /\ CronParser.wellFormed 0 23 (CronParser.hour fields)
  /\ CronParser.wellFormed 1 12 (CronParser.month fields)
  /\ CronParser.wellFormed 0 6 (CronParser.dayOfWeek fields)
  /\ (if CronParser.isLastDayOfMonth fields
      then CronParser.dayOfMonth fields = []
      else CronParser.wellFormed 1 31 (CronParser.dayOfMonth fields)).
Proof.
  unfold CronParser.parseCronExpression.
  destruct (JsString.splitWhiteSpace false (JsString.trim expression))
    as [|minutePart [|hourPart [|dayPart [|monthPart [|weekdayPart [|extra rest]]]]]];
    try discriminate.
  destruct (CronParser.parseField minutePart 0 59 "minute" None)
    as [minute_|] eqn:Hminute; [|discriminate].
  cbn [bind].
  destruct (CronParser.parseField hourPart 0 23 "hour" None)
    as [hour_|] eqn:Hhour; [|discriminate].
  cbn [bind].
  destruct (if String.eqb (JsString.toUpperCase dayPart) "L" then Ok []
            else CronParser.parseField dayPart 1 31 "day" None)
    as [day_|] eqn:Hday; [|discriminate].
  cbn [bind].
  destruct (CronParser.parseField monthPart 1 12 "month"
              (Some CronParser.MONTH_NAMES)) as [month_|] eqn:Hmonth;
    [|discriminate].
  cbn [bind].
  destruct (CronParser.parseField weekdayPart 0 7 "weekday"
              (Some CronParser.WEEKDAY_NAMES)) as [weekdays|] eqn:Hweekday;
    [|discriminate].
  cbn [bind]. intros H. injection H as <-.
  cbn [CronParser.minute CronParser.hour CronParser.month
       CronParser.dayOfWeek CronParser.dayOfMonth
       CronParser.isLastDayOfMonth].
  apply parseField_wellFormed in Hminute; [|lia | exact I].
  apply parseField_wellFormed in Hhour; [|lia | exact I].
  apply parseField_wellFormed in Hmonth; [|lia | exact month_names_within].
  apply parseField_wellFormed in Hweekday; [|lia | exact weekday_names_within].
  repeat (split; [assumption|]).
  split; [apply normalizeWeekdays_wellFormed; assumption|].
  destruct (String.eqb (JsString.toUpperCase dayPart) "L").
  - injection Hday as <-. reflexivity.
  - apply parseField_wellFormed in Hday; [assumption | lia | exact I].
Qed.

(** The fields of "*/20 8-10 1,15,1 feb,JAN 7,0,mon". *)
Lemma parsed_fields_are_well_formed_witness :
  CronParser.parseCronExpression "*/20 8-10 1,15,1 feb,JAN 7,0,mon"
  = Ok {| CronParser.minute := [0; 20; 40];
          CronParser.hour := [8; 9; 10];
          CronParser.dayOfMonth := [1; 15];
          CronParser.month := [1; 2];
          CronParser.dayOfWeek := [0; 1];
          CronParser.isLastDayOfMonth := false |}
  /\ CronParser.wellFormed 0 6 [0; 1].
Proof.
  split; [reflexivity|].
  exact (proj1 (proj2 (proj2 (proj2
    (parsed_fields_are_well_formed "*/20 8-10 1,15,1 feb,JAN 7,0,mon" _
       eq_refl))))).
Defined.

(* ================================================================== *)
(** * The next occurrence of a cron schedule *)
(* ================================================================== *)

Section CronNextFacts.

Import JsDate CronParser.

(** A whole minute after [from] is one of the candidates of the search. *)
Lemma whole_minute_is_candidate (from t : Z) :
  from < t -> t mod msPerMinute = 0 ->
  exists j, t = firstCandidate from + Z.of_nat j * msPerMinute.
Proof.
  intros Hlt Hmod. unfold firstCandidate, msPerMinute in *.
  exists (Z.to_nat ((t - (from - from mod 60000 + 60000)) / 60000)).
  rewrite Z2Nat.id; Z.div_mod_to_equations; lia.
Qed.

Lemma whole_minute_fields (offset t : Z) :
  t mod msPerMinute = 0 ->
  getUTCSeconds t = 0 /\ getUTCMilliseconds t = 0
  /\ getSeconds (JsDate.fixed offset) t = 0 /\ getMilliseconds
      (JsDate.fixed offset) t = 0.
Proof. intros H. repeat split; date_arith. Qed.

End CronNextFacts.

(** X2.  The next occurrence of a cron schedule, on a host whose zone
    keeps a constant offset from UTC.  When [getNextCronOccurrence]
    returns, the instant it returns is a whole minute (seconds and
    milliseconds are zero, in UTC and in the local zone) that matches the
    fields, lies strictly after [from] and at most 4 x 365 days after it,
    and is the first such minute: no whole minute strictly between [from]
    and it matches.  (Where the clocks of the host go back the search can
    return an instant before [from].) *)
Theorem cron_next_is_the_first_matching_minute
    (offset : Z) (fields : CronParser.CronFields) (from : Z) (useUTC : bool)
    (next : Z) :
  CronParser.getNextCronOccurrence (JsDate.fixed offset) fields from useUTC = Ok
      next ->
  from < next <= from + 4 * 365 * JsDate.msPerDay
  /\ next mod JsDate.msPerMinute = 0
  /\ JsDate.getUTCSeconds next = 0 /\ JsDate.getUTCMilliseconds next = 0
  /\ JsDate.getSeconds (JsDate.fixed offset) next = 0 /\ JsDate.getMilliseconds
      (JsDate.fixed offset) next = 0
  /\ CronParser.matchesCronFields (JsDate.fixed offset) next fields useUTC =
      true
  /\ (forall t, from < t < next -> t mod JsDate.msPerMinute = 0 ->
        CronParser.matchesCronFields (JsDate.fixed offset) t fields useUTC =
            false).
Proof.
  unfold CronParser.getNextCronOccurrence. cbv zeta. rewrite search_start.
  destruct (cronLoop_spec offset fields useUTC CronParser.MAX_ITERATIONS
              (CronParser.firstCandidate from))
    as [(k & Hk & Hr & Hm & Hbefore) | [Hr _]]; rewrite Hr; [|discriminate].
  intros H. injection H as <-.
  assert (HK : Z.of_nat k < 4 * 365 * 24 * 60).
  { unfold CronParser.MAX_ITERATIONS in Hk. lia. }
  assert (Hf := Z.mod_pos_bound from 60000 ltac:(lia)).
  assert (Hwhole : (CronParser.firstCandidate from
                    + Z.of_nat k * JsDate.msPerMinute) mod JsDate.msPerMinute = 0).
  { unfold CronParser.firstCandidate, JsDate.msPerMinute.
    Z.div_mod_to_equations. lia. }
  split.
  { clear - HK Hf.
    unfold CronParser.firstCandidate, JsDate.msPerMinute, JsDate.msPerDay. lia. }
  split; [exact Hwhole|].
  destruct (whole_minute_fields offset _ Hwhole) as (H1 & H2 & H3 & H4).
  repeat (split; [assumption|]).
  intros t Ht Hmod.
  destruct (whole_minute_is_candidate from t (proj1 Ht) Hmod) as [j ->].
  apply Hbefore. clear - Ht. unfold JsDate.msPerMinute in *. lia.
Qed.

(** "30 9 * * *" after 2025-01-15T10:00:00Z, in UTC mode: the next day at
    09:30. *)
Lemma cron_next_is_the_first_matching_minute_witness :
  CronParser.getNextCronOccurrence (JsDate.fixed 0) Sample.dailyFields
    (JsDate.dateUTC 2025 0 15 10 0 0 0) true
  = Ok (JsDate.dateUTC 2025 0 16 9 30 0 0)
  /\ JsDate.dateUTC 2025 0 15 10 0 0 0 < JsDate.dateUTC 2025 0 16 9 30 0 0
     <= JsDate.dateUTC 2025 0 15 10 0 0 0 + 4 * 365 * JsDate.msPerDay.
Proof.
  assert (H : CronParser.getNextCronOccurrence (JsDate.fixed 0)
      Sample.dailyFields
                (JsDate.dateUTC 2025 0 15 10 0 0 0) true
              = Ok (JsDate.dateUTC 2025 0 16 9 30 0 0))
    by (vm_compute; reflexivity).
  split; [exact H|].
  exact (proj1 (cron_next_is_the_first_matching_minute 0 Sample.dailyFields
                  (JsDate.dateUTC 2025 0 15 10 0 0 0) true
                  (JsDate.dateUTC 2025 0 16 9 30 0 0) H)).
Defined.

(** X5.  The [utc] option and the zone of the host.  With [utc: true] the
    next run of every schedule (interval, cron expression or daily time)
    is the same on all hosts whose zone keeps a constant offset from UTC,
    whatever the offset.  It is not the same on every host: the code
    starts from the local [setSeconds(0, 0)] in UTC mode too, so on a New
    York host the schedule "* * * * *" from 2025-11-02T06:30:15Z, in the
    hour that occurs twice, has its next run at 05:31:00Z, and on a host
    that keeps UTC at 06:31:00Z. *)
Theorem utc_mode_and_the_host_zone :
  (forall offset offset' now schedule,
     Scheduler.getNextScheduledTime (JsDate.fixed offset) now schedule
       {| Scheduler.utc := Some true |}
     = Scheduler.getNextScheduledTime (JsDate.fixed offset') now schedule
         {| Scheduler.utc := Some true |})
  /\ Scheduler.getNextScheduledTime Sample.newYork
       (JsDate.dateUTC 2025 10 2 6 30 15 0) (Scheduler.Cron "* * * * *")
       {| Scheduler.utc := Some true |}
     = Ok (JsDate.dateUTC 2025 10 2 5 31 0 0)
  /\ Scheduler.getNextScheduledTime (JsDate.fixed 0)
       (JsDate.dateUTC 2025 10 2 6 30 15 0) (Scheduler.Cron "* * * * *")
       {| Scheduler.utc := Some true |}
     = Ok (JsDate.dateUTC 2025 10 2 6 31 0 0).
Proof.
  split; [|split; vm_compute; reflexivity].
  intros offset offset' now [every unit aligned | cron | at_ |];
    unfold Scheduler.getNextScheduledTime; cbn [Scheduler.utc].
  - unfold IntervalScheduler.getNextIntervalTime,
      IntervalScheduler.getNextIntervalOccurrence.
    cbn [IntervalScheduler.aligned IntervalScheduler.every
         IntervalScheduler.unit].
    destruct aligned as [[|]|]; try reflexivity.
    unfold IntervalScheduler.getAlignedInterval. cbv zeta.
    rewrite !minute_floor. reflexivity.
  - destruct (CronParser.parseCronExpression cron) as [fields|e];
      cbn [bind]; [|reflexivity].
    rewrite (getNextCronOccurrence_utc_zone offset),
      (getNextCronOccurrence_utc_zone offset').
    reflexivity.
  - reflexivity.
  - reflexivity.
Qed.

(* ================================================================== *)
(** * The calendar: month lengths and the last day of a month *)
(* ================================================================== *)

(** Case analysis on the integer tests of a goal. *)
Ltac split_tests :=
  repeat match goal with
  | |- context [?a =? ?b] => destruct (Z.eqb_spec a b)
  | |- context [?a <? ?b] => destruct (Z.ltb_spec a b)
  | |- context [?a <=? ?b] => destruct (Z.leb_spec a b)
  | H : context [?a =? ?b] |- _ => destruct (Z.eqb_spec a b)
  | H : context [?a <? ?b] |- _ => destruct (Z.ltb_spec a b)
  | H : context [?a <=? ?b] |- _ => destruct (Z.leb_spec a b)
  end; cbn [orb andb negb] in *.

Section CalendarFacts.

Import JsDate Gregorian.

(** The year of the era is the one whose days contain the day of the era. *)
Lemma year_interval (doe : Z) :
  0 <= doe < daysPerEra ->
  let y := yoe_of_doe doe in
  365 * y + y / 4 - y / 100 + y / 400 <= doe
  /\ doe < 365 * (y + 1) + (y + 1) / 4 - (y + 1) / 100 + (y + 1) / 400.
Proof.
  unfold daysPerEra, yoe_of_doe. intros H. cbv zeta.
  Z.div_mod_to_equations. lia.
Qed.

Lemma year_unique (y y' x : Z) :
  365 * y + y / 4 - y / 100 + y / 400 <= x
  < 365 * (y + 1) + (y + 1) / 4 - (y + 1) / 100 + (y + 1) / 400 ->
  365 * y' + y' / 4 - y' / 100 + y' / 400 <= x
  < 365 * (y' + 1) + (y' + 1) / 4 - (y' + 1) / 100 + (y' + 1) / 400 ->
  y = y'.
Proof. intros H H'. Z.div_mod_to_equations. lia. Qed.

Lemma month_interval (doy : Z) :
  0 <= doy <= 365 ->
  let mp := mp_of_doy doy in
  (153 * mp + 2) / 5 <= doy < (153 * (mp + 1) + 2) / 5.
Proof. unfold mp_of_doy. intros H. cbv zeta. Z.div_mod_to_equations. lia. Qed.

Lemma month_unique (mp mp' x : Z) :
  (153 * mp + 2) / 5 <= x < (153 * (mp + 1) + 2) / 5 ->
  (153 * mp' + 2) / 5 <= x < (153 * (mp' + 1) + 2) / 5 ->
  mp = mp'.
Proof. intros H H'. Z.div_mod_to_equations. lia. Qed.

Lemma isLeapYear_spec (y : Z) :
  (isLeapYear y = true /\ ((y mod 4 = 0 /\ y mod 100 <> 0) \/ y mod 400 = 0))
  \/ (isLeapYear y = false /\ (y mod 4 <> 0 \/ y mod 100 = 0) /\ y mod 400 <> 0).
Proof.
  unfold isLeapYear.
  destruct (y mod 4 =? 0) eqn:E4; destruct (y mod 100 =? 0) eqn:E100;
    destruct (y mod 400 =? 0) eqn:E400; cbn;
    rewrite ?Z.eqb_eq, ?Z.eqb_neq in *; intuition lia.
Qed.

(** The day of the March-based year of a valid date lies in its month and
    in its year. *)
Lemma valid_day_of_year (y m d : Z) :
  1 <= m <= 12 -> 1 <= d <= daysIn y m ->
  let mp := mp_of_month m in
  let yoe := (if m <=? 2 then y - 1 else y) mod 400 in
  let doy := (153 * mp + 2) / 5 + d - 1 in
  0 <= mp <= 11 /\ month_of_mp mp = m
  /\ (153 * mp + 2) / 5 <= doy < (153 * (mp + 1) + 2) / 5
  /\ 0 <= doy
  /\ 365 * yoe + yoe / 4 - yoe / 100 + yoe / 400 + doy
     < 365 * (yoe + 1) + (yoe + 1) / 4 - (yoe + 1) / 100 + (yoe + 1) / 400.
Proof.
  intros Hm Hd. cbv zeta.
  unfold daysIn, mp_of_month, month_of_mp in *.
  destruct (isLeapYear_spec y) as [[E H]|[E H]]; rewrite E in Hd; clear E;
    split_tests; try lia.
  all: repeat split; try (Z.div_mod_to_equations; lia).
Qed.

(** From a valid date to its day number and back. *)
Lemma civil_round_trip (y m d : Z) :
  1 <= m <= 12 -> 1 <= d <= daysIn y m ->
  civil_from_days (days_from_civil y m d) = (y, m, d).
Proof.
  intros Hm Hd.
  destruct (valid_day_of_year y m d Hm Hd)
    as (Hmp & Hmonth & Hdoy & Hdoy0 & Hyear).
  unfold days_from_civil, civil_from_days.
  set (y' := if m <=? 2 then y - 1 else y) in *.
  set (mp := mp_of_month m) in *.
  set (era := y' / 400). set (yoe := y' mod 400) in *.
  set (doy := (153 * mp + 2) / 5 + d - 1) in *.
  assert (Hy' : y' = 400 * era + yoe) by (apply Z.div_mod; lia).
  assert (Hyoe : 0 <= yoe < 400) by (apply Z.mod_pos_bound; lia).
  set (doe := yoe * 365 + yoe / 4 - yoe / 100 + doy).
  assert (Hdoe : 0 <= doe < daysPerEra).
  { subst doe. unfold daysPerEra. clearbody yoe doy. clear - Hyoe Hdoy0 Hyear.
    Z.div_mod_to_equations. lia. }
  replace (era * daysPerEra + doe - epochShift + epochShift)
    with (doe + era * daysPerEra) by lia.
  rewrite Z.div_add by (unfold daysPerEra; lia).
  rewrite Z.mod_add by (unfold daysPerEra; lia).
  rewrite (Z.div_small doe) by lia. rewrite (Z.mod_small doe) by lia.
  assert (Hy : yoe_of_doe doe = yoe).
  { destruct (year_interval doe Hdoe) as [Hlo Hhi].
    apply (year_unique _ _ doe); [split; assumption|].
    subst doe. clearbody yoe doy. clear - Hyoe Hdoy0 Hyear.
    Z.div_mod_to_equations. lia. }
  assert (Hdy : doy_of_doe doe = doy).
  { unfold doy_of_doe. rewrite Hy. subst doe. lia. }
  rewrite Hdy, Hy.
  assert (Hdoy365 : 0 <= doy <= 365).
  { clearbody yoe doy. clear - Hyoe Hdoy0 Hyear. Z.div_mod_to_equations. lia. }
  assert (Hmp' : mp_of_doy doy = mp).
  { destruct (month_interval doy Hdoy365) as [Hlo Hhi].
    apply (month_unique _ _ doy); [split; assumption | assumption]. }
  rewrite Hmp', Hmonth.
  f_equal; [f_equal|].
  - subst y'. destruct (m <=? 2); lia.
  - subst doy. lia.
Qed.

(** The date of a day number is valid. *)
Lemma civil_valid (z : Z) :
  let '(y, m, d) := civil_from_days z in
  1 <= m <= 12 /\ 1 <= d <= daysIn y m.
Proof.
  assert (Hr := civil_from_days_range z).
  unfold civil_from_days in *.
  assert (Hdoe := doe_range z).
  set (era := (z + epochShift) / daysPerEra) in *.
  set (doe := (z + epochShift) mod daysPerEra) in *.
  destruct (era_year_bounds doe Hdoe) as [Hyoe Hdoy].
  destruct (year_interval doe Hdoe) as [Hlo Hhi].
  destruct (month_interval _ Hdoy) as [Hmlo Hmhi].
  destruct (year_day_bounds _ Hdoy) as (Hmp & _ & _).
  assert (Hdy : doy_of_doe doe
                = doe - (365 * yoe_of_doe doe + yoe_of_doe doe / 4
                         - yoe_of_doe doe / 100)) by reflexivity.
  set (yoe := yoe_of_doe doe) in *.
  set (doy := doy_of_doe doe) in *.
  set (mp := mp_of_doy doy) in *.
  split; [lia|]. split; [lia|].
  clearbody era doe yoe doy mp. clear Hr.
  unfold daysIn, month_of_mp in *.
  destruct (isLeapYear_spec
              (yoe + era * 400 + (if (if mp <? 10 then mp + 3 else mp - 9) <=? 2
                                  then 1 else 0))) as [[E H]|[E H]];
    rewrite E; clear E; split_tests; try lia;
    (Z.div_mod_to_equations; lia).
Qed.

Lemma daysIn_bounds (y m : Z) : 28 <= daysIn y m <= 31.
Proof.
  unfold daysIn. destruct (m =? 2); [destruct (isLeapYear y); lia|].
  destruct ((m =? 4) || (m =? 6) || (m =? 9) || (m =? 11)); lia.
Qed.

Lemma days_from_civil_day (y m d k : Z) :
  days_from_civil y m (d + k) = days_from_civil y m d + k.
Proof. unfold days_from_civil. lia. Qed.

(** The day after the last day of a month is the first of the next. *)
Lemma month_rollover (y m : Z) :
  1 <= m <= 12 ->
  days_from_civil y m (daysIn y m + 1)
  = if m =? 12 then days_from_civil (y + 1) 1 1
    else days_from_civil y (m + 1) 1.
Proof.
  intros Hm. unfold days_from_civil, daysIn, mp_of_month, daysPerEra, epochShift.
  destruct (isLeapYear_spec y) as [[E H]|[E H]]; rewrite E; clear E;
    split_tests; try lia; (Z.div_mod_to_equations; lia).
Qed.

(** The date of the next day. *)
Lemma civil_next_day (z : Z) :
  let '(y, m, d) := civil_from_days z in
  civil_from_days (z + 1)
  = if d <? daysIn y m then (y, m, d + 1)
    else if m =? 12 then (y + 1, 1, 1) else (y, m + 1, 1).
Proof.
  assert (Hv := civil_valid z). assert (Hs := days_from_civil_shift z).
  destruct (civil_from_days z) as [[y m] d]. destruct Hv as [Hm Hd].
  destruct (Z.ltb_spec d (daysIn y m)) as [Hlt | Hge].
  - rewrite <- (Hs 1). apply civil_round_trip; lia.
  - assert (d = daysIn y m) by lia. subst d.
    rewrite <- (Hs 1), month_rollover by assumption.
    destruct (Z.eqb_spec m 12) as [-> | Hne].
    + apply civil_round_trip; [lia | unfold daysIn; cbn; lia].
    + apply civil_round_trip; [lia|].
      unfold daysIn. split_tests; destruct (isLeapYear y); lia.
Qed.

Lemma Day_next (t : Z) : Day (t + msPerDay) = Day t + 1.
Proof. unfold Day, msPerDay. Z.div_mod_to_equations. lia. Qed.

(** The month changes from one day to the next exactly on the last day of
    the month. *)
Lemma month_changes (t : Z) :
  negb (MonthFromTime (t + msPerDay) =? MonthFromTime t)
  = (DateFromTime t =? daysIn (YearFromTime t) (MonthFromTime t + 1)).
Proof.
  unfold MonthFromTime, DateFromTime, YearFromTime. rewrite Day_next.
  assert (Hv := civil_valid (Day t)). assert (Hn := civil_next_day (Day t)).
  destruct (civil_from_days (Day t)) as [[y m] d]. destruct Hv as [Hm Hd].
  rewrite Hn. replace (m - 1 + 1) with m by lia.
  destruct (Z.ltb_spec d (daysIn y m)); [|destruct (Z.eqb_spec m 12)];
    split_tests; cbn [negb]; try reflexivity; lia.
Qed.

Lemma Day_of_midnight (day : Z) : Day (MakeDate day (MakeTime 0 0 0 0)) = day.
Proof.
  unfold Day, MakeDate, MakeTime, msPerDay. Z.div_mod_to_equations. lia.
Qed.

Lemma LocalTime_UTC (offset t : Z) : LocalTime (JsDate.fixed offset)
    (UTC (JsDate.fixed offset) t) = t.
Proof. unfold LocalTime, UTC; cbn [JsDate.LocalTZA JsDate.fixed]. lia. Qed.

(** [new Date(year, month, 0)] is the last day of month [month], numbered
    from 1. *)
Lemma MakeDay_zero (year month : Z) :
  1 <= month <= 12 ->
  MakeDay year month 0 = days_from_civil year month (daysIn year month).
Proof.
  intros Hm. unfold MakeDay.
  assert (H := month_rollover year month Hm).
  rewrite (days_from_civil_day year month (daysIn year month) 1) in H.
  destruct (Z.eqb_spec month 12) as [-> | Hne].
  - change (12 / 12) with 1. change (12 mod 12 + 1) with 1. lia.
  - rewrite Z.div_small, Z.mod_small by lia.
    replace (year + 0) with year by lia. lia.
Qed.

End CalendarFacts.

(** X3.  The last-day test of the cron matcher, on a host whose zone keeps
    a constant offset from UTC.  [isLastDayOfMonth(date, useUTC)] holds
    exactly when the day of the month of [date], read in UTC or in the
    local zone as [useUTC] tells, is the number of days of its month in
    the Gregorian calendar: 31, 30, or for February 28, and 29 in leap
    years.  (The test steps to the next day with the local [setDate] in
    both modes; where the clocks of the host change it can miss the last
    day: see [last_day_where_the_clocks_go_forward].) *)
Theorem last_day_of_month_is_calendar :
  forall offset date useUTC,
    CronParser.dateIsLastDayOfMonth (JsDate.fixed offset) date useUTC
    = if useUTC
      then JsDate.getUTCDate date
           =? Gregorian.daysIn (JsDate.getUTCFullYear date)
                               (JsDate.getUTCMonth date + 1)
      else JsDate.getDate (JsDate.fixed offset) date
           =? Gregorian.daysIn (JsDate.getFullYear (JsDate.fixed offset) date)
                               (JsDate.getMonth (JsDate.fixed offset) date + 1).
Proof.
  intros offset date useUTC. unfold CronParser.dateIsLastDayOfMonth.
  rewrite setDate_shift. replace (1 * JsDate.msPerDay) with JsDate.msPerDay by lia.
  destruct useUTC.
  - unfold JsDate.getUTCMonth, JsDate.getUTCDate, JsDate.getUTCFullYear.
    apply month_changes.
  - unfold JsDate.getMonth, JsDate.getDate, JsDate.getFullYear.
    replace (JsDate.LocalTime (JsDate.fixed offset) (date + JsDate.msPerDay))
      with (JsDate.LocalTime (JsDate.fixed offset) date + JsDate.msPerDay)
      by (unfold JsDate.LocalTime; cbn [JsDate.LocalTZA JsDate.fixed]; lia).
    apply month_changes.
Qed.

(** X4.  [getDaysInMonth(year, month)], for a month 1..12, is the number of
    days of that month in the Gregorian calendar, leap years included,
    whatever the offset of the host's zone; a year in 0..99 is read as
    1900 + year, as the [Date] constructor does. *)
Theorem getDaysInMonth_is_calendar (offset year month : Z) :
  1 <= month <= 12 ->
  CronParser.getDaysInMonth (JsDate.fixed offset) year month
  = Gregorian.daysIn
      (if (0 <=? year) && (year <=? 99) then 1900 + year else year) month.
Proof.
  intros Hm. unfold CronParser.getDaysInMonth, JsDate.getDate, JsDate.dateLocal.
  cbv zeta. rewrite LocalTime_UTC. unfold JsDate.DateFromTime.
  rewrite Day_of_midnight, MakeDay_zero by assumption.
  rewrite civil_round_trip; [reflexivity | assumption |].
  split; [|lia].
  match goal with |- 1 <= Gregorian.daysIn ?y ?m =>
    assert (H := daysIn_bounds y m) end.
  lia.
Qed.

(** February 2024 has 29 days and February 1900 has 28. *)
Lemma getDaysInMonth_is_calendar_witness :
  1 <= 2 <= 12
  /\ CronParser.getDaysInMonth (JsDate.fixed 60) 2024 2 = 29
  /\ CronParser.getDaysInMonth (JsDate.fixed (-300)) 1900 2 = 28.
Proof.
  split; [lia|]. split.
  - exact (getDaysInMonth_is_calendar 60 2024 2 ltac:(lia)).
  - exact (getDaysInMonth_is_calendar (-300) 1900 2 ltac:(lia)).
Defined.

(** The day the clocks go forward.  On a Berlin host, in UTC mode,
    2024-03-31T00:30Z (01:30 local time) is not taken for the last day of
    March: the local [setDate] gives 1 April 01:30 local time, which is
    2024-03-31T23:30Z, still March in UTC.  On a host that stays at UTC+1
    the same instant is taken for the last day. *)
Example last_day_where_the_clocks_go_forward :
  CronParser.dateIsLastDayOfMonth Sample.berlin
    (JsDate.dateUTC 2024 2 31 0 30 0 0) true = false
  /\ JsDate.setDate Sample.berlin (JsDate.dateUTC 2024 2 31 0 30 0 0) 32
     = JsDate.dateUTC 2024 2 31 23 30 0 0
  /\ CronParser.dateIsLastDayOfMonth (JsDate.fixed 60)
       (JsDate.dateUTC 2024 2 31 0 30 0 0) true = true.
Proof. vm_compute. repeat split. Qed.

(* ================================================================== *)
(** * Interval and daily schedules *)
(* ================================================================== *)

Section IntervalLaws.

Import JsDate IntervalScheduler.

Lemma hour_start_is_day_start (offset from : Z) (useUTC : bool) :
  hourStart (JsDate.fixed offset) from useUTC
  = dayStart (JsDate.fixed offset) from useUTC + currentHour
      (JsDate.fixed offset) from useUTC * msPerHour.
Proof. unfold hourStart, dayStart, currentHour. destruct useUTC; date_arith. Qed.

(** The fields, in the chosen zone, of an instant [h] whole hours into a
    day that starts at [dayStart]. *)
Lemma fields_within_day (offset from h c : Z) (useUTC : bool) :
  0 <= h < 24 ->
  let next := dayStart (JsDate.fixed offset) from useUTC + c * msPerDay + h *
      msPerHour in
  currentHour (JsDate.fixed offset) next useUTC = h
  /\ currentMinute (JsDate.fixed offset) next useUTC = 0
  /\ (if useUTC then getUTCSeconds next else getSeconds (JsDate.fixed offset)
      next) = 0
  /\ (if useUTC then getUTCMilliseconds next else getMilliseconds
      (JsDate.fixed offset) next) = 0.
Proof.
  intros Hh. unfold dayStart, currentHour, currentMinute.
  destruct useUTC; cbv zeta.
  - repeat split; date_arith.
  - repeat split; date_arith.
Qed.

Lemma multiple_mod_24 (every A : Z) :
  1 <= every -> A mod every = 0 -> 24 mod every = 0 ->
  (A mod 24) mod every = 0.
Proof.
  intros He HA H24.
  apply Z.mod_divide in HA; [|lia]. apply Z.mod_divide in H24; [|lia].
  apply Z.mod_divide; [lia|].
  rewrite Z.mod_eq by lia.
  apply Z.divide_sub_r; [assumption|].
  apply Z.divide_mul_l. assumption.
Qed.

Lemma current_hour_range (offset from : Z) (useUTC : bool) :
  0 <= currentHour (JsDate.fixed offset) from useUTC < 24.
Proof.
  unfold currentHour, getUTCHours, getHours, HourFromTime.
  destruct useUTC; apply Z.mod_pos_bound; lia.
Qed.

(** The hour and minute a daily schedule names. *)
Lemma daily_time (offset : Z) (at_ : string) (from : Z) (useUTC : bool)
    (next : Z) :
  getNextDailyTime (JsDate.fixed offset) at_ from useUTC = Ok next ->
  exists hourStr minuteStr hour minute,
    matchAt at_ = Some (hourStr, minuteStr)
    /\ JsString.parseInt hourStr = Some hour
    /\ JsString.parseInt minuteStr = Some minute
    /\ 0 <= hour <= 23 /\ 0 <= minute <= 59
    /\ let today :=
         dayStart (JsDate.fixed offset) from useUTC + hour * msPerHour + minute
             * msPerMinute in
       next = if today <=? from then today + msPerDay else today.
Proof.
  unfold getNextDailyTime.
  destruct (matchAt at_) as [[hourStr minuteStr]|]; [|discriminate].
  destruct (JsString.parseInt hourStr) as [hour|] eqn:Hhour; [|discriminate].
  destruct (JsString.parseInt minuteStr) as [minute|] eqn:Hminute;
    [|discriminate].
  destruct ((hour <? 0) || (23 <? hour)) eqn:Hh; [discriminate|].
  destruct ((minute <? 0) || (59 <? minute)) eqn:Hm; [discriminate|].
  apply orb_false_iff in Hh as [Hh1 Hh2]. apply orb_false_iff in Hm as [Hm1 Hm2].
  apply Z.ltb_ge in Hh1, Hh2, Hm1, Hm2.
  intros H. exists hourStr, minuteStr, hour, minute.
  split; [reflexivity|]. split; [assumption|]. split; [assumption|].
  split; [lia|]. split; [lia|].
  cbv zeta. revert H. unfold setUTCHours4, dayStart.
  destruct useUTC; rewrite setHours4_midnight, ?LocalTime_0.
  - destruct (_ <=? from); intros H; injection H as <-;
      [rewrite setUTCDate_shift; lia | reflexivity].
  - destruct (_ <=? from); intros H; injection H as <-;
      [rewrite setDate_shift; lia | reflexivity].
Qed.

End IntervalLaws.

(** X6.  Aligned seconds, on a host whose zone keeps a constant offset
    from UTC.  For [{ every: N, unit: "seconds", aligned: true }] with [N]
    a positive integer the next instant is [N] seconds after the start of
    the minute of [from], whatever the second of [from]; so it lies after
    [from] exactly when [from] is less than [N] seconds into its
    minute. *)
Theorem aligned_seconds_count_from_the_minute (offset every from : Z)
    (useUTC : bool) :
  1 <= every ->
  let next :=
    IntervalScheduler.getAlignedInterval (JsDate.fixed offset) every
        IntervalScheduler.seconds
      from useUTC in
  next = from - from mod JsDate.msPerMinute + every * JsDate.msPerSecond
  /\ (from < next <-> from mod JsDate.msPerMinute < every * JsDate.msPerSecond).
Proof.
  intros He. cbv zeta. rewrite aligned_seconds_value by assumption.
  split; [reflexivity | lia].
Qed.

(** Every 10 seconds, from 2025-01-15T10:00:03.500Z. *)
Lemma aligned_seconds_count_from_the_minute_witness :
  1 <= 10
  /\ IntervalScheduler.getAlignedInterval (JsDate.fixed 0) 10
      IntervalScheduler.seconds
       (JsDate.dateUTC 2025 0 15 10 0 3 500) true
     = JsDate.dateUTC 2025 0 15 10 0 3 500
       - JsDate.dateUTC 2025 0 15 10 0 3 500 mod JsDate.msPerMinute
       + 10 * JsDate.msPerSecond.
Proof.
  split; [lia|].
  exact (proj1 (aligned_seconds_count_from_the_minute 0 10
                  (JsDate.dateUTC 2025 0 15 10 0 3 500) true ltac:(lia))).
Defined.

(** X7.  Aligned hours, on a host whose zone keeps a constant offset from
    UTC.  For [{ every: N, unit: "hours", aligned: true }]
    with [N] a positive integer, let [A] be the next multiple of [N]
    strictly greater than the current hour.  The next instant lies [A]
    hours into the current day when [A] is below 24 and otherwise
    [A mod 24] hours into the next day; its minutes, seconds and
    milliseconds are zero in the chosen zone, its hour is [A mod 24], and
    it is strictly after [from].  The hour is a multiple of [N] when [A]
    is below 24 or [N] divides 24. *)
Theorem aligned_hours (offset every from : Z) (useUTC : bool) :
  1 <= every ->
  let next :=
    IntervalScheduler.getAlignedInterval (JsDate.fixed offset) every
        IntervalScheduler.hours
      from useUTC in
  let cur := IntervalScheduler.currentHour (JsDate.fixed offset) from useUTC in
  let alignedHour := IntervalScheduler.ceilDiv (cur + 1) every * every in
  (alignedHour mod every = 0 /\ cur < alignedHour <= cur + every)
  /\ next = IntervalScheduler.dayStart (JsDate.fixed offset) from useUTC
            + (if 24 <=? alignedHour
               then JsDate.msPerDay + (alignedHour mod 24) * JsDate.msPerHour
               else alignedHour * JsDate.msPerHour)
  /\ IntervalScheduler.currentHour (JsDate.fixed offset) next useUTC =
      alignedHour mod 24
  /\ IntervalScheduler.currentMinute (JsDate.fixed offset) next useUTC = 0
  /\ (if useUTC then JsDate.getUTCSeconds next
      else JsDate.getSeconds (JsDate.fixed offset) next) = 0
  /\ (if useUTC then JsDate.getUTCMilliseconds next
      else JsDate.getMilliseconds (JsDate.fixed offset) next) = 0
  /\ from < next
  /\ (alignedHour < 24 \/ 24 mod every = 0 ->
      (IntervalScheduler.currentHour (JsDate.fixed offset) next useUTC) mod
          every = 0).
Proof.
  intros He. cbv zeta.
  assert (Hafter := aligned_after_from offset every from IntervalScheduler.hours
                      useUTC He ltac:(discriminate)).
  revert Hafter.
  rewrite aligned_hours_value. cbv zeta.
  rewrite hour_start_is_day_start.
  set (cur := IntervalScheduler.currentHour (JsDate.fixed offset) from useUTC).
  destruct (ceilDiv_next_multiple (cur + 1) every He) as [[Hlo Hhi] Hmod].
  set (A := IntervalScheduler.ceilDiv (cur + 1) every * every) in *.
  assert (Hc : 0 <= cur < 24) by apply current_hour_range.
  assert (H24 := Z.mod_pos_bound A 24 ltac:(lia)).
  assert (Hnext :
    IntervalScheduler.dayStart (JsDate.fixed offset) from useUTC + cur *
        JsDate.msPerHour
    + (if 24 <=? A
       then JsDate.msPerDay + (A mod 24 - cur) * JsDate.msPerHour
       else (A - cur) * JsDate.msPerHour)
    = IntervalScheduler.dayStart (JsDate.fixed offset) from useUTC
      + (if 24 <=? A then 1 else 0) * JsDate.msPerDay
      + (A mod 24) * JsDate.msPerHour).
  { destruct (24 <=? A) eqn:E.
    - lia.
    - apply Z.leb_gt in E. rewrite (Z.mod_small A 24) by lia. lia. }
  rewrite Hnext. intros Hafter.
  destruct (fields_within_day offset from (A mod 24) (if 24 <=? A then 1 else 0)
              useUTC H24) as (Hhour & Hmin & Hsec & Hms).
  split; [split; [assumption | lia]|].
  split.
  { destruct (24 <=? A) eqn:E.
    - lia.
    - apply Z.leb_gt in E. rewrite (Z.mod_small A 24) by lia. lia. }
  repeat (split; [assumption|]).
  rewrite Hhour. intros [Hlt | Hdiv].
  - rewrite (Z.mod_small A 24) by lia. assumption.
  - apply multiple_mod_24; assumption.
Qed.

(** Every 6 hours, from 2025-01-15T19:20:00Z in UTC mode: midnight of the
    next day. *)
Lemma aligned_hours_witness :
  1 <= 6
  /\ IntervalScheduler.getAlignedInterval (JsDate.fixed 0) 6
      IntervalScheduler.hours
       (JsDate.dateUTC 2025 0 15 19 20 0 0) true
     = IntervalScheduler.dayStart (JsDate.fixed 0)
         (JsDate.dateUTC 2025 0 15 19 20 0 0) true
       + JsDate.msPerDay.
Proof.
  split; [lia|].
  exact (proj1 (proj2 (aligned_hours 0 6 (JsDate.dateUTC 2025 0 15 19 20 0 0)
                         true ltac:(lia)))).
Defined.

(** X8.  Aligned days, on a host whose zone keeps a constant offset from
    UTC.  For [{ every: N, unit: "days", aligned: true }] the next instant
    is the start of the day of [from], in the chosen zone, plus [N] days
    of 24 hours: its hour, minutes, seconds and milliseconds are zero
    there, and for a positive [N] it lies after [from], by at most [N]
    days.  (Where the clocks of the host change a local day can have 23
    or 25 hours: see [local_days_where_the_clocks_go_back].) *)
Theorem aligned_days :
  forall offset every from useUTC,
    let next :=
      IntervalScheduler.getAlignedInterval (JsDate.fixed offset) every
          IntervalScheduler.days
        from useUTC in
    next = IntervalScheduler.dayStart (JsDate.fixed offset) from useUTC + every
        * JsDate.msPerDay
    /\ IntervalScheduler.currentHour (JsDate.fixed offset) next useUTC = 0
    /\ IntervalScheduler.currentMinute (JsDate.fixed offset) next useUTC = 0
    /\ (if useUTC then JsDate.getUTCSeconds next
        else JsDate.getSeconds (JsDate.fixed offset) next) = 0
    /\ (if useUTC then JsDate.getUTCMilliseconds next
        else JsDate.getMilliseconds (JsDate.fixed offset) next) = 0
    /\ (1 <= every -> from < next <= from + every * JsDate.msPerDay).
Proof.
  intros offset every from useUTC. cbv zeta.
  rewrite aligned_days_value.
  destruct (fields_within_day offset from 0 every useUTC ltac:(lia))
    as (Hhour & Hmin & Hsec & Hms).
  replace (IntervalScheduler.dayStart (JsDate.fixed offset) from useUTC + every
      * JsDate.msPerDay
           + 0 * JsDate.msPerHour)
    with (IntervalScheduler.dayStart (JsDate.fixed offset) from useUTC + every *
        JsDate.msPerDay)
    in * by lia.
  split; [reflexivity|]. repeat (split; [assumption|]).
  intros He. unfold IntervalScheduler.dayStart.
  destruct useUTC; date_arith.
Qed.

(** X9.  The daily schedule, in UTC mode on every host, and in local mode
    on a host whose zone keeps a constant offset from UTC.  When
    [{ at: "HH:MM" }] is accepted, the hour is within 0..23 and the minute
    within 0..59, and the next instant is the first one strictly after
    [from] that reads HH:MM:00.000 in the chosen zone: today's if that is
    still ahead, otherwise tomorrow's; so it is at most 24 hours after
    [from].  (In local mode, where the clocks of the host change, the
    next instant can be 25 hours away: see
    [local_days_where_the_clocks_go_back].) *)
Theorem daily_at (zone : JsDate.Zone) (at_ : string) (from : Z)
    (useUTC : bool) (next : Z) :
  useUTC = true \/ (exists offset, zone = JsDate.fixed offset) ->
  IntervalScheduler.getNextDailyTime zone at_ from useUTC = Ok next ->
  exists hourStr minuteStr hour minute,
    IntervalScheduler.matchAt at_ = Some (hourStr, minuteStr)
    /\ JsString.parseInt hourStr = Some hour
    /\ JsString.parseInt minuteStr = Some minute
    /\ 0 <= hour <= 23 /\ 0 <= minute <= 59
    /\ IntervalScheduler.currentHour zone next useUTC = hour
    /\ IntervalScheduler.currentMinute zone next useUTC = minute
    /\ (if useUTC then JsDate.getUTCSeconds next
        else JsDate.getSeconds zone next) = 0
    /\ (if useUTC then JsDate.getUTCMilliseconds next
        else JsDate.getMilliseconds zone next) = 0
    /\ from < next <= from + JsDate.msPerDay.
Proof.
  intros Hzone H.
  assert (Hfixed :
    exists offset,
      IntervalScheduler.getNextDailyTime (JsDate.fixed offset) at_ from useUTC
      = Ok next
      /\ IntervalScheduler.currentHour zone next useUTC
         = IntervalScheduler.currentHour (JsDate.fixed offset) next useUTC
      /\ IntervalScheduler.currentMinute zone next useUTC
         = IntervalScheduler.currentMinute (JsDate.fixed offset) next useUTC
      /\ (if useUTC then JsDate.getUTCSeconds next
          else JsDate.getSeconds zone next)
         = (if useUTC then JsDate.getUTCSeconds next
            else JsDate.getSeconds (JsDate.fixed offset) next)
      /\ (if useUTC then JsDate.getUTCMilliseconds next
          else JsDate.getMilliseconds zone next)
         = (if useUTC then JsDate.getUTCMilliseconds next
            else JsDate.getMilliseconds (JsDate.fixed offset) next)).
  { destruct Hzone as [-> | [offset ->]].
    - exists 0. split; [|repeat split].
      rewrite <- H. unfold IntervalScheduler.getNextDailyTime.
      destruct (IntervalScheduler.matchAt at_) as [[hs ms]|]; reflexivity.
    - exists offset. repeat split. exact H. }
  destruct Hfixed as (offset & Hfix & -> & -> & -> & ->).
  clear H Hzone zone.
  destruct (daily_time offset at_ from useUTC next Hfix)
    as (hourStr & minuteStr & hour & minute & Hat & Hhour & Hminute & Hh & Hm
        & Hnext).
  exists hourStr, minuteStr, hour, minute.
  repeat (split; [assumption|]).
  cbv zeta in Hnext. subst next.
  unfold IntervalScheduler.dayStart, IntervalScheduler.currentHour,
    IntervalScheduler.currentMinute.
  destruct useUTC.
  - destruct (Z.leb_spec (from - from mod JsDate.msPerDay
                          + hour * JsDate.msPerHour
                          + minute * JsDate.msPerMinute) from);
      repeat split; date_arith.
  - destruct (Z.leb_spec
      (from - JsDate.LocalTime (JsDate.fixed offset) from mod JsDate.msPerDay
                          + hour * JsDate.msPerHour
                          + minute * JsDate.msPerMinute) from);
      repeat split; date_arith.
Qed.

(** "09:30" from 2025-01-15T10:00:00Z in UTC mode, on a New York host: the
    next day. *)
Lemma daily_at_witness :
  IntervalScheduler.getNextDailyTime Sample.newYork "09:30"
    (JsDate.dateUTC 2025 0 15 10 0 0 0) true
  = Ok (JsDate.dateUTC 2025 0 16 9 30 0 0)
  /\ exists hourStr minuteStr hour minute,
       IntervalScheduler.matchAt "09:30" = Some (hourStr, minuteStr)
       /\ JsString.parseInt hourStr = Some hour
       /\ JsString.parseInt minuteStr = Some minute
       /\ 0 <= hour <= 23 /\ 0 <= minute <= 59
       /\ IntervalScheduler.currentHour Sample.newYork
            (JsDate.dateUTC 2025 0 16 9 30 0 0) true = hour
       /\ IntervalScheduler.currentMinute Sample.newYork
            (JsDate.dateUTC 2025 0 16 9 30 0 0) true = minute
       /\ JsDate.getUTCSeconds (JsDate.dateUTC 2025 0 16 9 30 0 0) = 0
       /\ JsDate.getUTCMilliseconds (JsDate.dateUTC 2025 0 16 9 30 0 0) = 0
       /\ JsDate.dateUTC 2025 0 15 10 0 0 0 < JsDate.dateUTC 2025 0 16 9 30 0 0
          <= JsDate.dateUTC 2025 0 15 10 0 0 0 + JsDate.msPerDay.
Proof.
  split; [reflexivity|].
  exact (daily_at Sample.newYork "09:30" (JsDate.dateUTC 2025 0 15 10 0 0 0)
           true (JsDate.dateUTC 2025 0 16 9 30 0 0) (or_introl eq_refl)
           eq_refl).
Defined.

(** The day the clocks go back has 25 hours.  On a New York host, in local
    mode: [{ every: 1, unit: "days", aligned: true }] from
    2025-11-02T04:00:01Z (00:00:01 local time) gives 2025-11-03T05:00:00Z,
    the next local midnight, 25 hours after the last one; and
    [{ at: "09:00" }] from 2025-11-01T13:00:01Z (09:00:01 local time)
    gives 2025-11-02T14:00:00Z, 25 hours less a second later. *)
Example local_days_where_the_clocks_go_back :
  IntervalScheduler.getAlignedInterval Sample.newYork 1
    IntervalScheduler.days (JsDate.dateUTC 2025 10 2 4 0 1 0) false
  = JsDate.dateUTC 2025 10 3 5 0 0 0
  /\ IntervalScheduler.getNextDailyTime Sample.newYork "09:00"
       (JsDate.dateUTC 2025 10 1 13 0 1 0) false
     = Ok (JsDate.dateUTC 2025 10 2 14 0 0 0)
  /\ JsDate.dateUTC 2025 10 1 13 0 1 0 + JsDate.msPerDay
     < JsDate.dateUTC 2025 10 2 14 0 0 0.
Proof. vm_compute. repeat split. Qed.

(** X10.  The next run lies ahead, on a host whose zone keeps a constant
    offset from UTC.  For every schedule that is accepted (an interval
    with a positive [every], a cron expression, a daily time), other than
    an aligned interval in seconds, the instant [getNextScheduledTime]
    computes is strictly after the instant it starts from.  (Where the
    clocks of the host go back, a cron schedule and an aligned interval
    can give an instant before the start, which [scheduleJob] answers
    with its retry after 100 ms.) *)
Theorem next_run_is_after_now (offset now : Z) (schedule : Scheduler.Schedule)
    (options : Scheduler.ScheduleOptions) (next : Z) :
  match schedule with
  | Scheduler.Every every unit aligned =>
      1 <= every
      /\ (unit = IntervalScheduler.seconds -> aligned <> Some true)
  | _ => True
  end ->
  Scheduler.getNextScheduledTime (JsDate.fixed offset) now schedule options = Ok
      next ->
  now < next.
Proof.
  intros Hacc. apply next_instant_after_now.
  destruct schedule as [every unit aligned | | |]; try exact I.
  destruct Hacc as [He Hs]. split; [assumption|].
  intros [Hu Ha]. exact (Hs Hu Ha).
Qed.

(** Every 2 hours, aligned, from 2025-01-15T10:07:30Z in UTC mode. *)
Lemma next_run_is_after_now_witness :
  Scheduler.getNextScheduledTime (JsDate.fixed 0)
      (JsDate.dateUTC 2025 0 15 10 7 30 0)
    (Scheduler.Every 2 IntervalScheduler.hours (Some true))
    {| Scheduler.utc := Some true |}
  = Ok (JsDate.dateUTC 2025 0 15 12 0 0 0)
  /\ JsDate.dateUTC 2025 0 15 10 7 30 0 < JsDate.dateUTC 2025 0 15 12 0 0 0.
Proof.
  split; [reflexivity|].
  apply (next_run_is_after_now 0 (JsDate.dateUTC 2025 0 15 10 7 30 0)
           (Scheduler.Every 2 IntervalScheduler.hours (Some true))
           {| Scheduler.utc := Some true |}).
  - split; [lia | discriminate].
  - reflexivity.
Defined.

(* ================================================================== *)
(** * The instants [scheduleJob] runs the job for *)
(* ================================================================== *)

Section Firing.

Import JsDate Scheduler.

Variable zone : JsDate.Zone.
Variable schedule : Schedule.
Variable fn : Z -> option Thrown.
Variable options : ScheduleOptions.

Lemma executedAt_app (l l' : list Event) :
  executedAt (l ++ l') = executedAt l ++ executedAt l'.
Proof. unfold executedAt. apply flat_map_app. Qed.

(** [scheduleNext] arms one timer at [now] and calls nothing. *)
Lemma scheduleNext_arms (now : Z) (st : State) :
  done st = false -> Timers.pending (timers st) = [] ->
  let st' := scheduleNext zone schedule options now st in
  executedAt (events st') = executedAt (events st)
  /\ exists p, Timers.pending (timers st') = [p] /\ Timers.armedAt p = now.
Proof.
  intros Hd Hp. cbv zeta. unfold scheduleNext. rewrite Hd.
  destruct (getNextScheduledTime zone now schedule options) as [nextRun|e].
  - destruct (_ <=? 0); cbn; rewrite Hp; (split; [reflexivity|]);
      eexists; split; reflexivity.
  - cbn. rewrite Hp, executedAt_app, app_nil_r. split; [reflexivity|].
    eexists. split; reflexivity.
Qed.

(** What one firing does: the job is called when the timer that fires was
    armed for the computed run itself, and then for that run with its
    milliseconds set to 0; a retry or a capped timer calls nothing. *)
Lemma tick_calls (late : Z) (st : State) (p : Timers.Pending Closure) :
  done st = false -> Timers.pending (timers st) = [p] ->
  let st' := tick zone schedule fn options late st in
  executedAt (events st')
  = executedAt (events st)
    ++ match Timers.callback p with
       | Run nextRun false => [setMilliseconds zone nextRun 0]
       | _ => []
       end
  /\ exists p', Timers.pending (timers st') = [p']
                /\ Timers.armedAt p' = Timers.due p + late.
Proof.
  intros Hd Hp. cbv zeta. unfold tick. rewrite Hp. cbn [Timers.earliest].
  assert (Hq : Timers.pending (Timers.clearTimeout (timers st) (Timers.timerId p))
               = []).
  { unfold Timers.clearTimeout. cbn. rewrite Hp. cbn.
    rewrite Nat.eqb_refl. reflexivity. }
  unfold runClosure. cbn [done timers events currentTimer]. rewrite Hd.
  cbn [negb].
  destruct (Timers.callback p) as [|nextRun [|]];
    try destruct (fn _) as [e|];
    match goal with |- context [scheduleNext _ _ _ ?now ?s] =>
      destruct (scheduleNext_arms now s eq_refl Hq) as [He Hp']
    end;
    cbv zeta in He; rewrite He; cbn [events];
    rewrite ?executedAt_app, ?app_nil_r; (split; [reflexivity | exact Hp']).
Qed.

End Firing.

Section RunTimes.

Import JsDate Scheduler.

Lemma setMilliseconds_floor (offset t : Z) :
  setMilliseconds (JsDate.fixed offset) t 0 = t - t mod msPerSecond.
Proof.
  unfold setMilliseconds, UTC, MakeDate, MakeTime; cbn
      [JsDate.LocalTZA JsDate.fixed].
  set (lt := LocalTime (JsDate.fixed offset) t).
  assert (H := time_decompose lt).
  assert (Hm : msFromTime lt = t mod msPerSecond).
  { subst lt. unfold msFromTime, LocalTime, msPerMinute, msPerSecond; cbn
      [JsDate.LocalTZA JsDate.fixed]; unfold JsDate.msPerMinute.
    Z.div_mod_to_equations. lia. }
  unfold LocalTime in *; cbn [JsDate.LocalTZA JsDate.fixed] in *. fold lt in H.
      lia.
Qed.

(** An aligned interval falls on a whole second. *)
Lemma aligned_whole_second (offset every from : Z)
    (unit : IntervalScheduler.TimeUnit) (useUTC : bool) :
  1 <= every ->
  (IntervalScheduler.getAlignedInterval (JsDate.fixed offset) every unit from
      useUTC)
    mod msPerSecond = 0.
Proof.
  intros He. destruct unit.
  - rewrite aligned_seconds_value by assumption. date_arith.
  - rewrite aligned_minutes_value. cbv zeta.
    destruct (60 <=? _); date_arith.
  - rewrite aligned_hours_value. cbv zeta. unfold IntervalScheduler.hourStart.
    destruct (24 <=? _); destruct useUTC; date_arith.
  - rewrite aligned_days_value. unfold IntervalScheduler.dayStart.
    destruct useUTC; date_arith.
Qed.

(** A computed run falls on a whole second, or a second or more after the
    instant it was computed at. *)
Lemma next_run_granularity (offset now : Z) (schedule : Schedule)
    (options : ScheduleOptions) (next : Z) :
  match schedule with
  | Every every _ _ => 1 <= every
  | _ => True
  end ->
  getNextScheduledTime (JsDate.fixed offset) now schedule options = Ok next ->
  next mod msPerSecond = 0 \/ now + msPerSecond <= next.
Proof.
  destruct schedule as [every unit aligned | cron | at_ |]; intros Hacc;
    unfold getNextScheduledTime.
  - unfold IntervalScheduler.getNextIntervalTime,
      IntervalScheduler.getNextIntervalOccurrence.
    cbn [IntervalScheduler.aligned IntervalScheduler.every
         IntervalScheduler.unit].
    assert (Hdrift : now + msPerSecond
                     <= IntervalScheduler.getDriftInterval every unit now).
    { unfold IntervalScheduler.getDriftInterval,
        IntervalScheduler.getIntervalMs, getTime, msPerSecond.
      destruct unit; lia. }
    destruct aligned as [[|]|]; intros H; injection H as <-.
    + left. apply aligned_whole_second. assumption.
    + right. assumption.
    + right. assumption.
  - destruct (CronParser.parseCronExpression cron) as [fields|e];
      cbn [bind]; [|discriminate].
    unfold CronParser.getNextCronOccurrence. cbv zeta. rewrite search_start.
    destruct (cronLoop_spec offset fields
                (match utc options with Some b => b | None => false end)
                CronParser.MAX_ITERATIONS (CronParser.firstCandidate now))
      as [(k & _ & Hr & _) | [Hr _]]; rewrite Hr; intros H; [|discriminate].
    injection H as <-. left. clear.
    unfold CronParser.firstCandidate, msPerMinute, msPerSecond.
    Z.div_mod_to_equations. lia.
  - unfold IntervalScheduler.getNextIntervalTime. intros H. left.
    destruct (daily_time _ _ _ _ _ H)
      as (hs & ms & hour & minute & _ & _ & _ & _ & _ & Hnext).
    cbv zeta in Hnext. subst next. unfold IntervalScheduler.dayStart.
    destruct (_ <=? now); destruct (match utc options with
                                    | Some b => b
                                    | None => false
                                    end); date_arith.
  - discriminate.
Qed.

Lemma sorted_snoc (l : list Z) (x : Z) :
  StronglySorted Z.lt l -> Forall (fun t => t < x) l ->
  StronglySorted Z.lt (l ++ [x]).
Proof.
  induction 1 as [|y l Hs IH Hall]; intros Hlt; cbn [app].
  - repeat constructor.
  - inversion Hlt as [|? ? Hy Hl]; subst.
    constructor; [apply IH; assumption|].
    apply Forall_app. split; [assumption | repeat constructor; assumption].
Qed.

Variable offset : Z.
Variable schedule : Schedule.
Variable fn : Z -> option Thrown.
Variable options : ScheduleOptions.

(** On a host of constant offset the job is called for the computed run
    with its milliseconds removed. *)
Lemma tick_step (late : Z) (st : State) (p : Timers.Pending Closure) :
  done st = false -> Timers.pending (timers st) = [p] ->
  let st' := tick (JsDate.fixed offset) schedule fn options late st in
  executedAt (events st')
  = executedAt (events st)
    ++ match Timers.callback p with
       | Run nextRun false => [nextRun - nextRun mod msPerSecond]
       | _ => []
       end
  /\ exists p', Timers.pending (timers st') = [p']
                /\ Timers.armedAt p' = Timers.due p + late.
Proof.
  intros Hd Hp.
  destruct (tick_calls (JsDate.fixed offset) schedule fn options late st p
              Hd Hp) as [Hev Hp'].
  cbv zeta in *. split; [|exact Hp']. rewrite Hev.
  destruct (Timers.callback p) as [|nextRun [|]];
    rewrite ?setMilliseconds_floor; reflexivity.
Qed.

Hypothesis accepted :
  match schedule with
  | Every every _ _ => 1 <= every
  | _ => True
  end.

Variable start : Z.

(** The runs so far are in order and behind the armed timer. *)
Lemma ticks_in_order (lates : list Z) :
  Forall (fun late => 0 <= late) lates ->
  forall st,
    alive (JsDate.fixed offset) schedule options st ->
    (forall p, Timers.pending (timers st) = [p] ->
       start <= Timers.armedAt p
       /\ Forall (fun t => t <= Timers.armedAt p) (executedAt (events st))) ->
    StronglySorted Z.lt (executedAt (events st)) ->
    Forall (fun t => t mod msPerSecond = 0 /\ start < t)
           (executedAt (events st)) ->
    let st' := ticks (JsDate.fixed offset) schedule fn options lates st in
    StronglySorted Z.lt (executedAt (events st'))
    /\ Forall (fun t => t mod msPerSecond = 0 /\ start < t)
              (executedAt (events st')).
Proof.
  induction 1 as [|late lates Hlate Hlates IH]; intros st Halive Hbehind Hs Hw;
    cbv zeta; cbn [ticks fold_left].
  - split; assumption.
  - assert (Halive' := tick_alive (JsDate.fixed offset) schedule fn options late
      st Halive).
    destruct Halive as [Hd (p & Hp & Harmed)].
    destruct (Hbehind p Hp) as [Hstart Hle].
    destruct (tick_step late st p Hd Hp) as [Hev (p' & Hp' & Hat)].
    cbv zeta in Hev.
    assert (Hdue : Timers.armedAt p <= Timers.due p
                   /\ forall nextRun, Timers.callback p = Run nextRun false ->
                        Timers.due p = nextRun
                        /\ Timers.armedAt p < nextRun - nextRun mod msPerSecond).
    { unfold armedAsScheduled in Harmed. unfold Timers.due.
      destruct (getNextScheduledTime (JsDate.fixed offset) (Timers.armedAt p)
          schedule options)
        as [nr|e] eqn:Hn.
      - destruct (Z.leb_spec nr (Timers.armedAt p)).
        + destruct Harmed as [-> ->]. split; [lia|]. discriminate.
        + destruct Harmed as [Hdelay Hcb]. unfold maxDelay in *.
          split; [lia|]. intros nextRun E. rewrite E in Hcb.
          injection Hcb as -> Hcap. symmetry in Hcap. apply Z.ltb_ge in Hcap.
          split; [lia|].
          destruct (next_run_granularity _ _ _ _ _ accepted Hn) as [Hg | Hg];
            unfold msPerSecond in *; Z.div_mod_to_equations; lia.
      - destruct Harmed as [-> ->]. split; [lia|]. discriminate. }
    destruct Hdue as [Hdue Hrun].
    apply IH; try assumption.
    + intros q Hq. rewrite Hp' in Hq. injection Hq as <-. rewrite Hat.
      split; [lia|]. rewrite Hev. apply Forall_app. split.
      * eapply Forall_impl; [|exact Hle]. cbn. intros t Ht. lia.
      * destruct (Timers.callback p) as [|nextRun [|]]; try constructor;
          [|constructor].
        destruct (Hrun nextRun eq_refl) as [Hd' _].
        assert (Hm := Z.mod_pos_bound nextRun msPerSecond
                        ltac:(unfold msPerSecond; lia)).
        lia.
    + rewrite Hev.
      destruct (Timers.callback p) as [|nextRun [|]];
        rewrite ?app_nil_r; try assumption.
      apply sorted_snoc; [assumption|].
      destruct (Hrun nextRun eq_refl) as [_ Hgt].
      eapply Forall_impl; [|exact Hle]. cbn. intros t Ht. lia.
    + rewrite Hev. apply Forall_app. split; [assumption|].
      destruct (Timers.callback p) as [|nextRun [|]]; try constructor;
        [|constructor].
      destruct (Hrun nextRun eq_refl) as [_ Hgt].
      split; [|lia]. unfold msPerSecond. Z.div_mod_to_equations. lia.
Qed.

End RunTimes.

(** X11.  The instants the job is run for, on a host whose zone keeps a
    constant offset from UTC.  Let a schedule be accepted with a positive
    [every] where it is an interval, and let no timer fire early.  Then,
    however late the timers fire, the instants [scheduleJob] passes to the
    job callback are whole seconds, each strictly later than the one
    before and all strictly later than the instant [scheduleJob] was
    called at: no run time is used twice.  (Where the clocks of the host
    go back this fails: see [run_times_where_the_clocks_go_back].) *)
Theorem scheduleJob_run_times_increase
    (offset : Z) (schedule : Scheduler.Schedule) (fn : Z -> option Thrown)
    (options : Scheduler.ScheduleOptions) (start : Z) (lates : list Z) :
  match schedule with
  | Scheduler.Every every _ _ => 1 <= every
  | _ => True
  end ->
  Forall (fun late => 0 <= late) lates ->
  let st :=
    Scheduler.ticks (JsDate.fixed offset) schedule fn options lates
      (Scheduler.scheduleJob (JsDate.fixed offset) schedule options start) in
  StronglySorted Z.lt (Scheduler.executedAt (Scheduler.events st))
  /\ Forall (fun t => t mod JsDate.msPerSecond = 0 /\ start < t)
            (Scheduler.executedAt (Scheduler.events st)).
Proof.
  intros Hacc Hlates.
  apply (ticks_in_order offset schedule fn options Hacc start lates Hlates).
  - apply scheduleJob_alive.
  - intros p Hp.
    destruct (scheduleNext_arms (JsDate.fixed offset) schedule options start
                {| Scheduler.done := false; Scheduler.currentTimer := None;
                   Scheduler.timers := Timers.empty; Scheduler.events := [] |}
                eq_refl eq_refl) as [He (q & Hq & Hat)].
    cbv zeta in He. fold
        (Scheduler.scheduleJob (JsDate.fixed offset) schedule options start) in
            *.
    rewrite Hq in Hp. injection Hp as <-. rewrite Hat, He.
    split; [lia | constructor].
  - destruct (scheduleNext_arms (JsDate.fixed offset) schedule options start
                {| Scheduler.done := false; Scheduler.currentTimer := None;
                   Scheduler.timers := Timers.empty; Scheduler.events := [] |}
                eq_refl eq_refl) as [He _].
    cbv zeta in He. fold
        (Scheduler.scheduleJob (JsDate.fixed offset) schedule options start) in
            *.
    rewrite He. constructor.
  - destruct (scheduleNext_arms (JsDate.fixed offset) schedule options start
                {| Scheduler.done := false; Scheduler.currentTimer := None;
                   Scheduler.timers := Timers.empty; Scheduler.events := [] |}
                eq_refl eq_refl) as [He _].
    cbv zeta in He. fold
        (Scheduler.scheduleJob (JsDate.fixed offset) schedule options start) in
            *.
    rewrite He. constructor.
Qed.

(** Every 15 minutes, aligned, from 2025-01-15T10:07:30Z, the timers firing
    3 ms late and on time: the job is run for 10:15 and for 10:30. *)
Lemma scheduleJob_run_times_increase_witness :
  let st :=
    Scheduler.ticks (JsDate.fixed 0)
        (Scheduler.Every 15 IntervalScheduler.minutes (Some true))
      (fun _ => None) {| Scheduler.utc := Some true |} [3; 0]
      (Scheduler.scheduleJob (JsDate.fixed 0)
         (Scheduler.Every 15 IntervalScheduler.minutes (Some true))
         {| Scheduler.utc := Some true |}
         (JsDate.dateUTC 2025 0 15 10 7 30 0)) in
  Scheduler.executedAt (Scheduler.events st)
  = [JsDate.dateUTC 2025 0 15 10 15 0 0; JsDate.dateUTC 2025 0 15 10 30 0 0]
  /\ StronglySorted Z.lt (Scheduler.executedAt (Scheduler.events st)).
Proof.
  cbv zeta. split; [vm_compute; reflexivity|].
  apply (scheduleJob_run_times_increase 0
           (Scheduler.Every 15 IntervalScheduler.minutes (Some true))
           (fun _ => None) {| Scheduler.utc := Some true |}
           (JsDate.dateUTC 2025 0 15 10 7 30 0) [3; 0]).
  - lia.
  - repeat constructor; lia.
Defined.

(** The hour that occurs twice.  On a New York host a job scheduled every
    10 minutes (drift) at 2025-11-02T05:45:00Z has its timers due at
    05:55Z, 06:05Z and 06:15Z.  The job is called for 05:55Z, then for
    05:05Z and 05:15Z: the local [setMilliseconds(0)] takes the local
    times 01:05 and 01:15, which occur twice, back to their first
    occurrence.  The run times go back and precede the start. *)
Example run_times_where_the_clocks_go_back :
  let schedule := Scheduler.Every 10 IntervalScheduler.minutes None in
  let options := {| Scheduler.utc := None |} in
  let st :=
    Scheduler.ticks Sample.newYork schedule (fun _ => None) options [0; 0; 0]
      (Scheduler.scheduleJob Sample.newYork schedule options
         (JsDate.dateUTC 2025 10 2 5 45 0 0)) in
  Scheduler.executedAt (Scheduler.events st)
  = [JsDate.dateUTC 2025 10 2 5 55 0 0; JsDate.dateUTC 2025 10 2 5 5 0 0;
     JsDate.dateUTC 2025 10 2 5 15 0 0]
  /\ map Timers.armedAt (Timers.pending (Scheduler.timers st))
     = [JsDate.dateUTC 2025 10 2 6 15 0 0].
Proof. vm_compute. split; reflexivity. Qed.

(** X12.  What one firing does, on every host.  Let the schedule be one
    whose next run is a valid date (any but an aligned interval of
    [every = 0] seconds, minutes or hours).  In every state [scheduleJob]
    reaches, one timer is armed.  When it fires, the job is called exactly
    when that timer was armed for the computed run itself: the timer was
    then due at the run time, and the job is called once, for the run
    time after the local [setMilliseconds(0)].  A retry timer, and a
    timer whose delay was capped at 2147483647 ms (it is due before the
    run time), call nothing; either way one new timer is armed at the
    instant of the firing.  On a host whose zone keeps a constant offset
    [setMilliseconds(0)] removes the milliseconds and nothing else. *)
Theorem scheduleJob_firing :
  forall (zone : JsDate.Zone) schedule fn options start lates late,
    Scheduler.yieldsInvalidDate schedule = false ->
    let st :=
      Scheduler.ticks zone schedule fn options lates
        (Scheduler.scheduleJob zone schedule options start) in
    let st' := Scheduler.tick zone schedule fn options late st in
    (exists p p',
       Timers.pending (Scheduler.timers st) = [p]
       /\ Timers.pending (Scheduler.timers st') = [p']
       /\ Timers.armedAt p' = Timers.due p + late
       /\ Scheduler.executedAt (Scheduler.events st')
          = Scheduler.executedAt (Scheduler.events st)
            ++ match Timers.callback p with
               | Scheduler.Run nextRun false =>
                   [JsDate.setMilliseconds zone nextRun 0]
               | _ => []
               end
       /\ match Timers.callback p with
          | Scheduler.Run nextRun false => Timers.due p = nextRun
          | Scheduler.Run nextRun true =>
              Timers.delay p = Scheduler.maxDelay /\ Timers.due p < nextRun
          | Scheduler.Retry => Timers.delay p = 100 \/ Timers.delay p = 5000
          end)
    /\ (forall offset nextRun : Z,
          JsDate.setMilliseconds (JsDate.fixed offset) nextRun 0
          = nextRun - nextRun mod 1000).
Proof.
  intros zone schedule fn options start lates late _ st st'.
  split; [|intros offset nextRun; apply setMilliseconds_floor].
  assert (Halive : Scheduler.alive zone schedule options st)
    by (apply ticks_alive, scheduleJob_alive).
  destruct Halive as [Hd (p & Hp & Harmed)].
  destruct (tick_calls zone schedule fn options late st p Hd Hp)
    as [Hev (p' & Hp' & Hat)].
  exists p, p'. repeat (split; [assumption|]).
  unfold Scheduler.armedAsScheduled in Harmed. unfold Timers.due.
  destruct (Scheduler.getNextScheduledTime zone (Timers.armedAt p) schedule
              options) as [nr|e].
  - destruct (Z.leb_spec nr (Timers.armedAt p)).
    + destruct Harmed as [-> ->]. left. reflexivity.
    + destruct Harmed as [Hdelay ->]. unfold Scheduler.maxDelay in *.
      destruct (Z.ltb_spec 2147483647 (nr - Timers.armedAt p)); lia.
  - destruct Harmed as [-> ->]. right. reflexivity.
Qed.

(** The third firing of the job of [run_times_where_the_clocks_go_back]: the
    timer due at 06:15Z fires 2 ms late, the job is called for 05:15Z and
    the next timer is armed at 06:15:00.002Z. *)
Lemma scheduleJob_firing_witness :
  let schedule := Scheduler.Every 10 IntervalScheduler.minutes None in
  let options := {| Scheduler.utc := None |} in
  let st :=
    Scheduler.ticks Sample.newYork schedule (fun _ => None) options [0; 0]
      (Scheduler.scheduleJob Sample.newYork schedule options
         (JsDate.dateUTC 2025 10 2 5 45 0 0)) in
  let st' :=
    Scheduler.tick Sample.newYork schedule (fun _ => None) options 2 st in
  Scheduler.yieldsInvalidDate schedule = false
  /\ exists p p',
       Timers.pending (Scheduler.timers st) = [p]
       /\ Timers.pending (Scheduler.timers st') = [p']
       /\ Timers.armedAt p' = Timers.due p + 2.
Proof.
  cbv zeta. split; [reflexivity|].
  destruct (proj1 (scheduleJob_firing Sample.newYork
                     (Scheduler.Every 10 IntervalScheduler.minutes None)
                     (fun _ => None) {| Scheduler.utc := None |}
                     (JsDate.dateUTC 2025 10 2 5 45 0 0) [0; 0] 2 eq_refl))
    as (p & p' & Hp & Hp' & Hat & _).
  exists p, p'. repeat split; assumption.
Defined.

(* ================================================================== *)
(** * The timers of timerManager.ts *)
(* ================================================================== *)

Section RecurringTimer.

Import TimerManager.

Variable zone : JsDate.Zone.
Variable getNextTime : nat -> Z -> NextTime.
Variable execute : Z -> option Thrown.
Variable options : TimerOptions.

(** Computing the next run arms and cancels nothing, and resets the
    failure count when it succeeds. *)
Lemma computeNextRun_keeps (now : Z) (st : State) :
  0 <= consecutiveFailures st ->
  let '(st', r) := computeNextRun getNextTime options now st in
  timers st' = timers st /\ done st' = done st
  /\ 0 <= consecutiveFailures st'
  /\ (isOk r = true -> consecutiveFailures st' = 0).
Proof.
  intros Hf. unfold computeNextRun.
  destruct (getNextTime _ now) as [t| | |e]; cbn;
    try (repeat split; [assumption | discriminate]).
  destruct (t <=? now); cbn; [repeat split; [assumption | discriminate]|].
  destruct (onSchedule options) as [callback|]; cbn;
    [|repeat split; lia].
  destruct (callback t); cbn; repeat split; lia.
Qed.

(** Reporting an error to [onError] changes nothing but the events; it
    throws only what the callback throws. *)
Lemma reportError_keeps (err : Thrown) (st : State) :
  let '(st', thrown) := reportError options err st in
  timers st' = timers st /\ done st' = done st
  /\ consecutiveFailures st' = consecutiveFailures st
  /\ currentTimer st' = currentTimer st
  /\ (observersReturn options -> thrown = None).
Proof.
  unfold reportError. destruct (onError options) as [callback|] eqn:Hcb.
  - cbn. repeat split. intros [Hret _]. exact (Hret callback err Hcb).
  - repeat split.
Qed.

Lemma scheduleNext_one_timer (now : Z) (st : State) :
  done st = false -> Timers.pending (timers st) = [] ->
  0 <= consecutiveFailures st ->
  settled options (fst (scheduleNext getNextTime options now st))
          (snd (scheduleNext getNextTime options now st)).
Proof.
  intros Hd Hp Hf. unfold scheduleNext, settled. rewrite Hd.
  assert (H := computeNextRun_keeps now st Hf).
  destruct (computeNextRun getNextTime options now st) as [st1 [nextRun|e]].
  - destruct H as (Ht & Hd1 & Hf1 & Hok). specialize (Hok eq_refl).
    cbn. rewrite Hd1, Hd, Ht, Hp. cbn. split; [lia|].
    split; [|reflexivity].
    split; [|left; assumption]. eexists. split; reflexivity.
  - destruct H as (Ht & Hd1 & Hf1 & _).
    match goal with |- context [reportError options ?err ?s] =>
      assert (Hr := reportError_keeps err s);
      destruct (reportError options err s) as [st2 [thrown|]]
    end;
      cbn [done currentTimer consecutiveFailures timers events] in Hr;
      destruct Hr as (Ht2 & Hd2 & Hf2 & Hc2 & Hret).
    + cbn [fst snd]. rewrite Hd2, Hd1, Hd, Ht2, Ht, Hp, Hf2.
      split; [lia|]. split; [reflexivity | exact Hret].
    + destruct (Z.leb_spec (maxFailures options) (consecutiveFailures st1 + 1)).
      * destruct (onCircuitBreak options) as [callback|] eqn:Hcb;
          cbn [fst snd record done timers consecutiveFailures];
          rewrite Ht2, Ht, Hp; (split; [lia|]);
          (split; [split; [reflexivity | lia]|]).
        -- intros [_ Hret']. exact (Hret' callback _ Hcb).
        -- reflexivity.
      * cbn. rewrite Hd2, Hd1, Hd, Ht2, Ht, Hp. cbn. split; [lia|].
        split; [|reflexivity].
        split; [|right; lia]. eexists. split; reflexivity.
Qed.

Lemma settled_betweenFirings (threw : Prop) (st : State)
    (thrown : option Thrown) :
  settled options st thrown -> uncaught (events st) = [] ->
  (thrown <> None -> threw) ->
  betweenFirings options threw st.
Proof.
  intros (Hf & Hs & Hret) Hu Hthrew. split; [exact Hf|]. split.
  - destruct (done st); [exact Hs|].
    destruct thrown as [e|]; [right | left; exact Hs].
    split; [exact Hs | left; apply Hthrew; discriminate].
  - intros _ _. exact Hu.
Qed.

Lemma uncaught_snoc (l : list Event) (e : Thrown) :
  uncaught (l ++ [Uncaught e]) <> [].
Proof.
  unfold uncaught. rewrite flat_map_app. cbn.
  destruct (flat_map _ l); discriminate.
Qed.

Lemma uncaught_record (st : State) (evs : list Event) :
  uncaught evs = [] ->
  uncaught (events (record st evs)) = uncaught (events st).
Proof.
  intros H. unfold record. cbn [events].
  rewrite uncaught_app, H, app_nil_r. reflexivity.
Qed.

Lemma computeNextRun_uncaught (now : Z) (st : State) :
  uncaught (events (fst (computeNextRun getNextTime options now st)))
  = uncaught (events st).
Proof.
  unfold computeNextRun.
  assert (H : uncaught (events (record st [CalledGetNextTime now]))
              = uncaught (events st))
    by (apply uncaught_record; reflexivity).
  destruct (getNextTime _ now) as [t| | |e]; cbn [fst]; try exact H.
  destruct (t <=? now); cbn [fst]; [exact H|].
  destruct (onSchedule options) as [callback|]; cbn [fst events]; [|exact H].
  destruct (callback t); cbn [fst];
    (rewrite uncaught_record; [exact H | reflexivity]).
Qed.

Lemma reportError_uncaught (err : Thrown) (st : State) :
  uncaught (events (fst (reportError options err st))) = uncaught (events st).
Proof.
  unfold reportError. destruct (onError options); cbn [fst]; [|reflexivity].
  apply uncaught_record. reflexivity.
Qed.

(** The events a call of [scheduleNext] adds hold no [Uncaught]. *)
Lemma scheduleNext_uncaught (now : Z) (st : State) :
  uncaught (events (fst (scheduleNext getNextTime options now st)))
  = uncaught (events st).
Proof.
  unfold scheduleNext. destruct (done st); [reflexivity|].
  assert (H := computeNextRun_uncaught now st).
  destruct (computeNextRun getNextTime options now st) as [st1 [nextRun|e]];
    cbn [fst] in H.
  - cbn. rewrite uncaught_app, H. apply app_nil_r.
  - match goal with |- context [reportError options ?err ?s] =>
      assert (Hr := reportError_uncaught err s);
      destruct (reportError options err s) as [st2 [thrown|]]
    end; cbn [fst events] in Hr.
    + cbn [fst]. rewrite Hr. exact H.
    + destruct (maxFailures options <=? _).
      * destruct (onCircuitBreak options); cbn [fst];
          [rewrite uncaught_record by reflexivity|];
          cbn [events]; rewrite Hr; exact H.
      * cbn. rewrite uncaught_app, Hr, H. apply app_nil_r.
Qed.

Lemma tick_one_timer (threw : Prop) (late : Z) (st : State) :
  betweenFirings options threw st ->
  betweenFirings options threw (tick zone getNextTime execute options late st).
Proof.
  intros (Hf & Hinv & Hquiet). unfold tick.
  destruct (Timers.earliest (Timers.pending (timers st))) as [p|] eqn:Hearliest;
    [|split; [exact Hf | split; [exact Hinv | exact Hquiet]]].
  assert (Hrun : done st = false
                 /\ Timers.pending (timers st) = [p]).
  { destruct (done st).
    - destruct Hinv as [Hp _]. rewrite Hp in Hearliest. discriminate.
    - destruct Hinv as [[(q & Hp & _) _] | [Hp _]];
        rewrite Hp in Hearliest; [|discriminate].
      cbn in Hearliest. injection Hearliest as <-. split; [reflexivity | exact Hp]. }
  destruct Hrun as [Hd Hp].
  assert (Hq : Timers.pending
                 (Timers.clearTimeout (timers st) (Timers.timerId p)) = []).
  { unfold Timers.clearTimeout. cbn. rewrite Hp. cbn.
    rewrite Nat.eqb_refl. reflexivity. }
  set (s0 := {| done := done st; currentTimer := currentTimer st;
                consecutiveFailures := consecutiveFailures st;
                timers := Timers.clearTimeout (timers st) (Timers.timerId p);
                events := events st |}).
  assert (Hstep :
    settled options (fst (runClosure zone getNextTime execute options
                    (Timers.due p + late) (Timers.callback p) s0))
            (snd (runClosure zone getNextTime execute options
                    (Timers.due p + late) (Timers.callback p) s0))
    /\ uncaught (events (fst (runClosure zone getNextTime execute options
                                (Timers.due p + late) (Timers.callback p) s0)))
       = uncaught (events st)).
  { unfold runClosure. subst s0. cbn [done negb]. rewrite Hd. cbn [negb].
    destruct (Timers.callback p) as [|nextRun [|]].
    - split; [apply scheduleNext_one_timer; solve [reflexivity | exact Hq | exact Hf]
             | exact (scheduleNext_uncaught _ _)].
    - split; [apply scheduleNext_one_timer; solve [reflexivity | exact Hq | exact Hf]
             | exact (scheduleNext_uncaught _ _)].
    - assert (Hrec : forall evs s,
                uncaught evs = [] -> uncaught (events s) = uncaught (events st) ->
                uncaught (events (record s evs)) = uncaught (events st)).
      { intros evs s Hevs Hs. unfold record. cbn [events].
        unfold uncaught in *. rewrite flat_map_app, Hevs, app_nil_r. exact Hs. }
      destruct (execute _) as [e|].
      + match goal with |- context [reportError options ?err ?s] =>
          assert (Hr := reportError_keeps err s);
          assert (Hev : uncaught (events (fst (reportError options err s)))
                        = uncaught (events st))
            by (rewrite reportError_uncaught; apply Hrec; reflexivity);
          destruct (reportError options err s) as [st2 [thrown|]]
        end;
          cbn [record done currentTimer consecutiveFailures timers events fst]
            in Hr, Hev;
          destruct Hr as (Ht2 & Hd2 & Hf2 & Hc2 & Hret).
        * cbn [fst snd]. split; [|exact Hev].
          unfold settled. rewrite Hd2, Ht2, Hq, Hf2.
          split; [exact Hf|]. split; [reflexivity | exact Hret].
        * split.
          -- apply scheduleNext_one_timer;
               [rewrite Hd2; reflexivity | rewrite Ht2; exact Hq
               | rewrite Hf2; exact Hf].
          -- rewrite scheduleNext_uncaught. exact Hev.
      + split.
        * apply scheduleNext_one_timer; solve [reflexivity | exact Hq | exact Hf].
        * rewrite scheduleNext_uncaught. apply Hrec; reflexivity. }
  destruct Hstep as [(Hf' & Hs' & Hret') Hu'].
  destruct (runClosure zone getNextTime execute options (Timers.due p + late)
              (Timers.callback p) s0) as [st' [thrown|]];
    cbn [fst snd] in *.
  - unfold betweenFirings, record.
    cbn [done timers consecutiveFailures events currentTimer].
    split; [exact Hf'|]. split.
    + destruct (done st'); [exact Hs'|].
      right. split; [exact Hs' | right; apply uncaught_snoc].
    + intros Hobs _. specialize (Hret' Hobs). discriminate.
  - split; [exact Hf'|]. split.
    + destruct (done st'); [exact Hs' | left; exact Hs'].
    + intros Hobs Hn. rewrite Hu'. exact (Hquiet Hobs Hn).
Qed.

Lemma ticks_one_timer (threw : Prop) (lates : list Z) :
  forall st,
    betweenFirings options threw st ->
    betweenFirings options threw
        (ticks zone getNextTime execute options lates st).
Proof.
  induction lates as [|late lates IH]; intros st Hinv; cbn [ticks fold_left].
  - exact Hinv.
  - apply IH, tick_one_timer, Hinv.
Qed.

(** With no timer armed, nothing fires. *)
Lemma ticks_without_timer (lates : list Z) (st : State) :
  Timers.pending (timers st) = [] ->
  ticks zone getNextTime execute options lates st = st.
Proof.
  intros Hp. induction lates as [|late lates IH]; [reflexivity|].
  cbn [ticks fold_left]. unfold tick at 2. rewrite Hp. cbn [Timers.earliest].
  exact IH.
Qed.

End RecurringTimer.

(** X13.  The timer of [scheduleRecurring] and its [clear].  Whatever
    [getNextTime], [execute] and the options are (the callbacks may throw),
    and however the timers fire, the loop is in one of three states:
    done, with no timer armed and the failure count at the maximum or above
    (the breaker has tripped); running, with exactly one timer armed, which
    is the one [clear] would cancel, and with the failure count at zero or
    below the maximum; or stalled, not done and with no timer armed, which
    happens only after an exception has left the call of
    [scheduleRecurring] or a timer callback.  When [onError] and
    [onCircuitBreak] return, no exception leaves the call or a callback, so
    the loop never stalls.  In every state [clear()] leaves the loop done
    with no timer armed, so that nothing fires afterwards: its state stays
    as [clear] left it. *)
Theorem scheduleRecurring_holds_one_timer :
  forall zone getNextTime execute options start lates,
    let called := TimerManager.scheduleRecurring getNextTime options start in
    let st :=
      TimerManager.ticks zone getNextTime execute options lates (fst called) in
    0 <= TimerManager.consecutiveFailures st
    /\ (if TimerManager.done st
        then Timers.pending (TimerManager.timers st) = []
             /\ TimerManager.maxFailures options
                <= TimerManager.consecutiveFailures st
        else ((exists p,
                 Timers.pending (TimerManager.timers st) = [p]
                 /\ TimerManager.currentTimer st = Some (Timers.timerId p))
              /\ (TimerManager.consecutiveFailures st = 0
                  \/ TimerManager.consecutiveFailures st
                     < TimerManager.maxFailures options))
             \/ (TimerManager.stalled st
                 /\ (snd called <> None
                     \/ TimerManager.uncaught (TimerManager.events st) <> [])))
    /\ (TimerManager.observersReturn options ->
        snd called = None
        /\ TimerManager.uncaught (TimerManager.events st) = []
        /\ ~ TimerManager.stalled st)
    /\ TimerManager.done (TimerManager.clear st) = true
    /\ Timers.pending (TimerManager.timers (TimerManager.clear st)) = []
    /\ TimerManager.events (TimerManager.clear st) = TimerManager.events st
    /\ (forall lates',
          TimerManager.ticks zone getNextTime execute options lates'
            (TimerManager.clear st)
          = TimerManager.clear st).
Proof.
  intros zone getNextTime execute options start lates called st.
  assert (Hfirst :
    TimerManager.settled options (fst called) (snd called)
    /\ TimerManager.uncaught (TimerManager.events (fst called)) = []).
  { subst called. unfold TimerManager.scheduleRecurring. split.
    - apply scheduleNext_one_timer; [reflexivity | reflexivity | cbn; lia].
    - rewrite scheduleNext_uncaught. reflexivity. }
  destruct Hfirst as [Hsettled Hquiet].
  assert (Hinv : TimerManager.betweenFirings options (snd called <> None) st).
  { subst st. apply ticks_one_timer.
    apply (settled_betweenFirings options _ _ (snd called));
      [exact Hsettled | exact Hquiet | auto]. }
  destruct Hinv as (Hf & Hinv & Hnone).
  split; [exact Hf|]. split.
  { destruct (TimerManager.done st) eqn:Hd; [exact Hinv|].
    destruct Hinv as [Hrun | [Hp Hwhy]]; [left; exact Hrun | right].
    split; [split; assumption | exact Hwhy]. }
  split.
  { intros Hobs.
    assert (Hcalled : snd called = None)
      by (destruct Hsettled as (_ & _ & Hret); exact (Hret Hobs)).
    assert (Hu : TimerManager.uncaught (TimerManager.events st) = [])
      by (apply (Hnone Hobs); rewrite Hcalled; auto).
    split; [exact Hcalled|]. split; [exact Hu|].
    intros [Hd Hp]. rewrite Hd in Hinv.
    destruct Hinv as [[(p & Hp' & _) _] | [_ [Hc | Hc]]].
    - rewrite Hp in Hp'. discriminate.
    - apply Hc. exact Hcalled.
    - apply Hc. exact Hu. }
  assert (Hcleared :
    Timers.pending (TimerManager.timers (TimerManager.clear st)) = []).
  { unfold TimerManager.clear. cbn [TimerManager.timers].
    assert (Hgone : Timers.pending (TimerManager.timers st) = [] ->
            Timers.pending
              match TimerManager.currentTimer st with
              | Some id => Timers.clearTimeout (TimerManager.timers st) id
              | None => TimerManager.timers st
              end = []).
    { intros Hp. destruct (TimerManager.currentTimer st) as [id|]; [|exact Hp].
      unfold Timers.clearTimeout. cbn. rewrite Hp. reflexivity. }
    destruct (TimerManager.done st).
    - apply Hgone, Hinv.
    - destruct Hinv as [[(p & Hp & Hc) _] | [Hp _]]; [|exact (Hgone Hp)].
      rewrite Hc. unfold Timers.clearTimeout. cbn. rewrite Hp. cbn.
      rewrite Nat.eqb_refl. reflexivity. }
  split; [reflexivity|]. split; [assumption|]. split; [reflexivity|].
  intros lates'. apply ticks_without_timer. assumption.
Qed.

Section OneShotTimer.

Import TimerManager.

Variable execute : unit -> option Thrown.

Lemma ticksOnce_without_timer (lates : list Z) (st : OnceState) :
  Timers.pending (onceTimers st) = [] ->
  ticksOnce execute lates st = st.
Proof.
  intros Hp. induction lates as [|late lates IH]; [reflexivity|].
  cbn [ticksOnce fold_left]. unfold tickOnce at 2. rewrite Hp.
  cbn [Timers.earliest]. exact IH.
Qed.

End OneShotTimer.

(** X14.  [scheduleOnce].  The call throws, arming nothing, exactly when the
    delay is negative or above 2147483647 ms.  Otherwise one timer is armed
    with that delay; when it fires, [execute] is called once, at the
    instant of the firing, an error it throws being caught and logged, and
    no timer is left, so that [execute] is not called again.  After
    [clear()] no timer is armed and [execute] is never called. *)
Theorem scheduleOnce_runs_once :
  forall execute now delay,
    match TimerManager.scheduleOnce now delay with
    | Throw e =>
        (delay < 0 /\ e = TimerManager.invalidDelay delay)
        \/ (TimerManager.MAX_SETTIMEOUT_DELAY < delay
            /\ e = TimerManager.delayTooLarge delay)
    | Ok st =>
        0 <= delay <= TimerManager.MAX_SETTIMEOUT_DELAY
        /\ map Timers.delay (Timers.pending (TimerManager.onceTimers st))
           = [delay]
        /\ TimerManager.onceEvents st = []
        /\ (forall late lates,
              let st' := TimerManager.ticksOnce execute (late :: lates) st in
              TimerManager.onceEvents st'
              = TimerManager.OnceExecuted (now + delay + late)
                :: match execute tt with
                   | None => []
                   | Some e =>
                       [TimerManager.OnceConsoleError
                          "Timer execution error:" e]
                   end
              /\ Timers.pending (TimerManager.onceTimers st') = [])
        /\ (forall lates,
              let st' :=
                TimerManager.ticksOnce execute lates
                  (TimerManager.clearOnce st) in
              TimerManager.onceEvents st' = []
              /\ Timers.pending (TimerManager.onceTimers st') = [])
    end.
Proof.
  intros execute now delay. unfold TimerManager.scheduleOnce.
  destruct (Z.ltb_spec delay 0); [left; split; [assumption | reflexivity]|].
  destruct (Z.ltb_spec TimerManager.MAX_SETTIMEOUT_DELAY delay);
    [right; split; [assumption | reflexivity]|].
  cbn [Timers.setTimeout Timers.empty Timers.pending Timers.nextTimerId app].
  split; [lia|]. split; [reflexivity|]. split; [reflexivity|]. split.
  - intros late lates. cbv zeta. cbn [TimerManager.ticksOnce fold_left].
    match goal with |- context [fold_left _ lates ?s] =>
      change (fold_left (fun st l => TimerManager.tickOnce execute l st) lates
          s)
        with (TimerManager.ticksOnce execute lates s);
      assert (Hs : Timers.pending (TimerManager.onceTimers s) = [])
        by (destruct (execute tt); reflexivity);
      rewrite (ticksOnce_without_timer execute lates s Hs)
    end.
    split; [|destruct (execute tt); reflexivity].
    unfold TimerManager.tickOnce, Timers.due.
    cbn. destruct (execute tt); reflexivity.
  - intros lates. cbv zeta.
    rewrite ticksOnce_without_timer; [split; reflexivity | reflexivity].
Qed.

(* ================================================================== *)
(** * The results of the job executor *)
(* ================================================================== *)

(** X15.  The shape of an execution result.  Whenever [executeWithTimeout]
    settles, its result is either a success, which carries the job's
    value, no error, is not timed out, and [onTimeout] was not called; or
    a failure, which carries an error and no value, is timed out exactly
    when the message of the error contains "timed out", and [onTimeout]
    was called, once and with the duration, exactly when the result is
    timed out and the callback is given. *)
Theorem execution_result_shape (late : Z) (job : JobFunction)
    (intendedAt : Z) (jobName : string)
    (options : JobExecutor.ExecutorOptions)
    (r : JobExecutor.ExecutionResult) (calls : list Z) :
  JobExecutor.executeWithTimeout late job intendedAt jobName options
  = Some (Ok r, calls) ->
  if JobExecutor.success r
  then (exists value, JobExecutor.result_ r = Some value)
       /\ JobExecutor.error r = None
       /\ JobExecutor.timedOut r = false
       /\ calls = []
  else JobExecutor.result_ r = None
       /\ (exists err,
             JobExecutor.error r = Some err
             /\ JobExecutor.timedOut r
                = JsString.includes "timed out" (message err))
       /\ calls = (if JobExecutor.timedOut r
                      && given (JobExecutor.onTimeout options)
                   then [JobExecutor.duration r] else []).
Proof.
  unfold JobExecutor.executeWithTimeout.
  destruct (match JobExecutor.timeout options with
            | Some t =>
                if 0 <? t
                then Some (JobExecutor.executeWithTimeoutLimit late
                             (job intendedAt jobName) t jobName)
                else awaitJob (job intendedAt jobName)
            | None => awaitJob (job intendedAt jobName)
            end) as [[d [v|e]]|]; [| |discriminate].
  - intros H. injection H as <- <-.
    cbn [JobExecutor.success JobExecutor.result_ JobExecutor.error
         JobExecutor.timedOut].
    split; [exists v; reflexivity|]. repeat split.
  - destruct (JsString.includes "timed out" (message (toError e))) eqn:Hinc;
      [destruct (JobExecutor.onTimeout options) as [callback|];
       [destruct (callback d)|]|];
      intros H; try discriminate H; injection H as <- <-;
      cbn [JobExecutor.success JobExecutor.result_ JobExecutor.error
           JobExecutor.timedOut JobExecutor.duration andb given];
      (split; [reflexivity|]); (split; [|reflexivity]);
      exists (toError e); rewrite Hinc; split; reflexivity.
Qed.

(** A job that resolves with "ok" after 20 ms, under a timeout of 50 ms. *)
Lemma execution_result_shape_witness :
  JobExecutor.executeWithTimeout 3 (fun _ _ => Resolves 20 (Str "ok")) 0 "job"
    {| JobExecutor.timeout := Some 50;
       JobExecutor.onTimeout := Some (fun _ => None) |}
  = Some (Ok {| JobExecutor.success := true;
                JobExecutor.result_ := Some (Str "ok");
                JobExecutor.error := None;
                JobExecutor.duration := 20;
                JobExecutor.timedOut := false |}, [])
  /\ ((exists value, Some (Str "ok") = Some value)
      /\ @None Thrown = None /\ false = false /\ @nil Z = []).
Proof.
  split; [reflexivity|].
  exact (execution_result_shape 3 (fun _ _ => Resolves 20 (Str "ok")) 0 "job"
           {| JobExecutor.timeout := Some 50;
              JobExecutor.onTimeout := Some (fun _ => None) |}
           _ _ eq_refl).
Defined.





(** X18.  [withTimeout] and the [timeout] option agree.  Running the wrapper
    [withTimeout(job, t)] with no timeout configured gives the result,
    and the calls of [onTimeout], that running [job] with
    [{ timeout: t }] gives, for every positive [t] (the timeout timer
    being as late in both). *)
Theorem withTimeout_is_the_timeout_option (late late' : Z)
    (job : JobFunction) (t : Z) (intendedAt : Z) (jobName : string)
    (callback : option (Z -> option Thrown)) :
  0 < t ->
  JobExecutor.executeWithTimeout late' (JobExecutor.withTimeout late job t)
    intendedAt jobName
    {| JobExecutor.timeout := None; JobExecutor.onTimeout := callback |}
  = JobExecutor.executeWithTimeout late job intendedAt jobName
      {| JobExecutor.timeout := Some t;
         JobExecutor.onTimeout := callback |}.
Proof.
  intros Ht. unfold JobExecutor.executeWithTimeout, JobExecutor.withTimeout.
  cbn [JobExecutor.timeout JobExecutor.onTimeout].
  replace (0 <? t) with true by (symmetry; apply Z.ltb_lt; exact Ht).
  destruct (JobExecutor.executeWithTimeoutLimit late (job intendedAt jobName)
              t jobName) as [elapsed [v|e]]; reflexivity.
Qed.

(** A job that resolves after 80 ms, wrapped with a timeout of 50 ms. *)
Lemma withTimeout_is_the_timeout_option_witness :
  0 < 50
  /\ JobExecutor.executeWithTimeout 0
       (JobExecutor.withTimeout 0 (fun _ _ => Resolves 80 Undefined) 50) 0
       "job"
       {| JobExecutor.timeout := None;
          JobExecutor.onTimeout := Some (fun _ => None) |}
     = JobExecutor.executeWithTimeout 0 (fun _ _ => Resolves 80 Undefined) 0
         "job"
         {| JobExecutor.timeout := Some 50;
            JobExecutor.onTimeout := Some (fun _ => None) |}.
Proof.
  split; [lia|].
  exact (withTimeout_is_the_timeout_option 0 0
           (fun _ _ => Resolves 80 Undefined) 50 0 "job"
           (Some (fun _ => None)) ltac:(lia)).
Defined.

(* ================================================================== *)
(** * Firings, the history and the lease *)
(* ================================================================== *)

Section LeaseFacts.

Import SyncedCron.

Lemma jobCalls_app (l l' : list Event) :
  jobCalls (l ++ l') = jobCalls l ++ jobCalls l'.
Proof. unfold jobCalls. apply flat_map_app. Qed.

(** The unique index refuses a document exactly when the history holds the
    run. *)
Lemma sameKey_holdsRun (db : Mongo.Store) (jobName : string)
    (intendedAt startedAt : Z) :
  existsb (Mongo.sameKey (newHistory jobName intendedAt startedAt))
          (Mongo.docs db)
  = holdsRun db intendedAt jobName.
Proof.
  unfold holdsRun. induction (Mongo.docs db) as [|doc docs IH]; cbn [existsb].
  - reflexivity.
  - rewrite IH. f_equal. unfold Mongo.sameKey, newHistory.
    cbn [JobHistory.intendedAt JobHistory.name].
    rewrite Z.eqb_sym, String.eqb_sym. reflexivity.
Qed.

Lemma holdsRun_insert (db db' : Mongo.Store) (doc : JobHistory.t)
    (id : string) :
  Mongo.insert db doc = (db', Ok id) ->
  holdsRun db' (JobHistory.intendedAt doc) (JobHistory.name doc) = true
  /\ (forall t n, holdsRun db t n = true -> holdsRun db' t n = true)
  /\ negb (String.eqb id "") = true.
Proof.
  unfold Mongo.insert. destruct (existsb _ _); [discriminate|].
  intros H. injection H as <- <-. unfold holdsRun. cbn [Mongo.docs].
  split; [|split; [|reflexivity]].
  - rewrite existsb_app. cbn. rewrite Z.eqb_refl, String.eqb_refl.
    apply orb_true_r.
  - intros t n H. rewrite existsb_app, H. reflexivity.
Qed.

Lemma holdsRun_update (db : Mongo.Store) (id : string) (patch : Patch)
    (t : Z) (n : string) :
  holdsRun (fst (Mongo.update db id patch)) t n = holdsRun db t n.
Proof.
  unfold holdsRun, Mongo.update. cbn [fst Mongo.docs].
  induction (Mongo.docs db) as [|doc docs IH]; cbn [map existsb];
    [reflexivity|].
  rewrite IH. f_equal.
  destruct (Mongo.hasId id doc); [|reflexivity].
  destruct patch; reflexivity.
Qed.

(** One firing of a persisted job on the collection with the unique index:
    the job is called exactly when the history did not hold the run, and
    afterwards the history holds it. *)
Lemma executeJob_lease (stack : Thrown -> option string) (now : Z)
    (entry : JobEntry.t) (intendedAt : Z) (db : Mongo.Store) :
  JobEntry.persist entry = true ->
  let '(db', evs, _) :=
    executeJob Mongo.collection stack true now entry intendedAt db in
  jobCalls evs
  = (if holdsRun db intendedAt (JobEntry.name entry) then []
     else [(intendedAt, JobEntry.name entry)])
  /\ holdsRun db' intendedAt (JobEntry.name entry) = true
  /\ (forall t n, holdsRun db t n = true -> holdsRun db' t n = true).
Proof.
  intros Hpersist. unfold executeJob. cbn [negb]. rewrite Hpersist.
  cbn [insertAsync Mongo.collection].
  destruct (Mongo.insert db (newHistory (JobEntry.name entry) intendedAt now))
    as [db1 [id|e]] eqn:Hinsert.
  - assert (Hfree : holdsRun db intendedAt (JobEntry.name entry) = false).
    { rewrite <- (sameKey_holdsRun db _ _ now). revert Hinsert.
      unfold Mongo.insert. destruct (existsb _ _); [discriminate | reflexivity]. }
    rewrite Hfree.
    apply holdsRun_insert in Hinsert. cbn [newHistory JobHistory.intendedAt
      JobHistory.name] in Hinsert. destruct Hinsert as (Hheld & Hmono & Hid).
    apply negb_true_iff in Hid.
    destruct (awaitJob _) as [[elapsed [output|e]]|].
    + unfold truthyId. rewrite Hid.
      cbn [updateAsync Mongo.collection].
      assert (Hu := holdsRun_update db1 id
                      (SetResult (now + elapsed) output)).
      destruct (Mongo.update db1 id (SetResult (now + elapsed) output))
        as [db2 [[]|e]] eqn:Hupdate; [|discriminate].
      cbn [fst] in Hu. split; [reflexivity|].
      split; [rewrite Hu; assumption|].
      intros t n H. rewrite Hu. auto.
    + unfold executeJobCatch, truthyId. rewrite Hid.
      cbn [updateAsync Mongo.collection].
      destruct (JobEntry.onError entry) as [handler|];
        [destruct (handler _ _) as [handling [thrown|]]|];
        match goal with |- context [Mongo.update db1 id ?patch] =>
          assert (Hu := holdsRun_update db1 id patch);
          destruct (Mongo.update db1 id patch) as [db2 [[]|e']] eqn:Hupdate;
            [|discriminate]
        end;
        cbn [fst] in Hu; (split; [reflexivity|]);
        (split; [rewrite Hu; assumption|]);
        intros t n H; rewrite Hu; auto.
    + split; [reflexivity|]. split; assumption.
  - assert (Hheld : holdsRun db intendedAt (JobEntry.name entry) = true
                    /\ db1 = db /\ e = Mongo.duplicateKey).
    { rewrite <- (sameKey_holdsRun db _ _ now). revert Hinsert.
      unfold Mongo.insert. destruct (existsb _ _); [|discriminate].
      intros H. injection H as <- <-. repeat split. }
    destruct Hheld as (Hheld & -> & ->). rewrite Hheld.
    cbn [isDuplicateKey Mongo.duplicateKey Z.eqb Pos.eqb].
    split; [reflexivity|]. split; [assumption | auto].
Qed.

End LeaseFacts.



(** X20.  One run per intended time.  Let the instances that share the
    collection with the unique index fire a persisted job for one intended
    time, one after the other, each with its own clock and its own entry
    of that name.  Then the job is called at most once over all the
    attempts: not at all when the history already held the run, and
    otherwise by the first attempt only, whether its run succeeds, fails
    or is still pending; and afterwards the history holds the run. *)
Theorem one_run_per_intended_time
    (stack : Thrown -> option string) (attempts : list (Z * JobEntry.t))
    (intendedAt : Z) (jobName : string) (db : Mongo.Store) :
  Forall (fun attempt => JobEntry.persist (snd attempt) = true
                         /\ JobEntry.name (snd attempt) = jobName) attempts ->
  let '(db', evs) := SyncedCron.fireAll stack attempts intendedAt db in
  SyncedCron.jobCalls evs
  = (if SyncedCron.holdsRun db intendedAt jobName then []
     else match attempts with
          | [] => []
          | _ :: _ => [(intendedAt, jobName)]
          end)
  /\ (attempts <> [] -> SyncedCron.holdsRun db' intendedAt jobName = true).
Proof.
  intros Hall. unfold SyncedCron.fireAll.
  assert (Hgen : forall db evs0,
    let '(db', evs) :=
      fold_left
        (fun acc attempt =>
           let '(db', evs', _) :=
             SyncedCron.executeJob Mongo.collection stack true
               (fst attempt) (snd attempt) intendedAt (fst acc) in
           (db', snd acc ++ evs'))
        attempts (db, evs0) in
    SyncedCron.jobCalls evs
    = SyncedCron.jobCalls evs0
      ++ (if SyncedCron.holdsRun db intendedAt jobName then []
          else match attempts with
               | [] => []
               | _ :: _ => [(intendedAt, jobName)]
               end)
    /\ (SyncedCron.holdsRun db intendedAt jobName = true \/ attempts <> [] ->
        SyncedCron.holdsRun db' intendedAt jobName = true)).
  { induction Hall as [|[now entry] rest [Hpersist Hname] Hrest IH];
      intros db0 evs0; cbn [fold_left].
    - split.
      + destruct (SyncedCron.holdsRun db0 intendedAt jobName);
          rewrite app_nil_r; reflexivity.
      + intros [H | H]; [assumption | congruence].
    - cbn [fst snd] in *.
      assert (Hone := executeJob_lease stack now entry intendedAt db0 Hpersist).
      rewrite Hname in Hone.
      destruct (SyncedCron.executeJob Mongo.collection stack true now entry
                  intendedAt db0) as [[db1 evs1] outcome].
      destruct Hone as (Hcalls & Hheld & Hmono).
      cbn [fst snd].
      specialize (IH db1 (evs0 ++ evs1)).
      destruct (fold_left _ rest (db1, evs0 ++ evs1)) as [db' evs].
      destruct IH as [IHcalls IHheld]. rewrite Hheld in IHcalls.
      split.
      + rewrite IHcalls, app_nil_r, jobCalls_app, Hcalls. reflexivity.
      + intros _. apply IHheld. left. assumption. }
  specialize (Hgen db []).
  destruct (fold_left _ attempts (db, [])) as [db' evs].
  destruct Hgen as [Hcalls Hheld]. split; [exact Hcalls|].
  intros Hne. apply Hheld. right. assumption.
Qed.

(** Two instances fire the sample job for the same intended time, on an
    empty history: the job is called once. *)
Lemma one_run_per_intended_time_witness :
  SyncedCron.jobCalls
    (snd (SyncedCron.fireAll Sample.stack
            [(7000, Sample.entry); (7004, Sample.entry)] 7000
            Mongo.emptyStore))
  = [(7000, "report")].
Proof.
  assert (H := one_run_per_intended_time Sample.stack
                 [(7000, Sample.entry); (7004, Sample.entry)] 7000 "report"
                 Mongo.emptyStore
                 ltac:(repeat constructor)).
  destruct (SyncedCron.fireAll _ _ _ _) as [db' evs].
  exact (proj1 H).
Defined.

(* ================================================================== *)
(** * The registry of jobs *)
(* ================================================================== *)

Section RegistryLaws.

Import SyncedCron.


Lemma get_has (entries : list (string * JobEntry.t)) (k : string) :
  has entries k = match get entries k with Some _ => true | None => false end.
Proof.
  unfold has. induction entries as [|[k0 v0] rest IH]; cbn [existsb get fst].
  - reflexivity.
  - destruct (String.eqb k0 k); [reflexivity | exact IH].
Qed.

Lemma delete_fresh (entries : list (string * JobEntry.t)) (k : string) :
  has entries k = false -> delete entries k = entries.
Proof.
  unfold has, delete. induction entries as [|[k0 v0] rest IH];
    cbn [existsb filter fst]; [reflexivity|].
  intros H. apply orb_false_iff in H as [H1 H2]. rewrite H1. cbn [negb].
  rewrite IH by assumption. reflexivity.
Qed.

Lemma delete_set (entries : list (string * JobEntry.t)) (k : string)
    (v : JobEntry.t) :
  has entries k = false -> delete (set entries k v) k = entries.
Proof.
  unfold has. induction entries as [|[k0 v0] rest IH];
    cbn [existsb set fst].
  - intros _. unfold delete. cbn. rewrite String.eqb_refl. reflexivity.
  - intros H. apply orb_false_iff in H as [H1 H2]. rewrite H1.
    unfold delete in *. cbn [filter fst]. rewrite H1. cbn [negb].
    rewrite IH by assumption. reflexivity.
Qed.






(** A failed [scheduleAll] has started the loop of the entry it failed
    at. *)
Lemma scheduleAll_throws (zone : JsDate.Zone) (now : Z)
    (todo : list (string * JobEntry.t)) :
  forall (inst inst' : Instance) (e : Thrown),
    scheduleAll zone now inst todo = (inst', Throw e) ->
    running inst' = running inst
    /\ exists entry timer_,
         get (entries inst') (JobEntry.name entry) = Some entry
         /\ JobEntry.timer entry = Some timer_
         /\ Scheduler.alive zone (JobEntry.schedule entry)
              {| Scheduler.utc := Some (utc inst') |} timer_.
Proof.
  induction todo as [|[k entry] rest IH]; intros inst inst' e;
    cbn [scheduleAll]; [discriminate|].
  destruct (scheduleEntry zone now inst entry) as [inst1 [[]|e1]] eqn:Hs.
  - intros H. apply IH in H. destruct H as [Hr H].
    split; [|exact H]. rewrite Hr. revert Hs. unfold scheduleEntry.
    destruct (isPaused entry).
    + intros H1. injection H1 as <-. reflexivity.
    + destruct (Scheduler.getNextScheduledTime _ _ _ _);
        intros H1; injection H1 as <-; reflexivity.
  - intros H. injection H as <- <-. revert Hs. unfold scheduleEntry.
    destruct (isPaused entry); [discriminate|].
    destruct (Scheduler.getNextScheduledTime _ _ _ _); [discriminate|].
    intros H. injection H as <- _. split; [reflexivity|].
    eexists. eexists. split; [apply get_set|].
    split; [reflexivity|]. apply scheduleJob_alive.
Qed.

Lemma filter_map_length {A B : Type} (f : B -> bool) (g : A -> B)
    (l : list A) :
  List.length (filter f (map g l))
  = List.length (filter (fun x => f (g x)) l).
Proof.
  induction l as [|x l IH]; cbn [map filter]; [reflexivity|].
  destruct (f (g x)); cbn [List.length]; rewrite IH; reflexivity.
Qed.

Lemma filter_partition_length {A : Type} (f g : A -> bool) (l : list A) :
  (forall x, f x && g x = false) ->
  (List.length (filter f l) + List.length (filter g l)
   + List.length (filter (fun x => negb (f x) && negb (g x)) l)
   = List.length l)%nat.
Proof.
  intros Hd. induction l as [|x l IH]; cbn [filter]; [reflexivity|].
  specialize (Hd x).
  destruct (f x); destruct (g x); cbn [negb andb List.length] in *;
    try discriminate; lia.
Qed.

End RegistryLaws.

(** X21.  [add] and [remove].  Adding a job under a fresh name and removing
    it again gives back the registry as it was, whether or not the
    instance is running and whether or not the schedule of the job can be
    computed; [remove] clears the timer [add] had started on a running
    instance.  While the job is registered, a second [add] under its name
    is rejected with [JobAlreadyExistsError] and changes nothing; while it
    is not, [remove] is rejected with [JobNotFoundError] and changes
    nothing. *)
Theorem add_then_remove (zone : JsDate.Zone) (now : Z)
    (inst : SyncedCron.Instance)
    (config : JobConfig.t) :
  SyncedCron.has (SyncedCron.entries inst) (JobConfig.name config) = false ->
  let added := fst (SyncedCron.add zone now inst config) in
  let '(removed, cleared, outcome) :=
    SyncedCron.remove added (JobConfig.name config) in
  outcome = SyncedCron.Resolved tt
  /\ SyncedCron.entries removed = SyncedCron.entries inst
  /\ cleared
     = (if SyncedCron.running inst
        then [Scheduler.clear
                (Scheduler.scheduleJob zone (JobConfig.schedule config)
                   {| Scheduler.utc := Some (SyncedCron.utc inst) |} now)]
        else [])
  /\ SyncedCron.add zone now added config
     = (added,
        SyncedCron.Rejected
          (SyncedCron.JobAlreadyExistsError (JobConfig.name config)))
  /\ SyncedCron.remove inst (JobConfig.name config)
     = (inst, [],
        SyncedCron.Rejected
          (SyncedCron.JobNotFoundError (JobConfig.name config))).
Proof.
  intros Hfresh. cbv zeta.
  set (name := JobConfig.name config) in *.
  set (timer_ := Scheduler.scheduleJob zone (JobConfig.schedule config)
                   {| Scheduler.utc := Some (SyncedCron.utc inst) |} now).
  set (entry' := if SyncedCron.running inst
                 then SyncedCron.withTimer (SyncedCron.entryOf config) timer_
                 else SyncedCron.entryOf config).
  assert (Hadded :
    SyncedCron.entries (fst (SyncedCron.add zone now inst config))
    = SyncedCron.set (SyncedCron.entries inst) name entry').
  { unfold SyncedCron.add. fold name. rewrite Hfresh.
    cbn [SyncedCron.running SyncedCron.setEntry]. subst entry'.
    destruct (SyncedCron.running inst); [|reflexivity].
    unfold SyncedCron.scheduleEntry, SyncedCron.log, SyncedCron.setEntry.
    cbn [SyncedCron.isPaused SyncedCron.entryOf JobEntry.paused
         JobEntry.schedule SyncedCron.utc SyncedCron.withTimer JobEntry.name
         SyncedCron.entries SyncedCron.initialized SyncedCron.running
         SyncedCron.logs].
    fold name. fold timer_.
    destruct (Scheduler.getNextScheduledTime zone now
                (JobConfig.schedule config)
                {| Scheduler.utc := Some (SyncedCron.utc inst) |});
      cbn [fst SyncedCron.entries]; apply set_set. }
  assert (Hget : SyncedCron.get
                   (SyncedCron.entries (fst (SyncedCron.add zone now inst config)))
                   name = Some entry')
    by (rewrite Hadded; apply get_set).
  unfold SyncedCron.remove. rewrite Hget.
  split; [reflexivity|]. split.
  { cbn [SyncedCron.log SyncedCron.entries]. rewrite Hadded.
    apply delete_set. assumption. }
  split.
  { subst entry'. destruct (SyncedCron.running inst); reflexivity. }
  split.
  { unfold SyncedCron.add at 1. fold name.
    rewrite get_has, Hget. reflexivity. }
  rewrite get_has in Hfresh.
  destruct (SyncedCron.get (SyncedCron.entries inst) name);
    [discriminate | reflexivity].
Qed.

(** The sample job added to a new instance and removed again. *)
Lemma add_then_remove_witness :
  SyncedCron.has (SyncedCron.entries (SyncedCron.newSyncedCron true))
    (JobConfig.name Sample.config) = false
  /\ SyncedCron.entries
       (fst (fst (SyncedCron.remove
                    (fst (SyncedCron.add (JsDate.fixed 0) 0
                        (SyncedCron.newSyncedCron true)
                            Sample.config))
                    (JobConfig.name Sample.config))))
     = [].
Proof.
  split; [reflexivity|].
  assert (H := add_then_remove (JsDate.fixed 0) 0
      (SyncedCron.newSyncedCron true)
                 Sample.config eq_refl).
  cbv zeta in H.
  destruct (SyncedCron.remove _ _) as [[removed cleared] outcome].
  exact (proj1 (proj2 H)).
Defined.





(** X24.  A failed [start].  When [start] is rejected because the next run of
    a job cannot be computed, the instance is left not running, yet the
    scheduling loop of that job has been started and is held in the
    registry, alive with a timer armed.  A [pause] then does nothing, as
    the instance is not running, and [stop] forgets every job without
    clearing a single timer: the loops that were started go on. *)
Theorem stop_after_failed_start (zone : JsDate.Zone) (now : Z)
    (inst : SyncedCron.Instance)
    (e : Thrown) :
  SyncedCron.running inst = false ->
  snd (SyncedCron.start zone now inst) = SyncedCron.Rejected e ->
  let started := fst (SyncedCron.start zone now inst) in
  SyncedCron.running started = false
  /\ (exists entry timer_,
        SyncedCron.get (SyncedCron.entries started) (JobEntry.name entry)
        = Some entry
        /\ JobEntry.timer entry = Some timer_
        /\ Scheduler.done timer_ = false
        /\ exists p, Timers.pending (Scheduler.timers timer_) = [p])
  /\ SyncedCron.pause started = (started, [])
  /\ let '(stopped, cleared, outcome) := SyncedCron.stop started in
     outcome = SyncedCron.Resolved tt
     /\ cleared = []
     /\ SyncedCron.entries stopped = [].
Proof.
  intros Hrun. unfold SyncedCron.start. rewrite Hrun.
  match goal with |- context [SyncedCron.scheduleAll zone now ?i ?l] =>
    destruct (SyncedCron.scheduleAll zone now i l) as [inst' [[]|e']] eqn:Hs
  end; cbn [fst snd]; [discriminate|].
  intros _. apply scheduleAll_throws in Hs.
  cbn [SyncedCron.running] in Hs. destruct Hs as [Hr (entry & timer_ & Hg & Ht & Ha)].
  assert (Hpause : SyncedCron.pause inst' = (inst', [])).
  { unfold SyncedCron.pause. rewrite Hr. reflexivity. }
  split; [assumption|]. split.
  { exists entry, timer_. split; [assumption|]. split; [assumption|].
    destruct Ha as [Hd (p & Hp & _)]. split; [assumption|].
    exists p. assumption. }
  split; [assumption|].
  unfold SyncedCron.stop. rewrite Hpause. repeat split.
Qed.

(** The sample job and a job whose schedule does not parse: [start] is
    rejected and [stop] clears nothing. *)
Lemma stop_after_failed_start_witness :
  SyncedCron.running Sample.idleWithNightly = false
  /\ SyncedCron.pause
      (fst (SyncedCron.start (JsDate.fixed 0) 0 Sample.idleWithNightly))
     = (fst (SyncedCron.start (JsDate.fixed 0) 0 Sample.idleWithNightly), []).
Proof.
  split; [reflexivity|].
  exact (proj1 (proj2 (proj2
    (stop_after_failed_start (JsDate.fixed 0) 0 Sample.idleWithNightly
       (newError
          ("Invalid cron expression: " ++ CronParser.quoted "every night"
           ++ ". Expected 5 fields (minute hour day month weekday), got 2"))
       eq_refl eq_refl)))).
Defined.

Section HealthFacts.

Import SyncedCron.

Lemma forallb_filter_length {A : Type} (f : A -> bool) (l : list A) :
  forallb f l = (List.length (filter (fun x => negb (f x)) l) =? 0)%nat.
Proof.
  induction l as [|x l IH]; cbn [forallb filter]; [reflexivity|].
  destruct (f x); cbn [negb andb List.length]; [exact IH | reflexivity].
Qed.

Lemma add_is_zero (a b : nat) :
  (a + b =? 0)%nat = ((a =? 0)%nat && (b =? 0)%nat).
Proof. destruct a, b; reflexivity. Qed.

End HealthFacts.

(** X25.  The health check and the metrics.  [healthCheck] reports the
    instance healthy exactly when it is running and the list of issues is
    empty; an instance that is not running is never healthy.  Its counts
    agree with those of [getMetrics]: the jobs, the scheduled jobs (with a
    timer and not paused), the paused jobs and the jobs in flight.  The
    scheduled and the paused jobs are disjoint, and on a healthy instance
    every job is one or the other. *)
Theorem health_check_and_metrics :
  forall zone now inst runningJobs,
    let health := SyncedCron.healthCheck zone now inst runningJobs in
    let metrics := SyncedCron.getMetrics inst runningJobs in
    SyncedCron.HealthCheckResult.healthy health
    = SyncedCron.running inst
      && (List.length (SyncedCron.HealthCheckResult.issues health) =? 0)%nat
    /\ SyncedCron.HealthCheckResult.running health
       = SyncedCron.CronMetrics.isRunning metrics
    /\ SyncedCron.HealthCheckResult.totalJobs health
       = SyncedCron.CronMetrics.jobCount metrics
    /\ SyncedCron.HealthCheckResult.scheduledJobs health
       = SyncedCron.CronMetrics.scheduledJobCount metrics
    /\ SyncedCron.HealthCheckResult.pausedJobs health
       = SyncedCron.CronMetrics.pausedJobCount metrics
    /\ SyncedCron.HealthCheckResult.runningJobs health
       = SyncedCron.CronMetrics.runningJobCount metrics
    /\ (SyncedCron.HealthCheckResult.scheduledJobs health
        + SyncedCron.HealthCheckResult.pausedJobs health
        <= SyncedCron.HealthCheckResult.totalJobs health)%nat
    /\ (SyncedCron.HealthCheckResult.healthy health = true ->
        (SyncedCron.HealthCheckResult.scheduledJobs health
         + SyncedCron.HealthCheckResult.pausedJobs health
         = SyncedCron.HealthCheckResult.totalJobs health)%nat).
Proof.
  intros zone now inst runningJobs health metrics.
  subst health metrics. unfold SyncedCron.healthCheck, SyncedCron.getMetrics.
  cbv zeta.
  cbn [SyncedCron.HealthCheckResult.healthy SyncedCron.HealthCheckResult.issues
       SyncedCron.HealthCheckResult.running
       SyncedCron.HealthCheckResult.totalJobs
       SyncedCron.HealthCheckResult.scheduledJobs
       SyncedCron.HealthCheckResult.pausedJobs
       SyncedCron.HealthCheckResult.runningJobs
       SyncedCron.CronMetrics.isRunning SyncedCron.CronMetrics.jobCount
       SyncedCron.CronMetrics.scheduledJobCount
       SyncedCron.CronMetrics.pausedJobCount
       SyncedCron.CronMetrics.runningJobCount].
  set (jobs := map (SyncedCron.healthJobOf zone now inst)
                   (SyncedCron.entries inst)).
  set (isScheduled := fun j => SyncedCron.HealthJob.hasTimer j
                               && negb (SyncedCron.HealthJob.isPaused j)).
  assert (Hpart := filter_partition_length isScheduled
                     SyncedCron.HealthJob.isPaused jobs
                     ltac:(intros j; subst isScheduled; cbv beta;
                           destruct (SyncedCron.HealthJob.hasTimer j);
                           destruct (SyncedCron.HealthJob.isPaused j);
                           reflexivity)).
  split.
  { rewrite length_app, !length_map, add_is_zero, forallb_filter_length.
    rewrite andb_assoc. reflexivity. }
  split; [reflexivity|].
  split; [subst jobs; apply length_map|].
  split.
  { exact (filter_map_length isScheduled
             (SyncedCron.healthJobOf zone now inst) (SyncedCron.entries inst)). }
  split.
  { exact (filter_map_length SyncedCron.HealthJob.isPaused
             (SyncedCron.healthJobOf zone now inst) (SyncedCron.entries inst)). }
  split; [reflexivity|].
  split; [lia|].
  intros Hhealthy.
  apply andb_true_iff in Hhealthy as [Hhealthy _].
  apply andb_true_iff in Hhealthy as [Hrunning Hnone].
  apply Nat.eqb_eq in Hnone. rewrite Hrunning in Hnone.
  assert (Hsame :
    filter (fun j => negb (isScheduled j)
                     && negb (SyncedCron.HealthJob.isPaused j)) jobs
    = filter (fun j => negb (SyncedCron.HealthJob.hasTimer j)
                       && negb (SyncedCron.HealthJob.isPaused j) && true) jobs).
  { apply filter_ext. intros j. subst isScheduled. cbv beta.
    destruct (SyncedCron.HealthJob.hasTimer j);
      destruct (SyncedCron.HealthJob.isPaused j); reflexivity. }
  rewrite Hsame, Hnone in Hpart. lia.
Qed.

Section StatusListFacts.

Import SyncedCron.

Lemma get_of_key (entries : list (string * JobEntry.t)) (k : string) :
  In k (map fst entries) -> exists entry, get entries k = Some entry.
Proof.
  induction entries as [|[k0 v0] rest IH]; cbn [map In get fst]; [tauto|].
  intros [-> | H].
  - rewrite String.eqb_refl. eauto.
  - destruct (String.eqb k0 k); eauto.
Qed.

Lemma collectStatuses_all (zone : JsDate.Zone) (clock : string -> Z)
    (inst : Instance)
    (db : Mongo.Store) (names : list string) :
  initialized inst = true ->
  (forall k, In k names -> In k (map fst (entries inst))) ->
  forall acc,
    exists statuses,
      collectStatuses Mongo.collection zone clock inst db names acc
      = Resolved (acc ++ statuses)
      /\ map JobStatus.name statuses = names
      /\ Forall2 (fun k status =>
                    getJobStatus Mongo.collection zone (clock k) inst db k
                    = Resolved (Some status)) names statuses.
Proof.
  intros Hinit. induction names as [|k rest IH]; intros Hin acc;
    cbn [collectStatuses].
  - exists []. rewrite app_nil_r. repeat split. constructor.
  - destruct (get_of_key (entries inst) k (Hin k (or_introl eq_refl)))
      as [entry Hget].
    assert (Hstatus : exists status,
              getJobStatus Mongo.collection zone (clock k) inst db k
              = Resolved (Some status) /\ JobStatus.name status = k).
    { unfold getJobStatus. rewrite Hget, Hinit. cbn [negb].
      cbn [findByName Mongo.collection Mongo.find].
      eexists. split; reflexivity. }
    destruct Hstatus as (status & Hs & Hname). rewrite Hs.
    destruct (IH (fun k' H => Hin k' (or_intror H)) (acc ++ [status]))
      as (statuses & Hc & Hn & Hall).
    exists (status :: statuses). rewrite Hc, <- app_assoc.
    split; [reflexivity|]. split; [cbn [map]; congruence|].
    constructor; assumption.
Qed.

End StatusListFacts.

(** X26.  The statuses of all jobs.  On an initialized instance, with the
    history in a collection whose queries succeed, [getAllJobStatuses]
    resolves with one status per registered job, in the order of
    registration: the names of the statuses are the job names of
    [getJobNames], and each status is the one [getJobStatus] gives for
    that name.  On an instance that was never started it resolves with the
    empty list when no job is registered and is rejected otherwise. *)
Theorem all_statuses_list_the_registry :
  forall zone clock inst db,
    (SyncedCron.initialized inst = true ->
     exists statuses,
       SyncedCron.getAllJobStatuses Mongo.collection zone clock inst db
       = SyncedCron.Resolved statuses
       /\ map JobStatus.name statuses = SyncedCron.getJobNames inst
       /\ Forall2 (fun k status =>
                     SyncedCron.getJobStatus Mongo.collection zone (clock k)
                       inst db k
                     = SyncedCron.Resolved (Some status))
                  (SyncedCron.getJobNames inst) statuses)
    /\ (SyncedCron.initialized inst = false ->
        SyncedCron.getAllJobStatuses Mongo.collection zone clock inst db
        = match SyncedCron.entries inst with
          | [] => SyncedCron.Resolved []
          | _ :: _ =>
              SyncedCron.Rejected
                (newError "SyncedCron not initialized. Call start() first.")
          end).
Proof.
  intros zone clock inst db. split.
  - intros Hinit. unfold SyncedCron.getAllJobStatuses, SyncedCron.getJobNames.
    destruct (collectStatuses_all zone clock inst db
                (map fst (SyncedCron.entries inst)) Hinit (fun k H => H) [])
      as (statuses & Hc & Hn & Hall).
    exists statuses. repeat split; assumption.
  - intros Hinit. unfold SyncedCron.getAllJobStatuses, SyncedCron.getJobNames.
    destruct (SyncedCron.entries inst) as [|[k entry] rest] eqn:He;
      [reflexivity|].
    cbn [map fst SyncedCron.collectStatuses]. unfold SyncedCron.getJobStatus.
    rewrite He. cbn [SyncedCron.get]. rewrite String.eqb_refl, Hinit.
    reflexivity.
Qed.


Section HistoryFacts.

Import SyncedCron.

(** A document that started after all the others comes first. *)
Lemma newest_comes_first (doc : JobHistory.t) (l rest : list JobHistory.t) :
  Forall (fun d => JobHistory.startedAt d < JobHistory.startedAt doc) l ->
  exists tail, fold_right Mongo.insertNewestFirst (doc :: rest) l = doc :: tail.
Proof.
  induction 1 as [|d l Hd Hl IH]; cbn [fold_right].
  - eauto.
  - destruct IH as [tail ->]. cbn [Mongo.insertNewestFirst].
    replace (JobHistory.startedAt doc <? JobHistory.startedAt d) with false
      by (symmetry; apply Z.ltb_ge; lia).
    eauto.
Qed.

Lemma sortNewestFirst_snoc (l : list JobHistory.t) (doc : JobHistory.t) :
  Forall (fun d => JobHistory.startedAt d < JobHistory.startedAt doc) l ->
  exists tail, Mongo.sortNewestFirst (l ++ [doc]) = doc :: tail.
Proof.
  intros H. unfold Mongo.sortNewestFirst. rewrite fold_right_app.
  cbn [fold_right Mongo.insertNewestFirst]. apply newest_comes_first, H.
Qed.

End HistoryFacts.

(** X27.  A finished run is the last run.  Let a persisted job be fired on
    the collection with the unique index, for a run the history does not
    hold yet, at a clock reading later than the start of every recorded
    run of that job, and let the job succeed after [elapsed] ms.  Then
    [executeJob] resolves, and [getJobStatus] afterwards reports that run
    as the last one: started at the clock reading, finished [elapsed] ms
    later, successful, with that duration and no error. *)
Theorem finished_run_is_the_last_run
    (zone : JsDate.Zone) (stack : Thrown -> option string) (now later : Z)
    (inst : SyncedCron.Instance) (entry : JobEntry.t) (intendedAt : Z)
    (db : Mongo.Store) (elapsed : Z) (output : JsValue) :
  SyncedCron.initialized inst = true ->
  SyncedCron.has (SyncedCron.entries inst) (JobEntry.name entry) = true ->
  JobEntry.persist entry = true ->
  awaitJob (JobEntry.job entry intendedAt (JobEntry.name entry))
  = Some (elapsed, Ok output) ->
  SyncedCron.holdsRun db intendedAt (JobEntry.name entry) = false ->
  Forall (fun doc => JobHistory.name doc = JobEntry.name entry ->
                     JobHistory.startedAt doc < now) (Mongo.docs db) ->
  let '(db', _, outcome) :=
    SyncedCron.executeJob Mongo.collection stack true now entry intendedAt
      db in
  outcome = SyncedCron.Resolved tt
  /\ exists status,
       SyncedCron.getJobStatus Mongo.collection zone later inst db'
         (JobEntry.name entry)
       = SyncedCron.Resolved (Some status)
       /\ JobStatus.lastRun status
          = Some {| LastRun.startedAt := now;
                    LastRun.finishedAt := Some (now + elapsed);
                    LastRun.success := true;
                    LastRun.duration := Some elapsed;
                    LastRun.error := None |}.
Proof.
  intros Hinit Hhas Hpersist Hjob Hfree Hnewest.
  unfold SyncedCron.executeJob. cbn [negb]. rewrite Hpersist, Hjob.
  cbn [insertAsync updateAsync Mongo.collection].
  unfold Mongo.insert. rewrite sameKey_holdsRun, Hfree.
  cbn [SyncedCron.truthyId String.eqb append]. unfold Mongo.update.
  split; [reflexivity|].
  unfold SyncedCron.getJobStatus.
  rewrite get_has in Hhas.
  destruct (SyncedCron.get (SyncedCron.entries inst) (JobEntry.name entry))
    as [held|]; [|discriminate].
  rewrite Hinit. cbn [negb findByName Mongo.collection Mongo.find Mongo.docs].
  eexists. split; [reflexivity|].
  cbn [JobStatus.lastRun]. rewrite map_app, filter_app.
  cbn [map filter SyncedCron.newHistory JobHistory.name JobHistory._id
       Mongo.hasId Mongo.applyPatch].
  rewrite !String.eqb_refl.
  match goal with |- context [Mongo.sortNewestFirst (?l ++ [?doc])] =>
    destruct (sortNewestFirst_snoc l doc) as [tail ->]
  end.
  - apply Forall_forall. intros d Hd. apply filter_In in Hd as [Hd Hname].
    apply in_map_iff in Hd as (d0 & <- & Hd0).
    rewrite Forall_forall in Hnewest. specialize (Hnewest d0 Hd0).
    destruct (Mongo.hasId _ d0);
      cbn [Mongo.applyPatch JobHistory.name JobHistory.startedAt] in *;
      apply Hnewest; apply String.eqb_eq; assumption.
  - cbn [firstn SyncedCron.computeLastRun SyncedCron.newHistory
         JobHistory.startedAt JobHistory.finishedAt JobHistory.error
         SyncedCron.hasError negb].
    replace (now + elapsed - now) with elapsed by lia. reflexivity.
Qed.

(** The sample job fired at 5000 on the sample history, whose rows started
    at 1000, 2000 and 3000. *)
Lemma finished_run_is_the_last_run_witness :
  SyncedCron.holdsRun Sample.store 5000 (JobEntry.name Sample.entry) = false
  /\ snd (SyncedCron.executeJob Mongo.collection Sample.stack true 5000
      Sample.entry 5000
            Sample.store)
     = SyncedCron.Resolved tt.
Proof.
  split; [reflexivity|].
  assert (H := finished_run_is_the_last_run (JsDate.fixed 0) Sample.stack 5000
                 6000 Sample.instance
                 Sample.entry 5000 Sample.store 0 Undefined
                 eq_refl eq_refl eq_refl eq_refl eq_refl
                 ltac:(repeat constructor; cbn; lia)).
  destruct (SyncedCron.executeJob Mongo.collection Sample.stack true 5000
      Sample.entry 5000
              Sample.store) as [[db' evs] outcome].
  exact (proj1 H).
Defined.


Section SteadyTimer.

Import TimerManager.

Variable zone : JsDate.Zone.
Variable getNextTime : nat -> Z -> NextTime.
Variable execute : Z -> option Thrown.
Variable options : TimerOptions.

Hypothesis always_valid :
  forall calls now, failsValidation (getNextTime calls now) now = false.

Hypothesis onSchedule_returns :
  forall callback nextRun,
    onSchedule options = Some callback -> callback nextRun = None.

Hypothesis onError_returns :
  forall callback e, onError options = Some callback -> callback e = None.

(** With a [getNextTime] that is always valid, the [try] block runs
    through. *)
Lemma computeNextRun_succeeds (now : Z) (st : State) :
  exists nextRun evs,
    computeNextRun getNextTime options now st
    = ({| done := done st; currentTimer := currentTimer st;
          consecutiveFailures := 0; timers := timers st;
          events := events st ++ CalledGetNextTime now :: evs |}, Ok nextRun)
    /\ now < nextRun
    /\ (evs = [] \/ evs = [CalledOnSchedule nextRun]).
Proof.
  unfold computeNextRun.
  set (st1 := record st [CalledGetNextTime now]).
  assert (H := always_valid (attempts (events st1) - 1) now).
  destruct (getNextTime (attempts (events st1) - 1) now) as [t| | |e];
    cbn [failsValidation] in H; try discriminate.
  rewrite H. apply Z.leb_gt in H.
  destruct (onSchedule options) as [callback|] eqn:Hcb.
  - rewrite (onSchedule_returns callback t eq_refl).
    exists t, [CalledOnSchedule t]. subst st1. unfold record.
    cbn [done currentTimer consecutiveFailures timers events].
    rewrite <- app_assoc. split; [reflexivity|]. split; [assumption | auto].
  - exists t, []. subst st1. unfold record.
    cbn [done currentTimer consecutiveFailures timers events].
    split; [reflexivity|]. split; [assumption | auto].
Qed.

Lemma scheduleNext_steady (now : Z) (st : State) :
  done st = false -> Timers.pending (timers st) = [] ->
  circuitBreaks (events st) = O ->
  (errorsReported (events st) <= executions (events st))%nat ->
  let r := scheduleNext getNextTime options now st in
  snd r = None
  /\ steady (fst r)
  /\ attempts (events (fst r)) = S (attempts (events st)).
Proof.
  intros Hd Hp Hc He. cbv zeta. unfold scheduleNext. rewrite Hd.
  destruct (computeNextRun_succeeds now st) as (nextRun & evs & -> & Hlt & Hevs).
  unfold steady.
  cbn [done currentTimer consecutiveFailures timers events Timers.setTimeout
       Timers.pending fst snd].
  rewrite Hp.
  assert (Hcount :
    circuitBreaks ((events st ++ CalledGetNextTime now :: evs)
                   ++ [Armed (Z.min (JsDate.getTime nextRun - JsDate.getTime now)
                                    MAX_SETTIMEOUT_DELAY)]) = O
    /\ errorsReported ((events st ++ CalledGetNextTime now :: evs)
                       ++ [Armed (Z.min (JsDate.getTime nextRun
                                         - JsDate.getTime now)
                                        MAX_SETTIMEOUT_DELAY)])
       = errorsReported (events st)
    /\ executions ((events st ++ CalledGetNextTime now :: evs)
                   ++ [Armed (Z.min (JsDate.getTime nextRun - JsDate.getTime now)
                                    MAX_SETTIMEOUT_DELAY)])
       = executions (events st)
    /\ attempts ((events st ++ CalledGetNextTime now :: evs)
                 ++ [Armed (Z.min (JsDate.getTime nextRun - JsDate.getTime now)
                                  MAX_SETTIMEOUT_DELAY)])
       = S (attempts (events st))).
  { rewrite !circuitBreaks_app, !errorsReported_app, !executions_app,
      !attempts_app, Hc.
    destruct Hevs as [-> | ->]; cbn; repeat split; lia. }
  destruct Hcount as (H1 & H2 & H3 & H4).
  split; [reflexivity|]. split; [|exact H4].
  split; [exact Hd|]. split; [reflexivity|]. split; [exact H1|].
  split; [rewrite H2, H3; exact He|].
  eexists. eexists. eexists. cbn [app].
  split; [reflexivity|]. split; [reflexivity|]. exact Hlt.
Qed.

Lemma tick_steady (late : Z) (st : State) :
  steady st -> uncaught (events st) = [] ->
  let st' := tick zone getNextTime execute options late st in
  steady st' /\ uncaught (events st') = []
  /\ attempts (events st') = S (attempts (events st)).
Proof.
  intros (Hd & Hf & Hc & He & p & nextRun & capped & Hp & Hcb & Hlt) Hu.
  cbv zeta. unfold tick. rewrite Hp. cbn [Timers.earliest].
  assert (Hq : Timers.pending
                 (Timers.clearTimeout (timers st) (Timers.timerId p)) = []).
  { unfold Timers.clearTimeout. cbn. rewrite Hp. cbn.
    rewrite Nat.eqb_refl. reflexivity. }
  assert (Hnext : forall now s,
    done s = false -> Timers.pending (timers s) = [] ->
    circuitBreaks (events s) = O ->
    (errorsReported (events s) <= executions (events s))%nat ->
    attempts (events s) = attempts (events st) ->
    uncaught (events s) = [] ->
    let st' :=
      match scheduleNext getNextTime options now s with
      | (st', Some thrown) => record st' [Uncaught thrown]
      | (st', None) => st'
      end in
    steady st' /\ uncaught (events st') = []
    /\ attempts (events st') = S (attempts (events st))).
  { intros now s Hd' Hp' Hc' He' Ha' Hu'. cbv zeta.
    destruct (scheduleNext_steady now s Hd' Hp' Hc' He') as (Hnone & Hst & Hat).
    assert (Hun := scheduleNext_uncaught getNextTime options now s).
    destruct (scheduleNext getNextTime options now s) as [st' thrown].
    cbn [fst snd] in *. subst thrown.
    split; [exact Hst|]. split; [rewrite Hun; exact Hu' | rewrite Hat, Ha'; reflexivity]. }
  unfold runClosure. rewrite Hcb. cbn [done]. rewrite Hd.
  destruct capped.
  - apply Hnext; solve [reflexivity | exact Hq | assumption].
  - unfold reportError, record.
    cbn [done currentTimer consecutiveFailures timers events].
    destruct (execute _) as [e|];
      [destruct (onError options) as [callback|] eqn:Hon;
       [rewrite (onError_returns callback _ eq_refl)|]|];
      apply Hnext;
      cbn [done currentTimer consecutiveFailures timers events];
      rewrite ?circuitBreaks_app, ?errorsReported_app, ?executions_app,
        ?attempts_app, ?uncaught_app, ?Hc, ?Hu;
      cbn; solve [reflexivity | exact Hq | assumption | lia].
Qed.

Lemma ticks_steady (lates : list Z) :
  forall st,
    steady st -> uncaught (events st) = [] ->
    let st' := ticks zone getNextTime execute options lates st in
    steady st' /\ uncaught (events st') = []
    /\ attempts (events st') = (List.length lates + attempts (events st))%nat.
Proof.
  induction lates as [|late lates IH]; intros st Hst Hu; cbv zeta;
    cbn [ticks fold_left List.length].
  - split; [assumption|]. split; [assumption | reflexivity].
  - destruct (tick_steady late st Hst Hu) as (Hst' & Hu' & Hat).
    destruct (IH _ Hst' Hu') as (Hst'' & Hu'' & Hat').
    split; [exact Hst''|]. split; [exact Hu''|].
    cbv zeta in Hat'. unfold ticks in Hat'.
    rewrite Hat', Hat. lia.
Qed.

End SteadyTimer.

(** X28.  A failing job does not trip the breaker.  Let every call of
    [getNextTime] return a valid time strictly after now, and let
    [onSchedule] and [onError], when given, return.  Then, whatever
    [execute] does (it may throw at every call) and however late the timers
    fire, the loop of [scheduleRecurring] never stops: the call returns its
    handle, no exception leaves a timer callback, and after any number of
    firings the loop is not done, the failure count is zero,
    [onCircuitBreak] was never called, [onError] was called no more often
    than [execute], [getNextTime] was called once at the start and once
    per firing, and one timer is armed, for a run that lay ahead when it
    was armed. *)
Theorem failing_job_does_not_trip_the_breaker
    (zone : JsDate.Zone) (getNextTime : nat -> Z -> TimerManager.NextTime)
    (execute : Z -> option Thrown) (options : TimerManager.TimerOptions)
    (start : Z) (lates : list Z) :
  (forall calls now,
     TimerManager.failsValidation (getNextTime calls now) now = false) ->
  (forall callback nextRun,
     TimerManager.onSchedule options = Some callback ->
     callback nextRun = None) ->
  (forall callback e,
     TimerManager.onError options = Some callback -> callback e = None) ->
  let called := TimerManager.scheduleRecurring getNextTime options start in
  let st :=
    TimerManager.ticks zone getNextTime execute options lates (fst called) in
  snd called = None
  /\ TimerManager.uncaught (TimerManager.events st) = []
  /\ TimerManager.steady st
  /\ TimerManager.attempts (TimerManager.events st) = S (List.length lates).
Proof.
  intros Hvalid Hcb Herr. cbv zeta.
  destruct (scheduleNext_steady getNextTime options Hvalid Hcb start
              {| TimerManager.done := false;
                 TimerManager.currentTimer := None;
                 TimerManager.consecutiveFailures := 0;
                 TimerManager.timers := Timers.empty;
                 TimerManager.events := [] |}
              eq_refl eq_refl eq_refl ltac:(cbn; lia)) as (Hnone & Hst & Hat).
  cbv zeta in Hnone, Hst, Hat.
  assert (Hu : TimerManager.uncaught
                 (TimerManager.events
                    (fst (TimerManager.scheduleRecurring getNextTime options
                            start))) = []).
  { unfold TimerManager.scheduleRecurring. rewrite scheduleNext_uncaught.
    reflexivity. }
  destruct (ticks_steady zone getNextTime execute options Hvalid Hcb Herr lates
              _ Hst Hu) as (Hst' & Hu' & Hat').
  split; [exact Hnone|]. split; [exact Hu'|]. split; [exact Hst'|].
  cbv zeta in Hat'.
  unfold TimerManager.scheduleRecurring. rewrite Hat'.
  rewrite Hat. cbn. lia.
Qed.

(** A run every minute and a job that always throws: after the first call
    and three firings the loop is steady, with four calls of
    [getNextTime]. *)
Lemma failing_job_does_not_trip_the_breaker_witness :
  let options :=
    {| TimerManager.maxConsecutiveFailures := None;
       TimerManager.onCircuitBreak := Some (fun _ => None);
       TimerManager.onSchedule := None;
       TimerManager.onError := Some (fun _ => None) |} in
  let st :=
    TimerManager.ticks (JsDate.fixed 0)
      (fun _ now => TimerManager.ReturnsDate (now + 60000))
      (fun _ => Some (newError "boom")) options [0; 5; 0]
      (fst (TimerManager.scheduleRecurring
              (fun _ now => TimerManager.ReturnsDate (now + 60000))
              options 0)) in
  TimerManager.done st = false
  /\ TimerManager.attempts (TimerManager.events st) = 4%nat.
Proof.
  cbv zeta.
  assert (H := failing_job_does_not_trip_the_breaker (JsDate.fixed 0)
                 (fun _ now => TimerManager.ReturnsDate (now + 60000))
                 (fun _ => Some (newError "boom"))
                 {| TimerManager.maxConsecutiveFailures := None;
                    TimerManager.onCircuitBreak := Some (fun _ => None);
                    TimerManager.onSchedule := None;
                    TimerManager.onError := Some (fun _ => None) |}
                 0 [0; 5; 0]
                 ltac:(intros calls now; apply Z.leb_gt; lia)
                 ltac:(intros callback nextRun Hc; discriminate Hc)
                 ltac:(intros callback e Hc; injection Hc as <-; reflexivity)).
  cbv zeta in H. destruct H as (_ & _ & (Hd & _) & Hat).
  split; [exact Hd | exact Hat].
Defined.

(** When [onError] throws as well, the loop stalls: the job throws at the
    first firing, [onError] is called with its error and throws, its
    exception leaves the timer callback, and [scheduleNext] is not reached;
    the loop is not done and no timer is armed, whatever fires later. *)
Example failing_job_with_a_failing_onError :
  let options :=
    {| TimerManager.maxConsecutiveFailures := None;
       TimerManager.onCircuitBreak := Some (fun _ => None);
       TimerManager.onSchedule := None;
       TimerManager.onError :=
         Some (fun _ => Some (newError "alerting is down")) |} in
  let st :=
    TimerManager.ticks (JsDate.fixed 0)
      (fun _ now => TimerManager.ReturnsDate (now + 60000))
      (fun _ => Some (newError "boom")) options [0; 5; 0]
      (fst (TimerManager.scheduleRecurring
              (fun _ now => TimerManager.ReturnsDate (now + 60000))
              options 0)) in
  TimerManager.events st
  = [TimerManager.CalledGetNextTime 0; TimerManager.Armed 60000;
     TimerManager.CalledExecute 60000;
     TimerManager.CalledOnError (newError "boom");
     TimerManager.Uncaught (newError "alerting is down")]
  /\ TimerManager.done st = false
  /\ Timers.pending (TimerManager.timers st) = [].
Proof. vm_compute. repeat split. Qed.



